(** * DorfLife: behaviour-and-lifecycle simulation engine

    A shallow embedding of the reproduction system (strategies, female
    selection, pregnancy manager, configuration validation, event bus) and
    of the lifespan/combat system of the DorfLife colony game.

    JavaScript numbers are modelled as rationals [Q]; a field that the code
    tests with [typeof ... === 'undefined'] or with JavaScript truthiness is
    an [option] ([None] is [undefined]).  Agents are referred to by their
    index in the population array, which plays the role of JavaScript object
    identity.  [Math.random()] reads the next value of an explicit random
    stream kept in the world state. *)

From Stdlib Require Import String QArith Qround ZArith List Bool Lia Lqa.
Import ListNotations.
Open Scope Q_scope.

(** ** Numbers and comparisons as the JavaScript code uses them *)

Definition qlt (a b : Q) : bool := negb (Qle_bool b a).
Definition qle (a b : Q) : bool := Qle_bool a b.
Definition qeq (a b : Q) : bool := Qeq_bool a b.
Definition qmin (a b : Q) : Q := if qle a b then a else b.
Definition qmax (a b : Q) : Q := if qle b a then a else b.

(** [Number.isInteger] on a finite number. *)
Definition isInteger (q : Q) : bool :=
  (Z.modulo (Qnum q) (Zpos (Qden q)) =? 0)%Z.

(** [Math.floor] as a number. *)
Definition jfloor (q : Q) : Q := inject_Z (Qfloor q).

(** ** Data model *)

Inductive Gender := Male | Female.

(** ['orange'], ['blue'], ['yellow']: territorial, guardian, sneaky. *)
Inductive Strategy := Orange | Blue | Yellow.

Definition gender_eqb (a b : Gender) : bool :=
  match a, b with Male, Male | Female, Female => true | _, _ => false end.

Definition strategy_eqb (a b : Strategy) : bool :=
  match a, b with
  | Orange, Orange | Blue, Blue | Yellow, Yellow => true
  | _, _ => false
  end.

(** [male.reproductionStrategy === s]: an absent strategy equals nothing. *)
Definition has_strategy (o : option Strategy) (s : Strategy) : bool :=
  match o with Some s' => strategy_eqb s' s | None => false end.

Record Personality := mkPersonality {
  agreeableness : Q;
  openness : Q;
  neuroticism : Q
}.

Record CombatStats := mkCombatStats {
  cs_attack : Q;
  cs_defense : Q;
  cs_speed : Q;
  cs_critChance : Q
}.

(** JavaScript truthiness of an optional boolean / number field. *)
Definition truthy_b (o : option bool) : bool :=
  match o with Some b => b | None => false end.

(** [v > 0] and [v <= 0] with [undefined > 0] and [undefined <= 0] false. *)
Definition opt_gt0 (o : option Q) : bool :=
  match o with Some v => qlt 0 v | None => false end.
Definition opt_le0 (o : option Q) : bool :=
  match o with Some v => qle v 0 | None => false end.

Record Dwarf := mkDwarf {
  name : string;
  x : Q;
  y : Q;
  gender : Gender;
  isAdult : bool;
  personality : option Personality;
  reproductionStrategy : option Strategy;
  isPregnant : option bool;
  pregnancyTimer : option Q;
  reproductionCooldown : option Q;
  mateSeekingTimer : option Q;
  territoryX : option Q;
  territoryY : option Q;
  guardedFemale : option (option nat);
  age : Q;
  maxLifespan : Q;
  health : option Q;
  maxHealth : Q;
  efficiency : Q;
  speed : Q;
  combatStats : CombatStats;
  attackCooldown : Q;
  combatEffectTimer : Q;
  isInCombat : bool;
  combatTarget : option nat;
  lastAttacker : option nat;
  isDead : bool;
  healthBarVisible : bool;
  targetX : Q;
  targetY : Q
}.

Definition set_name (v : string) (d : Dwarf) : Dwarf :=
  mkDwarf v (x d) (y d) (gender d) (isAdult d) (personality d) (reproductionStrategy d) (isPregnant d) (pregnancyTimer d) (reproductionCooldown d) (mateSeekingTimer d) (territoryX d) (territoryY d) (guardedFemale d) (age d) (maxLifespan d) (health d) (maxHealth d) (efficiency d) (speed d) (combatStats d) (attackCooldown d) (combatEffectTimer d) (isInCombat d) (combatTarget d) (lastAttacker d) (isDead d) (healthBarVisible d) (targetX d) (targetY d).

Definition set_x (v : Q) (d : Dwarf) : Dwarf :=
  mkDwarf (name d) v (y d) (gender d) (isAdult d) (personality d) (reproductionStrategy d) (isPregnant d) (pregnancyTimer d) (reproductionCooldown d) (mateSeekingTimer d) (territoryX d) (territoryY d) (guardedFemale d) (age d) (maxLifespan d) (health d) (maxHealth d) (efficiency d) (speed d) (combatStats d) (attackCooldown d) (combatEffectTimer d) (isInCombat d) (combatTarget d) (lastAttacker d) (isDead d) (healthBarVisible d) (targetX d) (targetY d).

Definition set_y (v : Q) (d : Dwarf) : Dwarf :=
  mkDwarf (name d) (x d) v (gender d) (isAdult d) (personality d) (reproductionStrategy d) (isPregnant d) (pregnancyTimer d) (reproductionCooldown d) (mateSeekingTimer d) (territoryX d) (territoryY d) (guardedFemale d) (age d) (maxLifespan d) (health d) (maxHealth d) (efficiency d) (speed d) (combatStats d) (attackCooldown d) (combatEffectTimer d) (isInCombat d) (combatTarget d) (lastAttacker d) (isDead d) (healthBarVisible d) (targetX d) (targetY d).

Definition set_gender (v : Gender) (d : Dwarf) : Dwarf :=
  mkDwarf (name d) (x d) (y d) v (isAdult d) (personality d) (reproductionStrategy d) (isPregnant d) (pregnancyTimer d) (reproductionCooldown d) (mateSeekingTimer d) (territoryX d) (territoryY d) (guardedFemale d) (age d) (maxLifespan d) (health d) (maxHealth d) (efficiency d) (speed d) (combatStats d) (attackCooldown d) (combatEffectTimer d) (isInCombat d) (combatTarget d) (lastAttacker d) (isDead d) (healthBarVisible d) (targetX d) (targetY d).

Definition set_isAdult (v : bool) (d : Dwarf) : Dwarf :=
  mkDwarf (name d) (x d) (y d) (gender d) v (personality d) (reproductionStrategy d) (isPregnant d) (pregnancyTimer d) (reproductionCooldown d) (mateSeekingTimer d) (territoryX d) (territoryY d) (guardedFemale d) (age d) (maxLifespan d) (health d) (maxHealth d) (efficiency d) (speed d) (combatStats d) (attackCooldown d) (combatEffectTimer d) (isInCombat d) (combatTarget d) (lastAttacker d) (isDead d) (healthBarVisible d) (targetX d) (targetY d).

Definition set_personality (v : option Personality) (d : Dwarf) : Dwarf :=
  mkDwarf (name d) (x d) (y d) (gender d) (isAdult d) v (reproductionStrategy d) (isPregnant d) (pregnancyTimer d) (reproductionCooldown d) (mateSeekingTimer d) (territoryX d) (territoryY d) (guardedFemale d) (age d) (maxLifespan d) (health d) (maxHealth d) (efficiency d) (speed d) (combatStats d) (attackCooldown d) (combatEffectTimer d) (isInCombat d) (combatTarget d) (lastAttacker d) (isDead d) (healthBarVisible d) (targetX d) (targetY d).

Definition set_reproductionStrategy (v : option Strategy) (d : Dwarf) : Dwarf :=
  mkDwarf (name d) (x d) (y d) (gender d) (isAdult d) (personality d) v (isPregnant d) (pregnancyTimer d) (reproductionCooldown d) (mateSeekingTimer d) (territoryX d) (territoryY d) (guardedFemale d) (age d) (maxLifespan d) (health d) (maxHealth d) (efficiency d) (speed d) (combatStats d) (attackCooldown d) (combatEffectTimer d) (isInCombat d) (combatTarget d) (lastAttacker d) (isDead d) (healthBarVisible d) (targetX d) (targetY d).

Definition set_isPregnant (v : option bool) (d : Dwarf) : Dwarf :=
  mkDwarf (name d) (x d) (y d) (gender d) (isAdult d) (personality d) (reproductionStrategy d) v (pregnancyTimer d) (reproductionCooldown d) (mateSeekingTimer d) (territoryX d) (territoryY d) (guardedFemale d) (age d) (maxLifespan d) (health d) (maxHealth d) (efficiency d) (speed d) (combatStats d) (attackCooldown d) (combatEffectTimer d) (isInCombat d) (combatTarget d) (lastAttacker d) (isDead d) (healthBarVisible d) (targetX d) (targetY d).

Definition set_pregnancyTimer (v : option Q) (d : Dwarf) : Dwarf :=
  mkDwarf (name d) (x d) (y d) (gender d) (isAdult d) (personality d) (reproductionStrategy d) (isPregnant d) v (reproductionCooldown d) (mateSeekingTimer d) (territoryX d) (territoryY d) (guardedFemale d) (age d) (maxLifespan d) (health d) (maxHealth d) (efficiency d) (speed d) (combatStats d) (attackCooldown d) (combatEffectTimer d) (isInCombat d) (combatTarget d) (lastAttacker d) (isDead d) (healthBarVisible d) (targetX d) (targetY d).

Definition set_reproductionCooldown (v : option Q) (d : Dwarf) : Dwarf :=
  mkDwarf (name d) (x d) (y d) (gender d) (isAdult d) (personality d) (reproductionStrategy d) (isPregnant d) (pregnancyTimer d) v (mateSeekingTimer d) (territoryX d) (territoryY d) (guardedFemale d) (age d) (maxLifespan d) (health d) (maxHealth d) (efficiency d) (speed d) (combatStats d) (attackCooldown d) (combatEffectTimer d) (isInCombat d) (combatTarget d) (lastAttacker d) (isDead d) (healthBarVisible d) (targetX d) (targetY d).

Definition set_mateSeekingTimer (v : option Q) (d : Dwarf) : Dwarf :=
  mkDwarf (name d) (x d) (y d) (gender d) (isAdult d) (personality d) (reproductionStrategy d) (isPregnant d) (pregnancyTimer d) (reproductionCooldown d) v (territoryX d) (territoryY d) (guardedFemale d) (age d) (maxLifespan d) (health d) (maxHealth d) (efficiency d) (speed d) (combatStats d) (attackCooldown d) (combatEffectTimer d) (isInCombat d) (combatTarget d) (lastAttacker d) (isDead d) (healthBarVisible d) (targetX d) (targetY d).

Definition set_territoryX (v : option Q) (d : Dwarf) : Dwarf :=
  mkDwarf (name d) (x d) (y d) (gender d) (isAdult d) (personality d) (reproductionStrategy d) (isPregnant d) (pregnancyTimer d) (reproductionCooldown d) (mateSeekingTimer d) v (territoryY d) (guardedFemale d) (age d) (maxLifespan d) (health d) (maxHealth d) (efficiency d) (speed d) (combatStats d) (attackCooldown d) (combatEffectTimer d) (isInCombat d) (combatTarget d) (lastAttacker d) (isDead d) (healthBarVisible d) (targetX d) (targetY d).

Definition set_territoryY (v : option Q) (d : Dwarf) : Dwarf :=
  mkDwarf (name d) (x d) (y d) (gender d) (isAdult d) (personality d) (reproductionStrategy d) (isPregnant d) (pregnancyTimer d) (reproductionCooldown d) (mateSeekingTimer d) (territoryX d) v (guardedFemale d) (age d) (maxLifespan d) (health d) (maxHealth d) (efficiency d) (speed d) (combatStats d) (attackCooldown d) (combatEffectTimer d) (isInCombat d) (combatTarget d) (lastAttacker d) (isDead d) (healthBarVisible d) (targetX d) (targetY d).

Definition set_guardedFemale (v : option (option nat)) (d : Dwarf) : Dwarf :=
  mkDwarf (name d) (x d) (y d) (gender d) (isAdult d) (personality d) (reproductionStrategy d) (isPregnant d) (pregnancyTimer d) (reproductionCooldown d) (mateSeekingTimer d) (territoryX d) (territoryY d) v (age d) (maxLifespan d) (health d) (maxHealth d) (efficiency d) (speed d) (combatStats d) (attackCooldown d) (combatEffectTimer d) (isInCombat d) (combatTarget d) (lastAttacker d) (isDead d) (healthBarVisible d) (targetX d) (targetY d).

Definition set_age (v : Q) (d : Dwarf) : Dwarf :=
  mkDwarf (name d) (x d) (y d) (gender d) (isAdult d) (personality d) (reproductionStrategy d) (isPregnant d) (pregnancyTimer d) (reproductionCooldown d) (mateSeekingTimer d) (territoryX d) (territoryY d) (guardedFemale d) v (maxLifespan d) (health d) (maxHealth d) (efficiency d) (speed d) (combatStats d) (attackCooldown d) (combatEffectTimer d) (isInCombat d) (combatTarget d) (lastAttacker d) (isDead d) (healthBarVisible d) (targetX d) (targetY d).

Definition set_maxLifespan (v : Q) (d : Dwarf) : Dwarf :=
  mkDwarf (name d) (x d) (y d) (gender d) (isAdult d) (personality d) (reproductionStrategy d) (isPregnant d) (pregnancyTimer d) (reproductionCooldown d) (mateSeekingTimer d) (territoryX d) (territoryY d) (guardedFemale d) (age d) v (health d) (maxHealth d) (efficiency d) (speed d) (combatStats d) (attackCooldown d) (combatEffectTimer d) (isInCombat d) (combatTarget d) (lastAttacker d) (isDead d) (healthBarVisible d) (targetX d) (targetY d).

Definition set_health (v : option Q) (d : Dwarf) : Dwarf :=
  mkDwarf (name d) (x d) (y d) (gender d) (isAdult d) (personality d) (reproductionStrategy d) (isPregnant d) (pregnancyTimer d) (reproductionCooldown d) (mateSeekingTimer d) (territoryX d) (territoryY d) (guardedFemale d) (age d) (maxLifespan d) v (maxHealth d) (efficiency d) (speed d) (combatStats d) (attackCooldown d) (combatEffectTimer d) (isInCombat d) (combatTarget d) (lastAttacker d) (isDead d) (healthBarVisible d) (targetX d) (targetY d).

Definition set_maxHealth (v : Q) (d : Dwarf) : Dwarf :=
  mkDwarf (name d) (x d) (y d) (gender d) (isAdult d) (personality d) (reproductionStrategy d) (isPregnant d) (pregnancyTimer d) (reproductionCooldown d) (mateSeekingTimer d) (territoryX d) (territoryY d) (guardedFemale d) (age d) (maxLifespan d) (health d) v (efficiency d) (speed d) (combatStats d) (attackCooldown d) (combatEffectTimer d) (isInCombat d) (combatTarget d) (lastAttacker d) (isDead d) (healthBarVisible d) (targetX d) (targetY d).

Definition set_efficiency (v : Q) (d : Dwarf) : Dwarf :=
  mkDwarf (name d) (x d) (y d) (gender d) (isAdult d) (personality d) (reproductionStrategy d) (isPregnant d) (pregnancyTimer d) (reproductionCooldown d) (mateSeekingTimer d) (territoryX d) (territoryY d) (guardedFemale d) (age d) (maxLifespan d) (health d) (maxHealth d) v (speed d) (combatStats d) (attackCooldown d) (combatEffectTimer d) (isInCombat d) (combatTarget d) (lastAttacker d) (isDead d) (healthBarVisible d) (targetX d) (targetY d).

Definition set_speed (v : Q) (d : Dwarf) : Dwarf :=
  mkDwarf (name d) (x d) (y d) (gender d) (isAdult d) (personality d) (reproductionStrategy d) (isPregnant d) (pregnancyTimer d) (reproductionCooldown d) (mateSeekingTimer d) (territoryX d) (territoryY d) (guardedFemale d) (age d) (maxLifespan d) (health d) (maxHealth d) (efficiency d) v (combatStats d) (attackCooldown d) (combatEffectTimer d) (isInCombat d) (combatTarget d) (lastAttacker d) (isDead d) (healthBarVisible d) (targetX d) (targetY d).

Definition set_combatStats (v : CombatStats) (d : Dwarf) : Dwarf :=
  mkDwarf (name d) (x d) (y d) (gender d) (isAdult d) (personality d) (reproductionStrategy d) (isPregnant d) (pregnancyTimer d) (reproductionCooldown d) (mateSeekingTimer d) (territoryX d) (territoryY d) (guardedFemale d) (age d) (maxLifespan d) (health d) (maxHealth d) (efficiency d) (speed d) v (attackCooldown d) (combatEffectTimer d) (isInCombat d) (combatTarget d) (lastAttacker d) (isDead d) (healthBarVisible d) (targetX d) (targetY d).

Definition set_attackCooldown (v : Q) (d : Dwarf) : Dwarf :=
  mkDwarf (name d) (x d) (y d) (gender d) (isAdult d) (personality d) (reproductionStrategy d) (isPregnant d) (pregnancyTimer d) (reproductionCooldown d) (mateSeekingTimer d) (territoryX d) (territoryY d) (guardedFemale d) (age d) (maxLifespan d) (health d) (maxHealth d) (efficiency d) (speed d) (combatStats d) v (combatEffectTimer d) (isInCombat d) (combatTarget d) (lastAttacker d) (isDead d) (healthBarVisible d) (targetX d) (targetY d).

Definition set_combatEffectTimer (v : Q) (d : Dwarf) : Dwarf :=
  mkDwarf (name d) (x d) (y d) (gender d) (isAdult d) (personality d) (reproductionStrategy d) (isPregnant d) (pregnancyTimer d) (reproductionCooldown d) (mateSeekingTimer d) (territoryX d) (territoryY d) (guardedFemale d) (age d) (maxLifespan d) (health d) (maxHealth d) (efficiency d) (speed d) (combatStats d) (attackCooldown d) v (isInCombat d) (combatTarget d) (lastAttacker d) (isDead d) (healthBarVisible d) (targetX d) (targetY d).

Definition set_isInCombat (v : bool) (d : Dwarf) : Dwarf :=
  mkDwarf (name d) (x d) (y d) (gender d) (isAdult d) (personality d) (reproductionStrategy d) (isPregnant d) (pregnancyTimer d) (reproductionCooldown d) (mateSeekingTimer d) (territoryX d) (territoryY d) (guardedFemale d) (age d) (maxLifespan d) (health d) (maxHealth d) (efficiency d) (speed d) (combatStats d) (attackCooldown d) (combatEffectTimer d) v (combatTarget d) (lastAttacker d) (isDead d) (healthBarVisible d) (targetX d) (targetY d).

Definition set_combatTarget (v : option nat) (d : Dwarf) : Dwarf :=
  mkDwarf (name d) (x d) (y d) (gender d) (isAdult d) (personality d) (reproductionStrategy d) (isPregnant d) (pregnancyTimer d) (reproductionCooldown d) (mateSeekingTimer d) (territoryX d) (territoryY d) (guardedFemale d) (age d) (maxLifespan d) (health d) (maxHealth d) (efficiency d) (speed d) (combatStats d) (attackCooldown d) (combatEffectTimer d) (isInCombat d) v (lastAttacker d) (isDead d) (healthBarVisible d) (targetX d) (targetY d).

Definition set_lastAttacker (v : option nat) (d : Dwarf) : Dwarf :=
  mkDwarf (name d) (x d) (y d) (gender d) (isAdult d) (personality d) (reproductionStrategy d) (isPregnant d) (pregnancyTimer d) (reproductionCooldown d) (mateSeekingTimer d) (territoryX d) (territoryY d) (guardedFemale d) (age d) (maxLifespan d) (health d) (maxHealth d) (efficiency d) (speed d) (combatStats d) (attackCooldown d) (combatEffectTimer d) (isInCombat d) (combatTarget d) v (isDead d) (healthBarVisible d) (targetX d) (targetY d).

Definition set_isDead (v : bool) (d : Dwarf) : Dwarf :=
  mkDwarf (name d) (x d) (y d) (gender d) (isAdult d) (personality d) (reproductionStrategy d) (isPregnant d) (pregnancyTimer d) (reproductionCooldown d) (mateSeekingTimer d) (territoryX d) (territoryY d) (guardedFemale d) (age d) (maxLifespan d) (health d) (maxHealth d) (efficiency d) (speed d) (combatStats d) (attackCooldown d) (combatEffectTimer d) (isInCombat d) (combatTarget d) (lastAttacker d) v (healthBarVisible d) (targetX d) (targetY d).

Definition set_healthBarVisible (v : bool) (d : Dwarf) : Dwarf :=
  mkDwarf (name d) (x d) (y d) (gender d) (isAdult d) (personality d) (reproductionStrategy d) (isPregnant d) (pregnancyTimer d) (reproductionCooldown d) (mateSeekingTimer d) (territoryX d) (territoryY d) (guardedFemale d) (age d) (maxLifespan d) (health d) (maxHealth d) (efficiency d) (speed d) (combatStats d) (attackCooldown d) (combatEffectTimer d) (isInCombat d) (combatTarget d) (lastAttacker d) (isDead d) v (targetX d) (targetY d).

Definition set_targetX (v : Q) (d : Dwarf) : Dwarf :=
  mkDwarf (name d) (x d) (y d) (gender d) (isAdult d) (personality d) (reproductionStrategy d) (isPregnant d) (pregnancyTimer d) (reproductionCooldown d) (mateSeekingTimer d) (territoryX d) (territoryY d) (guardedFemale d) (age d) (maxLifespan d) (health d) (maxHealth d) (efficiency d) (speed d) (combatStats d) (attackCooldown d) (combatEffectTimer d) (isInCombat d) (combatTarget d) (lastAttacker d) (isDead d) (healthBarVisible d) v (targetY d).

Definition set_targetY (v : Q) (d : Dwarf) : Dwarf :=
  mkDwarf (name d) (x d) (y d) (gender d) (isAdult d) (personality d) (reproductionStrategy d) (isPregnant d) (pregnancyTimer d) (reproductionCooldown d) (mateSeekingTimer d) (territoryX d) (territoryY d) (guardedFemale d) (age d) (maxLifespan d) (health d) (maxHealth d) (efficiency d) (speed d) (combatStats d) (attackCooldown d) (combatEffectTimer d) (isInCombat d) (combatTarget d) (lastAttacker d) (isDead d) (healthBarVisible d) (targetX d) v.

Definition default_stats : CombatStats := mkCombatStats 1 1 1 (1#10).

(** An agent with every optional field unset; [nth] falls back on it. *)
Definition default_dwarf : Dwarf :=
  mkDwarf "" 0 0 Male false None None None None None None None None None
    0 0 None 0 0 0 default_stats 0 0 false None None false false 0 0.

(** ** Events published on the reproduction event bus and log lines *)

Inductive Event :=
| EvMatingFailure (male female : string)
| EvMatingAttempt (male female : string) (success : bool)
| EvMatingSuccess (male female : string) (initiatedByFemale : bool)
| EvMateSelected (female male : string)
| EvMateRejected (female male : string)
| EvStrategyAssigned (male : string) (strategy : option Strategy)
| EvReproductionInitialized (dwarf : string)
| EvBirth (mother baby : string) (pregnancyDuration : option Q)
| EvLog (kind : string).

(** Statistics of the lifespan/combat system. *)
Record LCStats := mkLCStats {
  totalDeaths : nat;
  deathsByAge : nat;
  deathsByCombat : nat;
  totalCombats : nat;
  totalDamageDealt : Q
}.

(** The world: the population array [game.dwarfs], the stream of values
    returned by [Math.random()], the event history, the combat statistics,
    the skulls left by the dead and the retaliations scheduled with
    [setTimeout] (attacker, target), which run after the current tick. *)
Record World := mkWorld {
  dwarfs : list Dwarf;
  rng : list Q;
  events : list Event;
  lcstats : LCStats;
  skulls : list (Q * Q);
  pending : list (nat * nat)
}.

Definition set_dwarfs (v : list Dwarf) (w : World) : World :=
  mkWorld v (rng w) (events w) (lcstats w) (skulls w) (pending w).
Definition set_rng (v : list Q) (w : World) : World :=
  mkWorld (dwarfs w) v (events w) (lcstats w) (skulls w) (pending w).
Definition set_events (v : list Event) (w : World) : World :=
  mkWorld (dwarfs w) (rng w) v (lcstats w) (skulls w) (pending w).
Definition set_lcstats (v : LCStats) (w : World) : World :=
  mkWorld (dwarfs w) (rng w) (events w) v (skulls w) (pending w).
Definition set_skulls (v : list (Q * Q)) (w : World) : World :=
  mkWorld (dwarfs w) (rng w) (events w) (lcstats w) v (pending w).
Definition set_pending (v : list (nat * nat)) (w : World) : World :=
  mkWorld (dwarfs w) (rng w) (events w) (lcstats w) (skulls w) v.

Fixpoint update_nth {A : Type} (i : nat) (f : A -> A) (l : list A) : list A :=
  match l, i with
  | [], _ => []
  | a :: l', O => f a :: l'
  | a :: l', S i' => a :: update_nth i' f l'
  end.

(** ** A state monad over the world *)

Definition M (A : Type) : Type := World -> A * World.

Definition ret {A : Type} (a : A) : M A := fun w => (a, w).
Definition bind {A B : Type} (c : M A) (k : A -> M B) : M B :=
  fun w => let (a, w') := c w in k a w'.

Notation "x <- c1 ;; c2" := (bind c1 (fun x => c2))
  (at level 61, c1 at next level, right associativity).
Notation "c1 ;; c2" := (bind c1 (fun _ : unit => c2))
  (at level 61, right associativity).

Definition skip : M unit := ret tt.

(** [Math.random()]: the next value of the stream (an exhausted stream
    yields 0). *)
Definition random : M Q := fun w =>
  match rng w with
  | r :: rs => (r, set_rng rs w)
  | [] => (0, w)
  end.

Definition getD (i : nat) : M Dwarf := fun w => (nth i (dwarfs w) default_dwarf, w).

Definition modifyD (i : nat) (f : Dwarf -> Dwarf) : M unit :=
  fun w => (tt, set_dwarfs (update_nth i f (dwarfs w)) w).

Definition emit (e : Event) : M unit :=
  fun w => (tt, set_events (events w ++ [e]) w).

(** [world.addLog(message, important, type)]: a log line, kept by kind. *)
Definition addLog (kind : string) : M unit := emit (EvLog kind).

(** [world.addDwarf(dwarf)]: push onto the population; returns the index. *)
Definition addDwarf (d : Dwarf) : M nat :=
  fun w => (length (dwarfs w), set_dwarfs (dwarfs w ++ [d]) w).

(** The indices of [world.getAllDwarfs()]. *)
Definition allIndices : M (list nat) := fun w => (seq 0 (length (dwarfs w)), w).

Fixpoint filterM {A : Type} (p : A -> M bool) (l : list A) : M (list A) :=
  match l with
  | [] => ret []
  | a :: l' => b <- p a ;; rest <- filterM p l' ;; ret (if b then a :: rest else rest)
  end.

Fixpoint forEach {A : Type} (f : A -> M unit) (l : list A) : M unit :=
  match l with
  | [] => skip
  | a :: l' => f a ;; forEach f l'
  end.

(** ** LifespanCombatSystem (src/js/LifespanCombatSystem.js) *)

(** The resolved [this.config] of the system. *)
Record LCConfig := mkLCConfig {
  lc_maxLifespan : Q;
  lc_minLifespan : Q;
  lc_maxHealth : Q;
  lc_naturalHealing : Q;
  lc_agingDamage : Q;
  lc_baseDamage : Q;
  lc_damageVariance : Q;
  lc_attackRange : Q;
  lc_attackCooldown : Q;
  lc_criticalChance : Q;
  lc_criticalMultiplier : Q;
  lc_territorialCombatChance : Q;
  lc_randomCombatChance : Q;
  lc_combatEffectDuration : Q
}.

(** [new LifespanCombatSystem()] with every option defaulted. *)
Definition default_lc_config : LCConfig :=
  mkLCConfig 36000 18000 100 (1#10) (5#100) 15 5 20 60 (1#10) (3#2)
    (2#100) (1#1000) 30.

Inductive DeathCause := DiedInCombat | DiedOfAge.

Definition opt_nat_eqb (a b : option nat) : bool :=
  match a, b with
  | Some i, Some j => Nat.eqb i j
  | None, None => true
  | _, _ => false
  end.

(** [!dwarf.health]: [undefined] and [0] are falsy. *)
Definition falsy_num (o : option Q) : bool :=
  match o with Some v => qeq v 0 | None => true end.

Definition opt_lt (o : option Q) (b : Q) : bool :=
  match o with Some v => qlt v b | None => false end.
Definition opt_gt (o : option Q) (b : Q) : bool :=
  match o with Some v => qlt b v | None => false end.

Section Combat.

(** [Math.sqrt]. *)
Variable sqrt : Q -> Q.
Variable cfg : LCConfig.

(** [world.calculateDistance(obj1, obj2)] *)
Definition calculateDistance (a b : Dwarf) : Q :=
  let dx := x a - x b in
  let dy := y a - y b in
  sqrt (dx * dx + dy * dy).

(** [world.getNearbyDwarfs(centerDwarf, radius)]: every other agent at
    distance strictly below [radius], in population order. *)
Definition getNearbyDwarfs (c : nat) (radius : Q) : M (list nat) := fun w =>
  let ds := dwarfs w in
  let cd := nth c ds default_dwarf in
  (filter (fun j => negb (Nat.eqb j c)
                    && qlt (calculateDistance cd (nth j ds default_dwarf)) radius)
          (seq 0 (length ds)), w).

Definition handleAging (i : nat) : M unit :=
  d <- getD i ;;
  let ageRatio := age d / maxLifespan d in
  if qle (7#10) ageRatio then
    let agingFactor := (ageRatio - (7#10)) / (3#10) in
    modifyD i (fun d =>
      set_health (option_map (fun h => h - lc_agingDamage cfg * agingFactor) (health d)) d) ;;
    d <- getD i ;;
    if negb (qeq (efficiency d) 0) then
      modifyD i (fun d =>
        set_efficiency (qmax (3#10) (efficiency d * (1 - agingFactor * (3#10)))) d)
    else skip
  else skip.

Definition handleHealthUpdate (i : nat) : M unit :=
  d <- getD i ;;
  (if opt_lt (health d) (maxHealth d) && negb (isInCombat d)
      && opt_gt (health d) (maxHealth d * (3#10)) then
     modifyD i (fun d =>
       set_health (option_map (fun h => qmin (maxHealth d) (h + lc_naturalHealing cfg))
                              (health d)) d)
   else skip) ;;
  modifyD i (fun d => set_healthBarVisible (opt_lt (health d) (maxHealth d * (9#10))) d).

Definition isTerritorialDispute (d1 d2 : Dwarf) : bool :=
  has_strategy (reproductionStrategy d1) Orange
  && has_strategy (reproductionStrategy d2) Orange
  && gender_eqb (gender d1) Male && gender_eqb (gender d2) Male.

Definition shouldEngageInCombat (a t : nat) : M bool :=
  A <- getD a ;;
  T <- getD t ;;
  if gender_eqb (gender A) (gender T) && negb (isTerritorialDispute A T) then ret false
  else if isTerritorialDispute A T then
    r <- random ;; ret (qlt r (lc_territorialCombatChance cfg))
  else
    r <- random ;;
    if qlt r (lc_randomCombatChance cfg) then
      match personality A with
      | Some p =>
          let aggression := (100 - agreeableness p) + neuroticism p in
          r2 <- random ;; ret (qlt (r2 * 200) aggression)
      | None => ret true
      end
    else ret false.

Definition performAttack (a t : nat) : M unit :=
  A <- getD a ;;
  if qlt 0 (attackCooldown A) then skip else
  r1 <- random ;;
  let baseDamage := lc_baseDamage cfg + r1 * lc_damageVariance cfg in
  T <- getD t ;;
  let damage := baseDamage * cs_attack (combatStats A) / cs_defense (combatStats T) in
  r2 <- random ;;
  let isCritical := qlt r2 (lc_criticalChance cfg + cs_critChance (combatStats A)) in
  let damage := if isCritical then damage * lc_criticalMultiplier cfg else damage in
  let finalDamage := jfloor damage in
  modifyD t (fun d => set_health (option_map (fun h => h - finalDamage) (health d)) d) ;;
  modifyD t (set_lastAttacker (Some a)) ;;
  modifyD a (set_isInCombat true) ;;
  modifyD t (set_isInCombat true) ;;
  modifyD a (set_combatTarget (Some t)) ;;
  modifyD t (set_combatTarget (Some a)) ;;
  modifyD a (fun d => set_attackCooldown (lc_attackCooldown cfg / cs_speed (combatStats d)) d) ;;
  modifyD a (set_combatEffectTimer (lc_combatEffectDuration cfg)) ;;
  modifyD t (set_combatEffectTimer (lc_combatEffectDuration cfg)) ;;
  (fun w => (tt, set_lcstats
     (let s := lcstats w in
      mkLCStats (totalDeaths s) (deathsByAge s) (deathsByCombat s)
        (S (totalCombats s)) (totalDamageDealt s + finalDamage)) w)) ;;
  T <- getD t ;;
  if opt_gt0 (health T) && qeq (attackCooldown T) 0 then
    r3 <- random ;;
    if qlt r3 (7#10) then (fun w => (tt, set_pending (pending w ++ [(t, a)]) w))
    else skip
  else skip.

Definition moveTowardsTarget (a t : nat) : M unit :=
  A <- getD a ;;
  T <- getD t ;;
  let dx := x T - x A in
  let dy := y T - y A in
  let distance := sqrt (dx * dx + dy * dy) in
  if qlt 0 distance then
    let moveSpeed := (if qeq (speed A) 0 then 1 else speed A) * cs_speed (combatStats A) in
    modifyD a (fun d => set_x (x d + dx / distance * moveSpeed) d) ;;
    modifyD a (fun d => set_y (y d + dy / distance * moveSpeed) d) ;;
    modifyD a (set_targetX (x T)) ;;
    modifyD a (set_targetY (y T))
  else skip.

(** The filter of [handleCombatBehavior]: [target.health > 0 &&
    target !== dwarf && this.shouldEngageInCombat(dwarf, target)]. *)
Definition eligibleTargets (i : nat) (nearby : list nat) : M (list nat) :=
  filterM (fun j => T <- getD j ;;
                    if opt_gt0 (health T) && negb (Nat.eqb j i)
                    then shouldEngageInCombat i j else ret false) nearby.

Definition handleCombatBehavior (i : nat) : M unit :=
  d <- getD i ;;
  if negb (isAdult d) || qlt 0 (attackCooldown d) then skip else
  nearby <- getNearbyDwarfs i (lc_attackRange cfg * 2) ;;
  targets <- eligibleTargets i nearby ;;
  match targets with
  | [] => skip
  | t :: _ =>
      d <- getD i ;;
      T <- getD t ;;
      let distance := calculateDistance d T in
      if qle distance (lc_attackRange cfg) then performAttack i t
      else if opt_nat_eqb (combatTarget d) (Some t) then moveTowardsTarget i t
      else skip
  end.

(** Clearing of the combat state of the agents targeting the dead one
    ([world.getAllDwarfs().forEach(...)]). *)
Definition clearTargeting (i : nat) (o : Dwarf) : Dwarf :=
  if opt_nat_eqb (combatTarget o) (Some i)
  then set_isInCombat false (set_combatTarget None o) else o.

Definition handleDeath (i : nat) : M unit :=
  d <- getD i ;;
  let deathCause := if opt_le0 (health d) then DiedInCombat else DiedOfAge in
  (fun w => (tt, set_skulls (skulls w ++ [(x d, y d)]) w)) ;;
  (fun w => (tt, set_lcstats
     (let s := lcstats w in
      match deathCause with
      | DiedOfAge => mkLCStats (S (totalDeaths s)) (S (deathsByAge s)) (deathsByCombat s)
                       (totalCombats s) (totalDamageDealt s)
      | DiedInCombat => mkLCStats (S (totalDeaths s)) (deathsByAge s) (S (deathsByCombat s))
                       (totalCombats s) (totalDamageDealt s)
      end) w)) ;;
  addLog "death" ;;
  (fun w => (tt, set_dwarfs (map (clearTargeting i) (dwarfs w)) w)) ;;
  modifyD i (set_isDead true) ;;
  modifyD i (set_health (Some 0)).

Definition updateDwarf (i : nat) : M unit :=
  d <- getD i ;;
  if falsy_num (health d) || opt_le0 (health d) then skip else
  modifyD i (fun d => set_age (age d + 1) d) ;;
  handleAging i ;;
  handleHealthUpdate i ;;
  modifyD i (fun d => if qlt 0 (attackCooldown d)
                      then set_attackCooldown (attackCooldown d - 1) d else d) ;;
  modifyD i (fun d => if qlt 0 (combatEffectTimer d)
                      then set_combatEffectTimer (combatEffectTimer d - 1) d else d) ;;
  handleCombatBehavior i ;;
  d <- getD i ;;
  if opt_le0 (health d) || qle (maxLifespan d) (age d) then handleDeath i else skip.

(** [update(dwarfs, world)]: every agent not flagged dead, in order. *)
Definition update : M unit :=
  idx <- allIndices ;;
  forEach (fun i => d <- getD i ;; if isDead d then skip else updateDwarf i) idx.

End Combat.

(** ** Reproduction configuration (ReproductionConfig.js) *)

Open Scope string_scope.
Open Scope Q_scope.

(** A property read where the code expects a number: a number, [NaN], or
    [undefined] (the property is missing). Every comparison of [NaN] or
    [undefined] with a number is false, and neither is an integer. *)
Inductive JSNum := JNum (q : Q) | JNaN | JUndefined.

(** [v <= b] *)
Definition js_le (v : JSNum) (b : Q) : bool :=
  match v with JNum q => qle q b | _ => false end.

(** [v < b] *)
Definition js_lt (v : JSNum) (b : Q) : bool :=
  match v with JNum q => qlt q b | _ => false end.

(** [v > b] *)
Definition js_gt (v : JSNum) (b : Q) : bool :=
  match v with JNum q => qlt b q | _ => false end.

(** [Number.isInteger(v)] *)
Definition js_isInteger (v : JSNum) : bool :=
  match v with JNum q => isInteger q | _ => false end.

(** [typeof v === 'number'] ([typeof NaN] is ['number']). *)
Definition js_is_number (v : JSNum) : bool :=
  match v with JUndefined => false | _ => true end.

(** One strategy block. Every check of a numeric property starts with
    [typeof v !== 'number'], so a property that is missing or of another
    type is [JUndefined]; a colour that is missing or not a string is
    [None]. *)
Record StrategyConfig := mkStrategyConfig {
  sc_cooldown : JSNum;
  sc_matingChance : JSNum;
  sc_color : option string;
  sc_territoryRadius : JSNum;
  sc_matingDistance : JSNum;
  sc_competitorDistance : JSNum;
  sc_displacementChance : JSNum;
  sc_guardDistance : JSNum;
  sc_maxGuardRange : JSNum;
  sc_guardDetectionRadius : JSNum;
  sc_hidingRange : JSNum
}.

Record FemaleSelectionConfig := mkFemaleSelectionConfig {
  baseScore : Q;
  randomVariance : Q;
  evaluationChance : Q;
  proximityRadius : Q;
  agreeableness_threshold : option Q;
  agreeableness_blueBonus : Q;
  agreeableness_orangePenalty : Q;
  openness_threshold : option Q;
  openness_yellowBonus : Q;
  neuroticism_threshold : option Q;
  neuroticism_orangeBonus : Q
}.

Record ReproConfig := mkReproConfig {
  MATING_SUCCESS_RATE : Q;
  PREGNANCY_DURATION : Q;
  MATURITY_THRESHOLD : Q;
  FEMALE_REPRODUCTION_COOLDOWN : Q;
  MALE_REPRODUCTION_COOLDOWN : Q;
  (** [None] when [MALE_STRATEGIES] is not an array. *)
  MALE_STRATEGIES : option (list Strategy);
  ORANGE_STRATEGY : option StrategyConfig;
  BLUE_STRATEGY : option StrategyConfig;
  YELLOW_STRATEGY : option StrategyConfig;
  FEMALE_SELECTION : FemaleSelectionConfig;
  babySpawnRadius : Q
}.

Definition REPRODUCTION_CONFIG : ReproConfig := {|
  MATING_SUCCESS_RATE := 7#10;
  PREGNANCY_DURATION := 3600;
  MATURITY_THRESHOLD := 1800;
  FEMALE_REPRODUCTION_COOLDOWN := 7200;
  MALE_REPRODUCTION_COOLDOWN := 3600;
  MALE_STRATEGIES := Some [Orange; Blue; Yellow];
  ORANGE_STRATEGY := Some {| sc_cooldown := JNum 300; sc_matingChance := JNum (2#100);
      sc_color := Some "#FF6600"%string; sc_territoryRadius := JNum 80; sc_matingDistance := JNum 25;
      sc_competitorDistance := JNum 60; sc_displacementChance := JNum (1#10);
      sc_guardDistance := JUndefined; sc_maxGuardRange := JUndefined;
      sc_guardDetectionRadius := JUndefined; sc_hidingRange := JUndefined |};
  BLUE_STRATEGY := Some {| sc_cooldown := JNum 240; sc_matingChance := JNum (15#1000);
      sc_color := Some "#0066FF"%string; sc_territoryRadius := JUndefined; sc_matingDistance := JUndefined;
      sc_competitorDistance := JUndefined; sc_displacementChance := JUndefined;
      sc_guardDistance := JNum 30; sc_maxGuardRange := JNum 40;
      sc_guardDetectionRadius := JUndefined; sc_hidingRange := JUndefined |};
  YELLOW_STRATEGY := Some {| sc_cooldown := JNum 180; sc_matingChance := JNum (25#1000);
      sc_color := Some "#FFFF00"%string; sc_territoryRadius := JUndefined; sc_matingDistance := JNum 35;
      sc_competitorDistance := JUndefined; sc_displacementChance := JUndefined;
      sc_guardDistance := JUndefined; sc_maxGuardRange := JUndefined;
      sc_guardDetectionRadius := JNum 50; sc_hidingRange := JNum 100 |};
  FEMALE_SELECTION := {| baseScore := 50; randomVariance := 20; evaluationChance := 8#1000;
      proximityRadius := 40;
      agreeableness_threshold := Some 60; agreeableness_blueBonus := 30;
      agreeableness_orangePenalty := -10;
      openness_threshold := Some 70; openness_yellowBonus := 20;
      neuroticism_threshold := Some 40; neuroticism_orangeBonus := 25 |};
  babySpawnRadius := 40
|}.

(** [/^#[0-9A-Fa-f]{6}$/.test(color)] *)
Definition is_hex_digit (c : Ascii.ascii) : bool :=
  let n := Ascii.nat_of_ascii c in
  (Nat.leb 48 n && Nat.leb n 57) || (Nat.leb 65 n && Nat.leb n 70)
  || (Nat.leb 97 n && Nat.leb n 102).

Fixpoint all_hex (s : string) : bool :=
  match s with
  | EmptyString => true
  | String c s' => is_hex_digit c && all_hex s'
  end.

Definition is_hex_color (s : string) : bool :=
  match s with
  | String c rest => Ascii.eqb c (Ascii.ascii_of_nat 35) && Nat.eqb (String.length rest) 6 && all_hex rest
  | EmptyString => false
  end.

(** [typeof v !== 'number' || v <= 0] *)
Definition not_positive_number (v : JSNum) : bool :=
  negb (js_is_number v) || js_le v 0.

(** The first failing check of a list, as the [Error] it throws. *)
Fixpoint first_error (checks : list (bool * string)) : option string :=
  match checks with
  | [] => None
  | (bad, msg) :: rest => if bad then Some msg else first_error rest
  end.

Definition strategy_label (s : Strategy) : string :=
  match s with
  | Orange => "ORANGE_STRATEGY"
  | Blue => "BLUE_STRATEGY"
  | Yellow => "YELLOW_STRATEGY"
  end.

(** [validateStrategyConfig(strategyConfig, strategyName)]: [Some msg] when
    it throws [new Error(msg)]. *)
Definition validateStrategyConfig (osc : option StrategyConfig) (nm : Strategy) : option string :=
  let label := strategy_label nm in
  match osc with
  | None => Some ("Invalid " ++ label ++ ": must be configuration object.")
  | Some sc =>
      first_error (app
        [(not_positive_number (sc_cooldown sc), "Invalid " ++ label ++ ".cooldown. Must be positive number.");
         (not_positive_number (sc_matingChance sc), "Invalid " ++ label ++ ".matingChance. Must be positive number.");
         (js_gt (sc_matingChance sc) 1, "Invalid " ++ label ++ ".matingChance. Must be probability (0-1).");
         (match sc_color sc with Some c => negb (is_hex_color c) | None => true end,
          "Invalid " ++ label ++ ".color. Must be valid hex color.")]
        (map (fun p => (not_positive_number (fst p), "Invalid " ++ label ++ "." ++ snd p ++ ". Must be positive number."))
             (match nm with
              | Orange => [(sc_territoryRadius sc, "territoryRadius"); (sc_matingDistance sc, "matingDistance");
                           (sc_competitorDistance sc, "competitorDistance");
                           (sc_displacementChance sc, "displacementChance")]
              | Blue => [(sc_guardDistance sc, "guardDistance"); (sc_maxGuardRange sc, "maxGuardRange")]
              | Yellow => [(sc_matingDistance sc, "matingDistance");
                           (sc_guardDetectionRadius sc, "guardDetectionRadius");
                           (sc_hidingRange sc, "hidingRange")]
              end)))
  end.

(** [cooldown <= 0 || !Number.isInteger(cooldown)] *)
Definition bad_positive_integer (v : JSNum) : bool := js_le v 0 || negb (js_isInteger v).

Definition includes_strategy (l : list Strategy) (s : Strategy) : bool :=
  existsb (strategy_eqb s) l.

(** [!traitConfig || typeof traitConfig.threshold !== 'number'], then
    [threshold < 0 || threshold > 100]; a missing trait block is a
    [JUndefined] threshold. *)
Definition bad_threshold (t : JSNum) : option string :=
  if negb (js_is_number t) then Some "threshold configuration."%string
  else if js_lt t 0 || js_gt t 100 then Some "threshold. Must be between 0 and 100."%string
  else None.

(** The first error thrown by a sequence of checks. *)
Definition orelse {A : Type} (a b : option A) : option A :=
  match a with Some _ => a | None => b end.
Infix "<|>" := orelse (at level 50, left associativity).

(** The configuration object as [validateConfig] reads it: any of its
    numeric properties may be missing or [NaN]. [ReproConfig] is the view
    of the simulation, which reads those properties as numbers; [of_config]
    embeds it. *)
Module JSConfig.

Record FemaleSelection := mkFemaleSelection {
  baseScore : JSNum;
  randomVariance : JSNum;
  evaluationChance : JSNum;
  (** [femaleConfig[trait].threshold]; [JUndefined] when the trait block
      is missing or its threshold is not of type ['number']. *)
  agreeableness_threshold : JSNum;
  openness_threshold : JSNum;
  neuroticism_threshold : JSNum
}.

Record t := mk {
  MATING_SUCCESS_RATE : JSNum;
  PREGNANCY_DURATION : JSNum;
  MATURITY_THRESHOLD : JSNum;
  FEMALE_REPRODUCTION_COOLDOWN : JSNum;
  MALE_REPRODUCTION_COOLDOWN : JSNum;
  MALE_STRATEGIES : option (list Strategy);
  ORANGE_STRATEGY : option StrategyConfig;
  BLUE_STRATEGY : option StrategyConfig;
  YELLOW_STRATEGY : option StrategyConfig;
  FEMALE_SELECTION : FemaleSelection
}.

End JSConfig.

Definition js_of_option (o : option Q) : JSNum :=
  match o with Some q => JNum q | None => JUndefined end.

Definition of_config (c : ReproConfig) : JSConfig.t :=
  let fc := FEMALE_SELECTION c in
  JSConfig.mk (JNum (MATING_SUCCESS_RATE c)) (JNum (PREGNANCY_DURATION c))
    (JNum (MATURITY_THRESHOLD c)) (JNum (FEMALE_REPRODUCTION_COOLDOWN c))
    (JNum (MALE_REPRODUCTION_COOLDOWN c)) (MALE_STRATEGIES c)
    (ORANGE_STRATEGY c) (BLUE_STRATEGY c) (YELLOW_STRATEGY c)
    (JSConfig.mkFemaleSelection (JNum (baseScore fc)) (JNum (randomVariance fc))
       (JNum (evaluationChance fc)) (js_of_option (agreeableness_threshold fc))
       (js_of_option (openness_threshold fc)) (js_of_option (neuroticism_threshold fc))).

(** [validateConfig(config)] *)
Definition validateConfig (c : JSConfig.t) : option string :=
  let fc := JSConfig.FEMALE_SELECTION c in
  first_error
    [(js_le (JSConfig.MATING_SUCCESS_RATE c) 0 || js_gt (JSConfig.MATING_SUCCESS_RATE c) 1,
      "Invalid MATING_SUCCESS_RATE. Must be between 0 and 1.");
     (bad_positive_integer (JSConfig.PREGNANCY_DURATION c), "Invalid PREGNANCY_DURATION. Must be positive integer.");
     (bad_positive_integer (JSConfig.MATURITY_THRESHOLD c), "Invalid MATURITY_THRESHOLD. Must be positive integer.");
     (bad_positive_integer (JSConfig.FEMALE_REPRODUCTION_COOLDOWN c), "Invalid cooldown at index 0. Must be positive integer.");
     (bad_positive_integer (JSConfig.MALE_REPRODUCTION_COOLDOWN c), "Invalid cooldown at index 1. Must be positive integer.");
     (match JSConfig.MALE_STRATEGIES c with Some l => negb (Nat.eqb (length l) 3) | None => true end,
      "Invalid MALE_STRATEGIES: must be array of exactly 3 strategies.")]%string
  <|> (match JSConfig.MALE_STRATEGIES c with
       | Some l => first_error
           [(negb (includes_strategy l Orange), "Missing required strategy: orange");
            (negb (includes_strategy l Blue), "Missing required strategy: blue");
            (negb (includes_strategy l Yellow), "Missing required strategy: yellow")]%string
       | None => None
       end)
  <|> validateStrategyConfig (JSConfig.ORANGE_STRATEGY c) Orange
  <|> validateStrategyConfig (JSConfig.BLUE_STRATEGY c) Blue
  <|> validateStrategyConfig (JSConfig.YELLOW_STRATEGY c) Yellow
  <|> first_error
    [(js_le (JSConfig.baseScore fc) 0, "Invalid FEMALE_SELECTION.baseScore. Must be positive.");
     (js_lt (JSConfig.randomVariance fc) 0, "Invalid FEMALE_SELECTION.randomVariance. Must be non-negative.");
     (js_le (JSConfig.evaluationChance fc) 0 || js_gt (JSConfig.evaluationChance fc) 1,
      "Invalid FEMALE_SELECTION.evaluationChance. Must be between 0 and 1.")]%string
  <|> option_map (fun m => "Invalid FEMALE_SELECTION.agreeableness." ++ m)%string
        (bad_threshold (JSConfig.agreeableness_threshold fc))
  <|> option_map (fun m => "Invalid FEMALE_SELECTION.openness." ++ m)%string
        (bad_threshold (JSConfig.openness_threshold fc))
  <|> option_map (fun m => "Invalid FEMALE_SELECTION.neuroticism." ++ m)%string
        (bad_threshold (JSConfig.neuroticism_threshold fc)).

(** ** Mating attempts *)

Section Reproduction.

Variable config : ReproConfig.

(** [BaseStrategy.attemptMating(male, female)] (the distance it computes
    only decorates the attempt event and is not modelled). *)
Definition attemptMating (m f : nat) : M bool :=
  M_ <- getD m ;;
  F <- getD f ;;
  if opt_gt0 (reproductionCooldown F) || truthy_b (isPregnant F) then
    emit (EvMatingFailure (name M_) (name F)) ;; ret false
  else
    r <- random ;;
    let success := qlt r (MATING_SUCCESS_RATE config) in
    emit (EvMatingAttempt (name M_) (name F) success) ;;
    if success then
      modifyD f (set_isPregnant (Some true)) ;;
      modifyD f (set_pregnancyTimer (Some 0)) ;;
      modifyD f (set_reproductionCooldown (Some (FEMALE_REPRODUCTION_COOLDOWN config))) ;;
      modifyD m (set_reproductionCooldown (Some (MALE_REPRODUCTION_COOLDOWN config))) ;;
      addLog "expecting" ;;
      emit (EvMatingSuccess (name M_) (name F) false) ;;
      ret true
    else ret false.

(** [FemaleSelection.attemptMatingWithFemale(male, female)] *)
Definition attemptMatingWithFemale (m f : nat) : M bool :=
  F <- getD f ;;
  if opt_gt0 (reproductionCooldown F) || truthy_b (isPregnant F) then ret false
  else
    r <- random ;;
    let success := qlt r (MATING_SUCCESS_RATE config) in
    if success then
      modifyD f (set_isPregnant (Some true)) ;;
      modifyD f (set_pregnancyTimer (Some 0)) ;;
      modifyD f (set_reproductionCooldown (Some (FEMALE_REPRODUCTION_COOLDOWN config))) ;;
      modifyD m (set_reproductionCooldown (Some (MALE_REPRODUCTION_COOLDOWN config))) ;;
      addLog "expecting" ;;
      M_ <- getD m ;;
      F <- getD f ;;
      emit (EvMatingSuccess (name M_) (name F) true) ;;
      ret true
    else ret false.

(** [FemaleSelection.acceptMating(female, male)] *)
Definition acceptMating (f m : nat) : M bool :=
  success <- attemptMatingWithFemale m f ;;
  F <- getD f ;;
  M_ <- getD m ;;
  (if success then emit (EvMateSelected (name F) (name M_))
   else emit (EvMateRejected (name F) (name M_))) ;;
  ret success.

(** ** Female mate scoring *)

(** [p > threshold] with a threshold that may be absent. *)
Definition above (v : Q) (t : option Q) : bool :=
  match t with Some t => qlt t v | None => false end.
Definition below (v : Q) (t : option Q) : bool :=
  match t with Some t => qlt v t | None => false end.

(** [FemaleSelection.scoreMate(female, male)], with [r] the value of
    [Math.random()] it draws. *)
Definition scoreMate (p : Personality) (s : option Strategy) (r : Q) : Q :=
  let fc := FEMALE_SELECTION config in
  let score := baseScore fc in
  let score :=
    if above (agreeableness p) (agreeableness_threshold fc) then
      let score := if has_strategy s Blue then score + agreeableness_blueBonus fc else score in
      if has_strategy s Orange then score + agreeableness_orangePenalty fc else score
    else score in
  let score :=
    if above (openness p) (openness_threshold fc) then
      if has_strategy s Yellow then score + openness_yellowBonus fc else score
    else score in
  let score :=
    if below (neuroticism p) (neuroticism_threshold fc) then
      if has_strategy s Orange then score + neuroticism_orangeBonus fc else score
    else score in
  score + r * randomVariance fc.

(** ** Strategy assignment and reproductive initialisation *)

(** [strategies[Math.floor(r * strategies.length)]] *)
Definition pick {A : Type} (l : list A) (r : Q) : option A :=
  let k := Qfloor (r * inject_Z (Z.of_nat (length l))) in
  if (k <? 0)%Z then None else nth_error l (Z.to_nat k).

(** [StrategyFactory.initializeStrategyProperties(male)] *)
Definition initializeStrategyProperties (d : Dwarf) : Dwarf :=
  match reproductionStrategy d with
  | Some Orange =>
      let d := match territoryX d with None => set_territoryX (Some (x d)) d | Some _ => d end in
      match territoryY d with None => set_territoryY (Some (y d)) d | Some _ => d end
  | Some Blue =>
      match guardedFemale d with None => set_guardedFemale (Some None) d | Some _ => d end
  | _ => d
  end.

(** [StrategyFactory.assignRandomStrategy(male)] on the agent object. *)
Definition assignRandomStrategy (d : Dwarf) : M Dwarf :=
  if negb (gender_eqb (gender d) Male) then ret d else
  r <- random ;;
  let selected := match MALE_STRATEGIES config with
                  | Some l => pick l r
                  | None => None
                  end in
  let d := initializeStrategyProperties (set_reproductionStrategy selected d) in
  emit (EvStrategyAssigned (name d) selected) ;;
  ret d.

(** [ReproductionSystem.initializeReproductionTraits(dwarf)] on the agent
    object; it returns the object as mutated. *)
Definition initializeReproductionTraits (d : Dwarf) : M Dwarf :=
  d <- (if gender_eqb (gender d) Male then assignRandomStrategy d else ret d) ;;
  let d := match isPregnant d with None => set_isPregnant (Some false) d | Some _ => d end in
  let d := match pregnancyTimer d with None => set_pregnancyTimer (Some 0) d | Some _ => d end in
  let d := match reproductionCooldown d with
           | None => set_reproductionCooldown (Some 0) d | Some _ => d end in
  let d := match mateSeekingTimer d with
           | None => set_mateSeekingTimer (Some 0) d | Some _ => d end in
  emit (EvReproductionInitialized (name d)) ;;
  ret d.

(** The hook applied to the agent at index [i] of the population. *)
Definition initializeReproductionTraitsAt (i : nat) : M unit :=
  d <- getD i ;;
  d' <- initializeReproductionTraits d ;;
  modifyD i (fun _ => d').

(** ** Pregnancy manager *)

(** Modelled from the spec: the [Dwarf] constructor behind
    [world.createDwarf(x, y, name, isAdult)] lives in the game page, outside
    the repository's modules.  Following the spec ("createAgent(x, y, name?,
    isAdult)"; reproductive and vitality state are initialised lazily by
    their subsystems), it builds an agent at [(x, y)] with the given
    adulthood and every reproductive field unset; its name and sex are the
    constructor's own choices, passed in as [nm] and [g]. *)
Definition createDwarf (px py : Q) (nm : string) (g : Gender) (adult : bool) : Dwarf :=
  mkDwarf nm px py g adult None None None None None None None None None
    0 0 None 0 0 0 default_stats 0 0 false None None false false 0 0.

(** [PregnancyManager.giveBirth(mother)]; [nm] and [g] are the name and sex
    the constructor gives the baby. *)
Definition giveBirth (nm : string) (g : Gender) (m : nat) : M unit :=
  mother <- getD m ;;
  if negb (truthy_b (isPregnant mother)) then skip else
  modifyD m (set_isPregnant (Some false)) ;;
  modifyD m (set_pregnancyTimer (Some 0)) ;;
  modifyD m (set_reproductionCooldown (Some (FEMALE_REPRODUCTION_COOLDOWN config))) ;;
  mother <- getD m ;;
  let offsetRange := babySpawnRadius config in
  r1 <- random ;;
  let babyX := x mother + r1 * offsetRange - offsetRange / 2 in
  r2 <- random ;;
  let babyY := y mother + r2 * offsetRange - offsetRange / 2 in
  baby <- initializeReproductionTraits (createDwarf babyX babyY nm g false) ;;
  _ <- addDwarf baby ;;
  addLog "birth" ;;
  mother <- getD m ;;
  emit (EvBirth (name mother) (name baby) (pregnancyTimer mother)).

(** [female.pregnancyTimer++] ([None] stays without a number). *)
Definition incr_timer (o : option Q) : option Q := option_map (fun t => t + 1) o.

(** [PregnancyManager.updatePregnancy(female)] (the [pregnantFemales] set
    only tracks membership and is not modelled). *)
Definition updatePregnancy (nm : string) (g : Gender) (f : nat) : M unit :=
  F <- getD f ;;
  if negb (truthy_b (isPregnant F)) then skip else
  modifyD f (fun d => set_pregnancyTimer (incr_timer (pregnancyTimer d)) d) ;;
  F <- getD f ;;
  match pregnancyTimer F with
  | Some t => if qle (PREGNANCY_DURATION config) t then giveBirth nm g f else skip
  | None => skip
  end.

End Reproduction.

(** ** The reproduction event bus (ReproductionEventBus.js) *)

Module EventBus.

Record Listener := mkListener {
  callback : nat;   (** the identity of the callback function *)
  once : bool;
  priority : Z
}.

Section Bus.

(** The payload type of events. *)
Variable Data : Type.

Record Bus := mkBus {
  listeners : list (string * list Listener);   (** the [Map] in insertion order *)
  eventHistory : list (string * Data);
  maxHistorySize : nat;
  debugMode : bool
}.

(** A JavaScript call on the bus either returns or throws; when it throws,
    the mutations it made before throwing are kept. *)
Inductive Outcome (A : Type) :=
| Returned (a : A)
| Raised (b : Bus) (err : string).
Arguments Returned {A} a.
Arguments Raised {A} b err.

Definition bindO {A B : Type} (o : Outcome A) (k : A -> Outcome B) : Outcome B :=
  match o with
  | Returned a => k a
  | Raised b e => Raised b e
  end.

(** [try { ... } catch (error) { ... }] whose handler continues with the
    state left by the throwing code. *)
Definition catchO {A : Type} (o : Outcome A) (h : Bus -> string -> A) : Outcome A :=
  match o with
  | Returned a => Returned a
  | Raised b e => Returned (h b e)
  end.

(** The behaviour of each subscribed callback, by identity: it receives the
    event object and the bus, and returns or throws. *)
Variable run : nat -> (string * Data) -> Bus -> Outcome Bus.

Fixpoint lookup {A : Type} (m : list (string * A)) (k : string) : option A :=
  match m with
  | [] => None
  | (k', v) :: m' => if String.eqb k k' then Some v else lookup m' k
  end.

(** [Map.prototype.set]: an existing key keeps its position. *)
Fixpoint map_set {A : Type} (m : list (string * A)) (k : string) (v : A) : list (string * A) :=
  match m with
  | [] => [(k, v)]
  | (k', v') :: m' => if String.eqb k k' then (k', v) :: m' else (k', v') :: map_set m' k v
  end.

Fixpoint map_delete {A : Type} (m : list (string * A)) (k : string) : list (string * A) :=
  match m with
  | [] => []
  | (k', v') :: m' => if String.eqb k k' then m' else (k', v') :: map_delete m' k
  end.

Definition set_listeners (l : list (string * list Listener)) (b : Bus) : Bus :=
  mkBus l (eventHistory b) (maxHistorySize b) (debugMode b).

(** [listeners.splice(listeners.findIndex(l => l.callback === cb), 1)] *)
Fixpoint remove_first (cb : nat) (ls : list Listener) : list Listener :=
  match ls with
  | [] => []
  | l :: ls' => if Nat.eqb (callback l) cb then ls' else l :: remove_first cb ls'
  end.

(** Stable sort by decreasing priority ([Array.prototype.sort] is stable). *)
Fixpoint insert_by_priority (l : Listener) (ls : list Listener) : list Listener :=
  match ls with
  | [] => [l]
  | l' :: ls' => if (priority l' <? priority l)%Z then l :: ls
                 else l' :: insert_by_priority l ls'
  end.
Definition sort_by_priority (ls : list Listener) : list Listener :=
  fold_left (fun acc l => insert_by_priority l acc) ls [].

Definition subscribe (ty : string) (cb : nat) (once_ : bool) (prio : Z) (b : Bus) : Bus :=
  let ls := match lookup (listeners b) ty with Some ls => ls | None => [] end in
  set_listeners (map_set (listeners b) ty
                   (sort_by_priority (app ls [mkListener cb once_ prio]))) b.

Definition unsubscribe (ty : string) (cb : nat) (b : Bus) : Bus :=
  match lookup (listeners b) ty with
  | None => b
  | Some ls =>
      let ls' := remove_first cb ls in
      match ls' with
      | [] => set_listeners (map_delete (listeners b) ty) b
      | _ => set_listeners (map_set (listeners b) ty ls') b
      end
  end.

Definition addToHistory (e : string * Data) (b : Bus) : Bus :=
  let h := app (eventHistory b) [e] in
  let h := if Nat.ltb (maxHistorySize b) (length h) then tl h else h in
  mkBus (listeners b) h (maxHistorySize b) (debugMode b).

(** The delivery loop over the copy of the listener array; it returns the
    final bus and the identities of the callbacks it invoked, in order. *)
Fixpoint deliver (ty : string) (ev : string * Data) (ls : list Listener) (b : Bus)
  : Outcome (Bus * list nat) :=
  match ls with
  | [] => Returned (b, [])
  | l :: rest =>
      bindO (catchO (bindO (run (callback l) ev b)
                       (fun b' => Returned (if once l then unsubscribe ty (callback l) b' else b')))
                    (fun b' _ => b'))
        (fun b' => bindO (deliver ty ev rest b')
                     (fun r => Returned (fst r, callback l :: snd r)))
  end.

(** [emit(eventType, eventData)] *)
Definition emit (ty : string) (data : Data) (b : Bus) : Outcome (Bus * list nat) :=
  let ev := (ty, data) in
  let b := addToHistory ev b in
  match lookup (listeners b) ty with
  | None => Returned (b, [])
  | Some ls => deliver ty ev ls b
  end.

End Bus.

End EventBus.

(** ** Sample means and concrete inputs *)

Definition qsum (l : list Q) : Q := fold_right Qplus 0 l.

(** The sample mean of a list of scores. *)
Definition mean (l : list Q) : Q := qsum l / inject_Z (Z.of_nat (length l)).

(** A [Math.sqrt] that is exact on perfect squares, to run examples. *)
Definition qsqrt (q : Q) : Q := Z.sqrt (Qnum q * Zpos (Qden q)) # Qden q.

(** A live adult agent with every field set, for concrete inputs. *)
Definition agent (nm : string) (g : Gender) (px py : Q) : Dwarf :=
  mkDwarf nm px py g true None None (Some false) (Some 0) (Some 0) (Some 0) None None None
    0 36000 (Some 100) 100 0 0 default_stats 0 0 false None None false false 0 0.

Definition world_of (ds : list Dwarf) (rs : list Q) : World :=
  mkWorld ds rs [] (mkLCStats 0 0 0 0 0) [] [].

(** A male and an available female ten units apart; the success roll
    draws 0.9. *)
Definition mating_world : World :=
  world_of [agent "M" Male 0 0; agent "F" Female 10 0] [9#10].

(** The strategy block of a configuration object, by strategy. *)
Definition strategy_block (c : JSConfig.t) (s : Strategy) : option StrategyConfig :=
  match s with
  | Orange => JSConfig.ORANGE_STRATEGY c
  | Blue => JSConfig.BLUE_STRATEGY c
  | Yellow => JSConfig.YELLOW_STRATEGY c
  end.

Definition with_rate (r : JSNum) (c : JSConfig.t) : JSConfig.t :=
  JSConfig.mk r (JSConfig.PREGNANCY_DURATION c) (JSConfig.MATURITY_THRESHOLD c)
    (JSConfig.FEMALE_REPRODUCTION_COOLDOWN c) (JSConfig.MALE_REPRODUCTION_COOLDOWN c)
    (JSConfig.MALE_STRATEGIES c) (JSConfig.ORANGE_STRATEGY c) (JSConfig.BLUE_STRATEGY c)
    (JSConfig.YELLOW_STRATEGY c) (JSConfig.FEMALE_SELECTION c).

Definition with_orange (osc : option StrategyConfig) (c : JSConfig.t) : JSConfig.t :=
  JSConfig.mk (JSConfig.MATING_SUCCESS_RATE c) (JSConfig.PREGNANCY_DURATION c)
    (JSConfig.MATURITY_THRESHOLD c) (JSConfig.FEMALE_REPRODUCTION_COOLDOWN c)
    (JSConfig.MALE_REPRODUCTION_COOLDOWN c) (JSConfig.MALE_STRATEGIES c)
    osc (JSConfig.BLUE_STRATEGY c) (JSConfig.YELLOW_STRATEGY c) (JSConfig.FEMALE_SELECTION c).

Definition with_matingChance (v : JSNum) (sc : StrategyConfig) : StrategyConfig :=
  mkStrategyConfig (sc_cooldown sc) v (sc_color sc) (sc_territoryRadius sc)
    (sc_matingDistance sc) (sc_competitorDistance sc) (sc_displacementChance sc)
    (sc_guardDistance sc) (sc_maxGuardRange sc) (sc_guardDetectionRadius sc) (sc_hidingRange sc).

(** An agent whose health is already zero, with a combatant targeting it. *)
Definition spent_world : World :=
  world_of [set_health (Some 0) (agent "A" Male 0 0);
            set_combatTarget (Some 0%nat) (agent "B" Male 5 0)] [1#2].

(** A female one tick before term; the offset rolls draw 0.5 and 0.25. *)
Definition term_world : World :=
  world_of [agent "M" Male 0 0;
            set_pregnancyTimer (Some 3599) (set_isPregnant (Some true) (agent "F" Female 100 100))]
           [1#2; 1#4].

(** A territorial male as restored from a save: strategy and territory
    already set. *)
Definition restored_male : Dwarf :=
  set_territoryY (Some 0) (set_territoryX (Some 0)
    (set_reproductionStrategy (Some Orange) (agent "M" Male 0 0))).

(** Agent 1 is a child one tick before the end of its lifespan; agent 0
    (cooling down between attacks) targets it, was last attacked by it and
    guards it. *)
Definition aged_world : World :=
  world_of [set_attackCooldown 30 (set_guardedFemale (Some (Some 1%nat))
              (set_lastAttacker (Some 1%nat) (set_isInCombat true
              (set_combatTarget (Some 1%nat) (agent "M" Male 0 0)))));
            set_age 35999 (set_isAdult false (agent "F" Female 10 0))] [].

(** A territorial adult male. *)
Definition territorial (nm : string) (px py : Q) : Dwarf :=
  set_reproductionStrategy (Some Orange) (agent nm Male px py).

(** Agent 0 has two territorial rivals within the attack range; the one
    listed first is the farther. *)
Definition near_world : World :=
  world_of [territorial "A" 0 0; territorial "B" 18 0; territorial "C" (-5) 0] [0; 0; 0; 0; 0].

(** The shipped configuration without [MATING_SUCCESS_RATE], and with the
    territorial [matingChance] set to [NaN]. *)
Definition config_without_rate : JSConfig.t :=
  with_rate JUndefined (of_config REPRODUCTION_CONFIG).
Definition config_nan_chance : JSConfig.t :=
  with_orange (option_map (with_matingChance JNaN) (ORANGE_STRATEGY REPRODUCTION_CONFIG))
    (of_config REPRODUCTION_CONFIG).

(** ** Further queries of the event bus (ReproductionEventBus.js) *)

(** [getEventHistory(eventType, limit)]: [None] is [null]; an empty type
    string is falsy and filters nothing; a limit, taken as a non-negative
    integer, is applied by [slice(-limit)] only when it is positive. *)
Definition getEventHistory {Data : Type} (ety : option string) (limit : option nat)
    (b : EventBus.Bus Data) : list (string * Data) :=
  let h := EventBus.eventHistory Data b in
  let h := match ety with
           | Some t => if String.eqb t "" then h
                       else filter (fun e => String.eqb (fst e) t) h
           | None => h
           end in
  match limit with
  | Some (S _ as n) => skipn (length h - n) h
  | _ => h
  end.

(** [clearHistory()] *)
Definition clearHistory {Data : Type} (b : EventBus.Bus Data) : EventBus.Bus Data :=
  EventBus.mkBus Data (EventBus.listeners Data b) [] (EventBus.maxHistorySize Data b)
    (EventBus.debugMode Data b).

(** Listener arrays in the order [subscribe] keeps them: non-increasing
    priority. *)
Fixpoint prio_sorted (ls : list EventBus.Listener) : Prop :=
  match ls with
  | a :: ((b :: _) as r) => (EventBus.priority b <= EventBus.priority a)%Z /\ prio_sorted r
  | _ => True
  end.

(** ** Visual effects of the lifespan/combat system *)

(** [arr.splice(i, 1)] *)
Definition remove_at {A : Type} (i : nat) (l : list A) : list A :=
  app (firstn i l) (skipn (S i) l).

(** The loop [for (let i = arr.length - 1; i >= 0; i--)] of the update
    functions below: the element at [i] is advanced in place by [step] and
    spliced out when [expired] holds of it; [sweep_from step expired n l]
    runs the iterations [n - 1] down to [0]. *)
Fixpoint sweep_from {A : Type} (step : A -> A) (expired : A -> bool) (n : nat) (l : list A)
  : list A :=
  match n with
  | O => l
  | S i =>
      match nth_error l i with
      | Some a =>
          let a := step a in
          sweep_from step expired i
            (if expired a then remove_at i l else update_nth i (fun _ => a) l)
      | None => sweep_from step expired i l
      end
  end.

Definition sweep {A : Type} (step : A -> A) (expired : A -> bool) (l : list A) : list A :=
  sweep_from step expired (length l) l.

(** A skull object of [this.skulls]. *)
Record Skull := mkSkull {
  sk_x : Q;
  sk_y : Q;
  sk_name : string;
  sk_age : Q;
  sk_maxAge : Q;
  sk_opacity : Q
}.

(** [createSkull(dwarf)]: the object it pushes. *)
Definition createSkull (d : Dwarf) : Skull :=
  mkSkull (x d) (y d) (name d ++ "'s remains") 0 18000 1.

(** The body of the [updateSkulls] loop: [skull.age++] and the fade. *)
Definition age_skull (s : Skull) : Skull :=
  let a := sk_age s + 1 in
  mkSkull (sk_x s) (sk_y s) (sk_name s) a (sk_maxAge s) (qmax 0 (1 - a / sk_maxAge s)).

Definition skull_expired (s : Skull) : bool := qle (sk_maxAge s) (sk_age s).

(** [updateSkulls()] on [this.skulls]. *)
Definition updateSkulls (ss : list Skull) : list Skull := sweep age_skull skull_expired ss.

(** A combat effect ([type: 'melee']) or a death effect (with the name of
    the dead): only the timer is updated. *)
Record Effect := mkEffect {
  ef_x : Q;
  ef_y : Q;
  ef_timer : Q;
  ef_label : string
}.

Definition tick_effect (e : Effect) : Effect :=
  mkEffect (ef_x e) (ef_y e) (ef_timer e - 1) (ef_label e).

Definition effect_expired (e : Effect) : bool := qle (ef_timer e) 0.

(** [addCombatEffect(attacker, target)] *)
Definition addCombatEffect (cfg : LCConfig) (a t : Dwarf) (ces : list Effect) : list Effect :=
  app ces [mkEffect ((x a + x t) / 2) ((y a + y t) / 2) (lc_combatEffectDuration cfg) "melee"].

(** [updateEffects()] on [this.combatEffects] and [this.deathEffects]. *)
Definition updateEffects (fx : list Effect * list Effect) : list Effect * list Effect :=
  (sweep tick_effect effect_expired (fst fx), sweep tick_effect effect_expired (snd fx)).

(** A floating damage number. *)
Record DamageNumber := mkDamageNumber {
  dn_damage : Q;
  dn_x : Q;
  dn_y : Q;
  dn_timer : Q;
  dn_isCritical : bool;
  dn_vx : Q;
  dn_vy : Q
}.

(** The body of the [updateDamageNumbers] loop: the timer, the position by
    the velocity, then the gravity on the vertical velocity. *)
Definition tick_damage (n : DamageNumber) : DamageNumber :=
  mkDamageNumber (dn_damage n) (dn_x n + dn_vx n) (dn_y n + dn_vy n) (dn_timer n - 1)
    (dn_isCritical n) (dn_vx n) (dn_vy n + (1 # 10)).

Definition damage_expired (n : DamageNumber) : bool := qle (dn_timer n) 0.

(** [addDamageNumber(target, damage, isCritical)] on [target.damageNumbers]
    ([None] when the property is unset); the two [Math.random()] calls are
    made in the order of the object literal. *)
Definition addDamageNumber (t : Dwarf) (ns : option (list DamageNumber)) (damage : Q)
    (isCritical : bool) : M (list DamageNumber) :=
  let ns := match ns with Some l => l | None => [] end in
  r1 <- random ;;
  r2 <- random ;;
  ret (app ns [mkDamageNumber damage (x t + r1 * 20 - 10) (y t - 20) 60 isCritical
                 (r2 * 2 - 1) (-2)]).

(** [updateDamageNumbers(dwarf)] on [dwarf.damageNumbers]. *)
Definition updateDamageNumbers (ns : option (list DamageNumber)) : option (list DamageNumber) :=
  match ns with
  | None => None
  | Some l => Some (sweep tick_damage damage_expired l)
  end.

(** ** Initialisation of an agent by the lifespan/combat system *)

(** [assignCombatStats(dwarf)], by [dwarf.class] ([None] when unset). *)
Definition assignCombatStats (cls : option string) : CombatStats :=
  match cls with
  | Some c =>
      if String.eqb c "fighter" then mkCombatStats (6#5) (11#10) 1 (12#100)
      else if String.eqb c "mage" then mkCombatStats (9#10) (4#5) (11#10) (15#100)
      else if String.eqb c "archer" then mkCombatStats 1 (9#10) (6#5) (1#10)
      else mkCombatStats 1 1 1 (1#10)
  | None => mkCombatStats 1 1 1 (1#10)
  end.

(** [initializeDwarf(dwarf)] on the agent at index [i], whose class is
    [cls]; [dwarf.age = dwarf.age || 0] leaves a numeric age as it is, and
    the [damageNumbers] array it resets is kept apart from the agent (see
    [updateDamageNumbers]). *)
Definition initializeDwarf (cfg : LCConfig) (cls : option string) (i : nat) : M unit :=
  r1 <- random ;;
  modifyD i (set_maxLifespan (lc_minLifespan cfg + r1 * (lc_maxLifespan cfg - lc_minLifespan cfg))) ;;
  r2 <- random ;;
  modifyD i (set_maxHealth (lc_maxHealth cfg + r2 * 20 - 10)) ;;
  modifyD i (fun d => set_health (Some (maxHealth d)) d) ;;
  modifyD i (set_attackCooldown 0) ;;
  modifyD i (set_isInCombat false) ;;
  modifyD i (set_combatTarget None) ;;
  modifyD i (set_lastAttacker None) ;;
  modifyD i (set_combatEffectTimer 0) ;;
  modifyD i (set_combatStats (assignCombatStats cls)) ;;
  modifyD i (set_healthBarVisible false).

(** A bus with two listeners for ["birth"] (callbacks 1 and 2, priorities
    5 and 0) and an empty history of capacity 3. *)
Definition sample_bus : EventBus.Bus nat :=
  EventBus.mkBus nat [("birth"%string, [EventBus.mkListener 1 false 5; EventBus.mkListener 2 true 0])]
    [] 3 false.

(** ** Invariants of a lifespan/combat tick

    [Keeps P m]: running [m] from a world satisfying [P] ends in a world
    satisfying [P]. [keeps_dead f]: the agent update [f] never turns a dead
    agent back into a live one. *)
Definition Keeps (P : World -> Prop) {A : Type} (m : M A) : Prop :=
  forall w, P w -> P (snd (m w)).

Definition keeps_dead (f : Dwarf -> Dwarf) : Prop :=
  forall d, isDead d = true -> isDead (f d) = true.


(** ** Pregnancy clock, mate scoring and population statistics *)

(** [PregnancyManager.startPregnancy(female, male)] on the female at index
    [f]; the male only decorates the [PREGNANCY_START] event, which is not
    modelled, nor is the [pregnantFemales] set. *)
Definition startPregnancy (f : nat) : M bool :=
  F <- getD f ;;
  if truthy_b (isPregnant F) then ret false else
  modifyD f (set_isPregnant (Some true)) ;;
  modifyD f (set_pregnancyTimer (Some 0)) ;;
  ret true.

(** [PregnancyManager.isReadyForBirth(female)], as a truth value; an unset
    timer compares false. *)
Definition isReadyForBirth (config : ReproConfig) (d : Dwarf) : bool :=
  truthy_b (isPregnant d)
  && match pregnancyTimer d with
     | Some t => qle (PREGNANCY_DURATION config) t
     | None => false
     end.

(** [PregnancyManager.getTimeUntilBirth(female)]: [-1] when not pregnant;
    [None] stands for the [NaN] that [Math.max] returns on an unset timer. *)
Definition getTimeUntilBirth (config : ReproConfig) (d : Dwarf) : option Q :=
  if negb (truthy_b (isPregnant d)) then Some (-1)
  else option_map (fun t => qmax 0 (PREGNANCY_DURATION config - t)) (pregnancyTimer d).

(** [PregnancyManager.forceBirth(female)] *)
Definition forceBirth (config : ReproConfig) (nm : string) (g : Gender) (f : nat) : M bool :=
  F <- getD f ;;
  if negb (truthy_b (isPregnant F)) then ret false else
  giveBirth config nm g f ;;
  ret true.

(** The object returned by [FemaleSelection.getDetailedScore]; the keys of
    [personalityBonuses] in insertion order. *)
Record ScoreBreakdown := mkScoreBreakdown {
  bd_baseScore : Q;
  bd_personalityBonuses : list (string * Q);
  bd_finalScore : Q
}.

(** [FemaleSelection.getDetailedScore(female, male)], with [s] the male's
    strategy; the running score and bonus list are threaded as a pair. *)
Definition getDetailedScore (config : ReproConfig) (p : Personality) (s : option Strategy) : ScoreBreakdown :=
  let fc := FEMALE_SELECTION config in
  let sb := (baseScore fc, @nil (string * Q)) in
  let sb :=
    if above (agreeableness p) (agreeableness_threshold fc) then
      let sb := if has_strategy s Blue
                then (fst sb + agreeableness_blueBonus fc,
                      app (snd sb) [("agreeableness_blue"%string, agreeableness_blueBonus fc)])
                else sb in
      if has_strategy s Orange
      then (fst sb + agreeableness_orangePenalty fc,
            app (snd sb) [("agreeableness_orange"%string, agreeableness_orangePenalty fc)])
      else sb
    else sb in
  let sb :=
    if above (openness p) (openness_threshold fc) then
      if has_strategy s Yellow
      then (fst sb + openness_yellowBonus fc,
            app (snd sb) [("openness_yellow"%string, openness_yellowBonus fc)])
      else sb
    else sb in
  let sb :=
    if below (neuroticism p) (neuroticism_threshold fc) then
      if has_strategy s Orange
      then (fst sb + neuroticism_orangeBonus fc,
            app (snd sb) [("neuroticism_orange"%string, neuroticism_orangeBonus fc)])
      else sb
    else sb in
  mkScoreBreakdown (baseScore fc) (snd sb) (fst sb).

(** The object returned by [FemaleSelection.analyzePreferences]. *)
Record Preferences := mkPreferences {
  preferredStrategies : list Strategy;
  avoidedStrategies : list Strategy;
  personalityFactors : list (string * string)
}.

(** [FemaleSelection.analyzePreferences(female)] *)
Definition analyzePreferences (config : ReproConfig) (p : Personality) : Preferences :=
  let fc := FEMALE_SELECTION config in
  let pr := mkPreferences [] [] [] in
  let pr :=
    if above (agreeableness p) (agreeableness_threshold fc)
    then mkPreferences (app (preferredStrategies pr) [Blue]) (app (avoidedStrategies pr) [Orange])
           (app (personalityFactors pr) [("agreeableness"%string, "high"%string)])
    else pr in
  let pr :=
    if above (openness p) (openness_threshold fc)
    then mkPreferences (app (preferredStrategies pr) [Yellow]) (avoidedStrategies pr)
           (app (personalityFactors pr) [("openness"%string, "high"%string)])
    else pr in
  let pr :=
    if below (neuroticism p) (neuroticism_threshold fc)
    then mkPreferences (app (preferredStrategies pr) [Orange]) (avoidedStrategies pr)
           (app (personalityFactors pr) [("neuroticism"%string, "low"%string)])
    else pr in
  pr.

(** The sum of the values of a list of (key, number) pairs. *)
Definition qsum_snd (l : list (string * Q)) : Q := fold_right (fun e acc => snd e + acc) 0 l.

(** [males.map(male => ({male, score: this.scoreMate(female, male)}))]: one
    [Math.random()] per male, in order. *)
Fixpoint scoreMales (config : ReproConfig) (p : Personality) (males : list Dwarf) : M (list (Dwarf * Q)) :=
  match males with
  | [] => ret []
  | m :: ms =>
      r <- random ;;
      rest <- scoreMales config p ms ;;
      ret ((m, scoreMate config p (reproductionStrategy m) r) :: rest)
  end.

(** [scoredMales.sort((a, b) => b.score - a.score)]: [Array.prototype.sort]
    is stable, and a stable sort by a consistent comparator has a single
    result, computed here by insertion (an element goes after every
    element of equal score). *)
Fixpoint insert_desc (e : Dwarf * Q) (l : list (Dwarf * Q)) : list (Dwarf * Q) :=
  match l with
  | [] => [e]
  | h :: t => if qlt (snd h) (snd e) then e :: h :: t else h :: insert_desc e t
  end.

Definition sort_desc (l : list (Dwarf * Q)) : list (Dwarf * Q) :=
  fold_left (fun acc e => insert_desc e acc) l [].

(** [FemaleSelection.selectPreferredMale(female, males)]; the
    [FEMALE_EVALUATION] event only reports the scores and is not modelled. *)
Definition selectPreferredMale (config : ReproConfig) (p : Personality) (males : list Dwarf) : M (option Dwarf) :=
  scoredMales <- scoreMales config p males ;;
  let scoredMales := sort_desc scoredMales in
  ret (match scoredMales with e :: _ => Some (fst e) | [] => None end).

(** The scored list [scoreMales] builds from a stream [rs] long enough. *)
Definition score_with (config : ReproConfig) (p : Personality) (males : list Dwarf) (rs : list Q) :=
  map (fun mr => (fst mr, scoreMate config p (reproductionStrategy (fst mr)) (snd mr))) (combine males rs).

(** One step of a left-to-right scan keeping the first element of
    highest score. *)
Definition best_step (o : option (Dwarf * Q)) (e : Dwarf * Q) : option (Dwarf * Q) :=
  match o with
  | None => Some e
  | Some h => if qlt (snd h) (snd e) then Some e else Some h
  end.

(** [WorldInterface.getAdultDwarfs()], [getAdultMales()] and
    [getAvailableFemales()] on the population [ds]. *)
Definition getAdultDwarfs (ds : list Dwarf) : list Dwarf := filter (fun d => isAdult d) ds.

Definition getAdultMales (ds : list Dwarf) : list Dwarf :=
  filter (fun d => gender_eqb (gender d) Male) (getAdultDwarfs ds).

Definition getAvailableFemales (ds : list Dwarf) : list Dwarf :=
  filter (fun d => isAdult d && gender_eqb (gender d) Female
                   && negb (truthy_b (isPregnant d)) && opt_le0 (reproductionCooldown d)) ds.

(** The object returned by [WorldInterface.getPopulationStats()]
    ([malesByStrategy] flattened). *)
Record PopulationStats := mkPopulationStats {
  ps_total : nat;
  ps_adults : nat;
  ps_children : nat;
  ps_males : nat;
  ps_females : nat;
  ps_pregnant : nat;
  ps_availableFemales : nat;
  ps_orange : nat;
  ps_blue : nat;
  ps_yellow : nat
}.

(** [WorldInterface.getPopulationStats()] *)
Definition getPopulationStats (ds : list Dwarf) : PopulationStats :=
  let adults := getAdultDwarfs ds in
  let males := getAdultMales ds in
  let females := filter (fun d => gender_eqb (gender d) Female) adults in
  let pregnant := filter (fun d => truthy_b (isPregnant d)) females in
  mkPopulationStats (length ds) (length adults) (length ds - length adults)
    (length males) (length females) (length pregnant) (length (getAvailableFemales ds))
    (length (filter (fun m => has_strategy (reproductionStrategy m) Orange) males))
    (length (filter (fun m => has_strategy (reproductionStrategy m) Blue) males))
    (length (filter (fun m => has_strategy (reproductionStrategy m) Yellow) males)).

(** The filter of [getAvailableFemales]. *)
Definition female_available (d : Dwarf) : bool :=
  isAdult d && gender_eqb (gender d) Female
  && negb (truthy_b (isPregnant d)) && opt_le0 (reproductionCooldown d).

(** * Properties *)

Example qsqrt_900 : qsqrt 900 == 30.
Proof. reflexivity. Qed.

Example default_config_valid : validateConfig (of_config REPRODUCTION_CONFIG) = None.
Proof. reflexivity. Qed.

(** ** Event bus *)

Section BusProofs.
Import EventBus.

Variable Data : Type.
Variable run : nat -> (string * Data) -> Bus Data -> Outcome Data (Bus Data).

Lemma deliver_invokes_all (ty : string) (ev : string * Data) (ls : list Listener) :
  forall b, exists b', deliver Data run ty ev ls b = Returned Data _ (b', map callback ls).
Proof.
  induction ls as [|l ls IH]; intros b; simpl.
  - eexists; reflexivity.
  - set (o := catchO Data _ _).
    assert (Ho : exists b1, o = Returned Data _ b1).
    { subst o; destruct (run (callback l) ev b); simpl; eexists; reflexivity. }
    destruct Ho as [b1 Hb1]; rewrite Hb1; simpl.
    destruct (IH b1) as [b2 Hb2]; rewrite Hb2; simpl.
    eexists; reflexivity.
Qed.

End BusProofs.

(** C8: publishing never raises, and every listener registered for the
    topic when [emit] starts is invoked, in order, even when some of them
    throw. *)
Theorem emit_isolates_listener_errors (Data : Type)
    (run : nat -> (string * Data) -> EventBus.Bus Data -> EventBus.Outcome Data (EventBus.Bus Data))
    (ty : string) (data : Data) (b : EventBus.Bus Data) :
  exists b', EventBus.emit Data run ty data b
             = EventBus.Returned Data _
                 (b', map EventBus.callback
                        (match EventBus.lookup (EventBus.listeners Data b) ty with
                         | Some ls => ls | None => [] end)).
Proof.
  unfold EventBus.emit.
  change (EventBus.listeners Data (EventBus.addToHistory Data (ty, data) b))
    with (EventBus.listeners Data b).
  destruct (EventBus.lookup (EventBus.listeners Data b) ty) as [ls|].
  - apply deliver_invokes_all.
  - eexists; reflexivity.
Qed.

(** ** Female mate scoring *)

Lemma qlt_true (a b : Q) : a < b -> qlt a b = true.
Proof.
  intro H; unfold qlt; apply negb_true_iff.
  destruct (Qle_bool b a) eqn:E; [|reflexivity].
  apply Qle_bool_iff in E; exfalso; apply (Qlt_not_le _ _ H E).
Qed.

Lemma qlt_false (a b : Q) : ~ a < b -> qlt a b = false.
Proof.
  intro H; unfold qlt; apply negb_false_iff, Qle_bool_iff.
  apply Qnot_lt_le; exact H.
Qed.

Lemma qlt_true_iff (a b : Q) : qlt a b = true <-> a < b.
Proof.
  split; [|apply qlt_true].
  unfold qlt; intro H; apply negb_true_iff in H.
  apply Qnot_le_lt; intro Hle; apply Qle_bool_iff in Hle; congruence.
Qed.

Lemma qle_true_iff (a b : Q) : qle a b = true <-> a <= b.
Proof. apply Qle_bool_iff. Qed.

(** A guardian and a territorial male drawing the same random value. *)
Lemma scoreMate_guardian_territorial (p : Personality) (r : Q) :
  60 < agreeableness p -> ~ neuroticism p < 40 ->
  scoreMate REPRODUCTION_CONFIG p (Some Blue) r
  == scoreMate REPRODUCTION_CONFIG p (Some Orange) r + 40.
Proof.
  intros Ha Hn; unfold scoreMate; simpl.
  rewrite (qlt_true _ _ Ha), (qlt_false _ _ Hn).
  destruct (qlt 70 (openness p)); simpl; ring.
Qed.

Lemma qsum_shift (f g : Q -> Q) (c : Q) (rs : list Q) :
  (forall r, f r == g r + c) ->
  qsum (map f rs) == qsum (map g rs) + inject_Z (Z.of_nat (length rs)) * c.
Proof.
  intro H; unfold qsum; induction rs as [|r rs IH]; cbn [map fold_right length].
  - ring.
  - rewrite H, IH. rewrite Nat2Z.inj_succ, <- Z.add_1_r, inject_Z_plus. ring.
Qed.

(** C7: for a female with agreeableness above 60 and neuroticism not below
    40, the guardian's score exceeds the territorial's by exactly 40 on
    every random draw; hence, over any non-empty sample of draws, the mean
    guardian score is the mean territorial score plus 40, so it is strictly
    larger; and even the lowest guardian score (random part 0) exceeds the
    highest territorial score (random part below 20). *)
Theorem guardian_mean_exceeds_territorial (p : Personality) (rs : list Q) :
  60 < agreeableness p -> ~ neuroticism p < 40 -> rs <> [] ->
  mean (map (scoreMate REPRODUCTION_CONFIG p (Some Blue)) rs)
  == mean (map (scoreMate REPRODUCTION_CONFIG p (Some Orange)) rs) + 40
  /\ mean (map (scoreMate REPRODUCTION_CONFIG p (Some Orange)) rs)
     < mean (map (scoreMate REPRODUCTION_CONFIG p (Some Blue)) rs)
  /\ (forall r1 r2, 0 <= r1 -> r2 < 1 ->
        scoreMate REPRODUCTION_CONFIG p (Some Orange) r2
        < scoreMate REPRODUCTION_CONFIG p (Some Blue) r1).
Proof.
  intros Ha Hn Hrs.
  assert (Hn0 : 0 < inject_Z (Z.of_nat (length rs))).
  { destruct rs as [|r rs]; [congruence|]. simpl length.
    change 0 with (inject_Z 0); rewrite <- Zlt_Qlt; lia. }
  assert (Heq : mean (map (scoreMate REPRODUCTION_CONFIG p (Some Blue)) rs)
                == mean (map (scoreMate REPRODUCTION_CONFIG p (Some Orange)) rs) + 40).
  { unfold mean; rewrite !length_map.
    rewrite (qsum_shift _ _ 40 rs (fun r => scoreMate_guardian_territorial p r Ha Hn)).
    field. intro H0; rewrite H0 in Hn0; discriminate. }
  split; [exact Heq|split].
  - rewrite Heq; lra.
  - intros r1 r2 H1 H2.
    rewrite (scoreMate_guardian_territorial p r1 Ha Hn).
    unfold scoreMate; simpl.
    rewrite (qlt_true _ _ Ha), (qlt_false _ _ Hn).
    destruct (qlt 70 (openness p)); simpl; lra.
Qed.

(** An instance: agreeableness 80, neuroticism 90, three draws. *)
Lemma guardian_mean_exceeds_territorial_witness :
  60 < agreeableness (mkPersonality 80 50 90) /\ ~ neuroticism (mkPersonality 80 50 90) < 40
  /\ [0; 1#2; 9#10] <> []
  /\ mean (map (scoreMate REPRODUCTION_CONFIG (mkPersonality 80 50 90) (Some Orange)) [0; 1#2; 9#10])
     < mean (map (scoreMate REPRODUCTION_CONFIG (mkPersonality 80 50 90) (Some Blue)) [0; 1#2; 9#10]).
Proof.
  assert (Ha : 60 < agreeableness (mkPersonality 80 50 90)) by (vm_compute; reflexivity).
  assert (Hn : ~ neuroticism (mkPersonality 80 50 90) < 40) by (vm_compute; discriminate).
  assert (Hl : [0; 1#2; 9#10] <> []) by discriminate.
  split; [exact Ha|split; [exact Hn|split; [exact Hl|]]].
  exact (proj1 (proj2 (guardian_mean_exceeds_territorial _ _ Ha Hn Hl))).
Defined.

(** ** Mating attempts *)

(** C4: a mating attempt that fails, on the male-initiated path
    ([BaseStrategy.attemptMating]) or on the female-initiated path
    ([attemptMatingWithFemale], also through [acceptMating]), whether the
    female is unavailable or the success roll fails, leaves every agent of
    the population unchanged, in particular both participants' pregnancy
    and cooldown fields. *)
Theorem failed_mating_changes_no_agent (config : ReproConfig) (m f : nat) (w : World) :
  (fst (attemptMating config m f w) = false ->
   dwarfs (snd (attemptMating config m f w)) = dwarfs w)
  /\ (fst (attemptMatingWithFemale config m f w) = false ->
      dwarfs (snd (attemptMatingWithFemale config m f w)) = dwarfs w)
  /\ (fst (acceptMating config f m w) = false ->
      dwarfs (snd (acceptMating config f m w)) = dwarfs w).
Proof.
  assert (Hwf : fst (attemptMatingWithFemale config m f w) = false ->
      dwarfs (snd (attemptMatingWithFemale config m f w)) = dwarfs w).
  { unfold attemptMatingWithFemale, bind, getD, random, ret.
    destruct (opt_gt0 _ || truthy_b _); [reflexivity|].
    destruct (rng w) as [|r rs]; simpl.
    - destruct (qlt 0 _); simpl; [discriminate|reflexivity].
    - destruct (qlt r _); simpl; [discriminate|reflexivity]. }
  split; [|split; [exact Hwf|]].
  - unfold attemptMating, bind, getD, random, ret, emit.
    destruct (opt_gt0 _ || truthy_b _); [reflexivity|].
    destruct (rng w) as [|r rs]; simpl.
    + destruct (qlt 0 _); simpl; [discriminate|reflexivity].
    + destruct (qlt r _); simpl; [discriminate|reflexivity].
  - unfold acceptMating, bind, getD, emit, ret.
    destruct (attemptMatingWithFemale config m f w) as [b w1] eqn:E.
    simpl in *. destruct b; simpl; [discriminate|].
    intros _; apply Hwf; reflexivity.
Qed.

Lemma failed_mating_changes_no_agent_witness :
  fst (attemptMating REPRODUCTION_CONFIG 0 1 mating_world) = false
  /\ dwarfs (snd (attemptMating REPRODUCTION_CONFIG 0 1 mating_world)) = dwarfs mating_world.
Proof.
  assert (H : fst (attemptMating REPRODUCTION_CONFIG 0 1 mating_world) = false) by reflexivity.
  split; [exact H|].
  exact (proj1 (failed_mating_changes_no_agent REPRODUCTION_CONFIG 0 1 mating_world) H).
Defined.

(** ** Configuration validation *)

Lemma orelse_None {A : Type} (a b : option A) : orelse a b = None -> a = None /\ b = None.
Proof. destruct a; simpl; [discriminate|auto]. Qed.

Lemma first_error_None (l : list (bool * string)) :
  first_error l = None -> forall bad msg, In (bad, msg) l -> bad = false.
Proof.
  induction l as [|[b m] l IH]; simpl; [tauto|].
  destruct b; [discriminate|]. intros H bad msg [E|Hin]; [congruence|].
  exact (IH H bad msg Hin).
Qed.

Lemma qle_false (a b : Q) : qle a b = false -> b < a.
Proof.
  intro H; apply Qnot_le_lt; intro Hle; apply Qle_bool_iff in Hle; unfold qle in H; congruence.
Qed.

Lemma qlt_false_le (a b : Q) : qlt a b = false -> b <= a.
Proof. unfold qlt; intro H; apply negb_false_iff, Qle_bool_iff in H; exact H. Qed.

Lemma validateStrategyConfig_None (osc : option StrategyConfig) (nm : Strategy) :
  validateStrategyConfig osc nm = None ->
  exists sc col, osc = Some sc /\ sc_color sc = Some col /\ is_hex_color col = true.
Proof.
  destruct osc as [sc|]; [|discriminate].
  intro H; cbv beta iota zeta delta [validateStrategyConfig] in H.
  pose proof (first_error_None _ H) as Hb.
  specialize (fun bad msg Hin => Hb bad msg (in_or_app _ _ _ (or_introl Hin))).
  pose proof (Hb _ _ (or_intror (or_intror (or_intror (or_introl eq_refl))))) as Hc.
  destruct (sc_color sc) as [col|] eqn:Ec; simpl in Hc; [|discriminate].
  exists sc, col; split; [reflexivity|split; [exact Ec|apply negb_false_iff; exact Hc]].
Qed.

Lemma bad_positive_integer_false (v : JSNum) :
  bad_positive_integer v = false -> exists n, v = JNum n /\ 0 < n /\ isInteger n = true.
Proof.
  unfold bad_positive_integer; intro H; apply orb_false_iff in H as [H1 H2].
  destruct v as [n| |]; simpl in H1, H2; try discriminate.
  exists n; split; [reflexivity|split; [apply qle_false; exact H1|apply negb_false_iff; exact H2]].
Qed.

Lemma includes_strategy_In (l : list Strategy) (s : Strategy) :
  includes_strategy l s = true -> In s l.
Proof.
  unfold includes_strategy; intro H; apply existsb_exists in H as [x [Hx E]].
  destruct s, x; simpl in E; try discriminate; exact Hx.
Qed.

(** C9: [rate <= 0 || rate > 1] is false when [MATING_SUCCESS_RATE] is
    missing or [NaN], so validation of any configuration object then ends
    as it would for a rate of 1/2. The shipped configuration without a
    rate passes validation, and so does the shipped configuration with a
    territorial [matingChance] of [NaN] ([typeof NaN] is ['number'] and
    both comparisons with it are false). *)
Theorem validateConfig_accepts_missing_rate :
  (forall c : JSConfig.t,
     validateConfig (with_rate JUndefined c) = validateConfig (with_rate (JNum (1#2)) c)
     /\ validateConfig (with_rate JNaN c) = validateConfig (with_rate (JNum (1#2)) c))
  /\ JSConfig.MATING_SUCCESS_RATE config_without_rate = JUndefined
  /\ validateConfig config_without_rate = None
  /\ option_map sc_matingChance (JSConfig.ORANGE_STRATEGY config_nan_chance) = Some JNaN
  /\ validateConfig config_nan_chance = None.
Proof.
  split; [intro c; split; reflexivity|].
  repeat split; vm_compute; reflexivity.
Qed.

(** A configuration object that passes [validateConfig] has
    [PREGNANCY_DURATION], [MATURITY_THRESHOLD] and both reproduction
    cooldowns set to positive integers (a missing or [NaN] value is
    rejected), a [MALE_STRATEGIES] array of three entries holding orange,
    blue and yellow, and a block for each strategy whose colour is a
    six-digit hex code. *)
Theorem validateConfig_accepted_shape (c : JSConfig.t) :
  validateConfig c = None ->
  (forall v, In v [JSConfig.PREGNANCY_DURATION c; JSConfig.MATURITY_THRESHOLD c;
                   JSConfig.FEMALE_REPRODUCTION_COOLDOWN c; JSConfig.MALE_REPRODUCTION_COOLDOWN c] ->
     exists n, v = JNum n /\ 0 < n /\ isInteger n = true)
  /\ (exists l, JSConfig.MALE_STRATEGIES c = Some l /\ length l = 3%nat /\ forall s, In s l)
  /\ (forall s, exists sc col, strategy_block c s = Some sc
                               /\ sc_color sc = Some col /\ is_hex_color col = true).
Proof.
  unfold validateConfig; intro H.
  repeat match goal with
         | H : orelse _ _ = None |- _ => apply orelse_None in H; destruct H
         end.
  match goal with
  | H : first_error ((_, "Invalid MATING_SUCCESS_RATE. Must be between 0 and 1.") :: _) = None |- _ =>
      pose proof (first_error_None _ H) as Hb
  end.
  split; [|split].
  - intros v Hv.
    apply bad_positive_integer_false.
    destruct Hv as [<-|[<-|[<-|[<-|[]]]]];
      [exact (Hb _ _ (or_intror (or_introl eq_refl)))
      |exact (Hb _ _ (or_intror (or_intror (or_introl eq_refl))))
      |exact (Hb _ _ (or_intror (or_intror (or_intror (or_introl eq_refl)))))
      |exact (Hb _ _ (or_intror (or_intror (or_intror (or_intror (or_introl eq_refl))))))].
  - pose proof (Hb _ _ (or_intror (or_intror (or_intror (or_intror (or_intror (or_introl eq_refl)))))))
      as Hl.
    destruct (JSConfig.MALE_STRATEGIES c) as [l|]; [|discriminate].
    apply negb_false_iff, Nat.eqb_eq in Hl.
    match goal with
    | H : first_error ((_, "Missing required strategy: orange") :: _) = None |- _ =>
        pose proof (first_error_None _ H) as Hs
    end.
    exists l; split; [reflexivity|split; [exact Hl|]].
    intros []; apply includes_strategy_In, negb_false_iff.
    + exact (Hs _ _ (or_introl eq_refl)).
    + exact (Hs _ _ (or_intror (or_introl eq_refl))).
    + exact (Hs _ _ (or_intror (or_intror (or_introl eq_refl)))).
  - intros []; simpl; eapply validateStrategyConfig_None; eassumption.
Qed.

(** ** The vitality update of an agent without positive health *)

(** C10: when the agent's health is unset, zero or negative at the start of
    [updateDwarf], the update returns at once and the world is unchanged:
    no ageing, no death processing, no [isDead] flag, no clearing of other
    agents' references. *)
Theorem updateDwarf_skips_nonpositive_health (sqrt : Q -> Q) (cfg : LCConfig) (i : nat) (w : World) :
  falsy_num (health (nth i (dwarfs w) default_dwarf))
  || opt_le0 (health (nth i (dwarfs w) default_dwarf)) = true ->
  updateDwarf sqrt cfg i w = (tt, w).
Proof.
  intro H; unfold updateDwarf, bind, getD; cbv beta iota.
  rewrite H; reflexivity.
Qed.

Lemma updateDwarf_skips_nonpositive_health_witness :
  updateDwarf qsqrt default_lc_config 0 spent_world = (tt, spent_world).
Proof.
  apply updateDwarf_skips_nonpositive_health; reflexivity.
Defined.

(** ** Gestation and birth *)

Lemma length_update_nth {A : Type} (i : nat) (f : A -> A) (l : list A) :
  length (update_nth i f l) = length l.
Proof. revert i; induction l as [|a l IH]; intros [|i]; simpl; auto. Qed.

Lemma nth_update_nth_eq {A : Type} (i : nat) (f : A -> A) (l : list A) (d : A) :
  (i < length l)%nat -> nth i (update_nth i f l) d = f (nth i l d).
Proof. revert i; induction l as [|a l IH]; intros [|i] H; simpl in *; try lia; auto.
  apply IH; lia. Qed.

Lemma nth_update_nth_neq {A : Type} (i j : nat) (f : A -> A) (l : list A) (d : A) :
  i <> j -> nth j (update_nth i f l) d = nth j l d.
Proof. revert i j; induction l as [|a l IH]; intros [|i] [|j] H; simpl; auto; try congruence.
  all: apply IH; congruence. Qed.

Lemma nth_error_update_nth_neq {A : Type} (i j : nat) (f : A -> A) (l : list A) :
  i <> j -> nth_error (update_nth i f l) j = nth_error l j.
Proof. revert i j; induction l as [|a l IH]; intros [|i] [|j] H; simpl; auto; try congruence.
  all: apply IH; congruence. Qed.

Lemma update_nth_app {A : Type} (i : nat) (f : A -> A) (l r : list A) :
  (i < length l)%nat -> update_nth i f (app l r) = app (update_nth i f l) r.
Proof. revert i; induction l as [|a l IH]; intros [|i] H; simpl in *; try lia; auto.
  rewrite IH by lia; reflexivity. Qed.

Lemma initializeStrategyProperties_keeps (d : Dwarf) :
  isAdult (initializeStrategyProperties d) = isAdult d
  /\ x (initializeStrategyProperties d) = x d
  /\ y (initializeStrategyProperties d) = y d.
Proof.
  unfold initializeStrategyProperties.
  repeat (simpl; match goal with |- context [match ?o with _ => _ end] => destruct o end);
  auto.
Qed.

Lemma initializeReproductionTraits_keeps (c : ReproConfig) (d : Dwarf) (w : World) :
  dwarfs (snd (initializeReproductionTraits c d w)) = dwarfs w
  /\ isAdult (fst (initializeReproductionTraits c d w)) = isAdult d
  /\ x (fst (initializeReproductionTraits c d w)) = x d
  /\ y (fst (initializeReproductionTraits c d w)) = y d.
Proof.
  unfold initializeReproductionTraits, assignRandomStrategy, bind, ret, emit, random.
  destruct (gender_eqb (gender d) Male); simpl;
  [destruct (rng w); simpl|];
  repeat match goal with |- context [match ?o with Some _ => _ | None => _ end] =>
    destruct o; simpl end;
  repeat match goal with |- context [initializeStrategyProperties ?e] =>
    destruct (initializeStrategyProperties_keeps e) as (?&?&?); generalize dependent (initializeStrategyProperties e) end;
  intros; simpl in *; repeat split; congruence.
Qed.

(** One tick of [updatePregnancy] for a female one tick before term, under
    the shipped configuration. *)
Lemma updatePregnancy_at_term (nm : string) (g : Gender) (f : nat) (w : World)
    (r1 r2 : Q) (rs : list Q) :
  (f < length (dwarfs w))%nat ->
  isPregnant (nth f (dwarfs w) default_dwarf) = Some true ->
  pregnancyTimer (nth f (dwarfs w) default_dwarf) = Some 3599 ->
  rng w = r1 :: r2 :: rs ->
  let F := nth f (dwarfs w) default_dwarf in
  let w' := snd (updatePregnancy REPRODUCTION_CONFIG nm g f w) in
  length (dwarfs w') = S (length (dwarfs w))
  /\ (exists F', nth_error (dwarfs w') f = Some F' /\ isPregnant F' = Some false
        /\ pregnancyTimer F' = Some 0 /\ reproductionCooldown F' = Some 7200)
  /\ (exists B, nth_error (dwarfs w') (length (dwarfs w)) = Some B /\ isAdult B = false
        /\ x B == x F + r1 * 40 - 20 /\ y B == y F + r2 * 40 - 20
        /\ exists pre, events w' = app pre [EvBirth (name F) (name B) (Some 0)])
  /\ (forall j, j <> f -> (j < length (dwarfs w))%nat ->
        nth_error (dwarfs w') j = nth_error (dwarfs w) j).
Proof.
  intros Hf Hp Ht Hr F w'. subst F w'.
  unfold updatePregnancy, giveBirth, bind, getD, modifyD, random, addDwarf, addLog, emit, ret, skip.
  cbv beta iota zeta.
  rewrite Hp; simpl.
  rewrite (nth_update_nth_eq f _ (dwarfs w)) by exact Hf. simpl.
  rewrite Ht; simpl.
  rewrite (nth_update_nth_eq f _ (dwarfs w)) by exact Hf. simpl.
  rewrite Hp; simpl.
  rewrite Hr; simpl.
  repeat (rewrite nth_update_nth_eq by (rewrite ?length_update_nth; exact Hf)); simpl.
  match goal with |- context [initializeReproductionTraits ?c ?d ?w0] =>
    pose proof (initializeReproductionTraits_keeps c d w0) as (Hd & Ha & Hx & Hy);
    destruct (initializeReproductionTraits c d w0) as [b wb] eqn:Eb
  end.
  simpl in *. rewrite Hd.
  set (L := update_nth f (set_reproductionCooldown (Some 7200))
              (update_nth f (set_pregnancyTimer (Some 0))
              (update_nth f (set_isPregnant (Some false))
              (update_nth f (fun d : Dwarf => set_pregnancyTimer (incr_timer (pregnancyTimer d)) d)
              (dwarfs w))))).
  assert (Hl : length L = length (dwarfs w)) by (subst L; rewrite !length_update_nth; reflexivity).
  assert (HF : nth f L default_dwarf
               = set_reproductionCooldown (Some 7200) (set_pregnancyTimer (Some 0)
                   (set_isPregnant (Some false) (set_pregnancyTimer (Some (3599 + 1))
                   (nth f (dwarfs w) default_dwarf))))).
  { subst L. repeat (rewrite nth_update_nth_eq by (rewrite ?length_update_nth; exact Hf)).
    simpl. rewrite Ht. reflexivity. }
  split; [|split; [|split]].
  - rewrite length_app, Hl; simpl; lia.
  - rewrite nth_error_app1 by lia.
    rewrite (nth_error_nth' _ default_dwarf) by lia.
    eexists; split; [reflexivity|]. rewrite HF. simpl; auto.
  - rewrite nth_error_app2 by lia. rewrite Hl.
    replace (length (dwarfs w) - length (dwarfs w))%nat with 0%nat by lia; simpl.
    eexists; split; [reflexivity|]. rewrite Ha, Hx, Hy; simpl.
    split; [reflexivity|split; [|split]].
    + unfold Qminus; rewrite Qplus_inj_l; reflexivity.
    + unfold Qminus; rewrite Qplus_inj_l; reflexivity.
    + eexists. rewrite app_nth1 by lia. rewrite HF. reflexivity.
  - intros j Hj Hjl. rewrite nth_error_app1 by lia.
    subst L. rewrite !nth_error_update_nth_neq by congruence. reflexivity.
Qed.

(** C2: a female with [isPregnant = true] and [pregnancyTimer = 3599],
    advanced one tick, is no longer pregnant, has her timer reset to 0 and
    a reproduction cooldown of 7200; exactly one agent is appended to the
    population, a non-adult placed at the mother's position offset by
    [U * 40 - 20] on each axis; the other agents are unchanged. *)
Theorem gestation_tick_at_term (nm : string) (g : Gender) (f : nat) (w : World)
    (r1 r2 : Q) (rs : list Q) :
  (f < length (dwarfs w))%nat ->
  isPregnant (nth f (dwarfs w) default_dwarf) = Some true ->
  pregnancyTimer (nth f (dwarfs w) default_dwarf) = Some 3599 ->
  rng w = r1 :: r2 :: rs ->
  let F := nth f (dwarfs w) default_dwarf in
  let w' := snd (updatePregnancy REPRODUCTION_CONFIG nm g f w) in
  length (dwarfs w') = S (length (dwarfs w))
  /\ (exists F', nth_error (dwarfs w') f = Some F' /\ isPregnant F' = Some false
        /\ pregnancyTimer F' = Some 0 /\ reproductionCooldown F' = Some 7200)
  /\ (exists B, nth_error (dwarfs w') (length (dwarfs w)) = Some B /\ isAdult B = false
        /\ x B == x F + r1 * 40 - 20 /\ y B == y F + r2 * 40 - 20)
  /\ (forall j, j <> f -> (j < length (dwarfs w))%nat ->
        nth_error (dwarfs w') j = nth_error (dwarfs w) j).
Proof.
  intros Hf Hp Ht Hr F w'.
  destruct (updatePregnancy_at_term nm g f w r1 r2 rs Hf Hp Ht Hr)
    as (H1 & H2 & (B & HB & Ha & Hx & Hy & _) & H4).
  split; [exact H1|split; [exact H2|split; [|exact H4]]].
  exists B; auto.
Qed.

Lemma gestation_tick_at_term_witness :
  (1 < length (dwarfs term_world))%nat
  /\ length (dwarfs (snd (updatePregnancy REPRODUCTION_CONFIG "Baby" Female 1 term_world)))
     = S (length (dwarfs term_world)).
Proof.
  split; [simpl; lia|].
  exact (proj1 (gestation_tick_at_term "Baby" Female 1 term_world (1#2) (1#4) []
                  ltac:(simpl; lia) eq_refl eq_refl eq_refl)).
Defined.

(** C3 (code behaviour): the birth event emitted at the end of a full
    3600-tick pregnancy (timer 3599 advanced one tick) reports a gestation
    duration of 0, not 3600: [giveBirth] resets [pregnancyTimer] to 0 before
    it reads it into the event. *)
Theorem birth_event_reports_zero_duration (nm : string) (g : Gender) (f : nat) (w : World)
    (r1 r2 : Q) (rs : list Q) :
  (f < length (dwarfs w))%nat ->
  isPregnant (nth f (dwarfs w) default_dwarf) = Some true ->
  pregnancyTimer (nth f (dwarfs w) default_dwarf) = Some 3599 ->
  rng w = r1 :: r2 :: rs ->
  let F := nth f (dwarfs w) default_dwarf in
  let w' := snd (updatePregnancy REPRODUCTION_CONFIG nm g f w) in
  exists pre B, events w' = app pre [EvBirth (name F) (name B) (Some 0)].
Proof.
  intros Hf Hp Ht Hr F w'.
  destruct (updatePregnancy_at_term nm g f w r1 r2 rs Hf Hp Ht Hr)
    as (_ & _ & (B & _ & _ & _ & _ & pre & He) & _).
  exists pre, B; exact He.
Qed.

Lemma birth_event_reports_zero_duration_witness :
  pregnancyTimer (nth 1 (dwarfs term_world) default_dwarf) = Some 3599
  /\ exists pre B, events (snd (updatePregnancy REPRODUCTION_CONFIG "Baby" Female 1 term_world))
                   = app pre [EvBirth "F" (name B) (Some 0)].
Proof.
  split; [reflexivity|].
  exact (birth_event_reports_zero_duration "Baby" Female 1 term_world (1#2) (1#4) []
           ltac:(simpl; lia) eq_refl eq_refl eq_refl).
Defined.

(** ** Reproductive initialisation *)

Lemma initializeStrategyProperties_fields (d : Dwarf) :
  reproductionStrategy (initializeStrategyProperties d) = reproductionStrategy d
  /\ isPregnant (initializeStrategyProperties d) = isPregnant d
  /\ pregnancyTimer (initializeStrategyProperties d) = pregnancyTimer d
  /\ reproductionCooldown (initializeStrategyProperties d) = reproductionCooldown d
  /\ mateSeekingTimer (initializeStrategyProperties d) = mateSeekingTimer d
  /\ (forall v, territoryX d = Some v -> territoryX (initializeStrategyProperties d) = Some v)
  /\ (forall v, territoryY d = Some v -> territoryY (initializeStrategyProperties d) = Some v)
  /\ (forall v, guardedFemale d = Some v -> guardedFemale (initializeStrategyProperties d) = Some v).
Proof.
  unfold initializeStrategyProperties.
  repeat (simpl; match goal with |- context [match ?o with _ => _ end] => destruct o eqn:? end);
  simpl in *; repeat split; intros; simpl in *; congruence.
Qed.

(** C5 (as amended): [initializeReproductionTraits] fills only the unset
    pregnancy, timer and cooldown fields and never overwrites a set
    territory or guard field, and it keeps a female's strategy tag; but for
    a male it always draws a fresh strategy from [MALE_STRATEGIES], whatever
    strategy he had. *)
Theorem initializeReproductionTraits_fills_unset (c : ReproConfig) (d : Dwarf) (w : World) :
  let d' := fst (initializeReproductionTraits c d w) in
  isPregnant d' = match isPregnant d with Some b => Some b | None => Some false end
  /\ pregnancyTimer d' = match pregnancyTimer d with Some t => Some t | None => Some 0 end
  /\ reproductionCooldown d' = match reproductionCooldown d with Some t => Some t | None => Some 0 end
  /\ mateSeekingTimer d' = match mateSeekingTimer d with Some t => Some t | None => Some 0 end
  /\ (forall v, territoryX d = Some v -> territoryX d' = Some v)
  /\ (forall v, territoryY d = Some v -> territoryY d' = Some v)
  /\ (forall v, guardedFemale d = Some v -> guardedFemale d' = Some v)
  /\ (gender d = Female -> reproductionStrategy d' = reproductionStrategy d)
  /\ (gender d = Male -> reproductionStrategy d'
        = match MALE_STRATEGIES c with Some l => pick l (hd 0 (rng w)) | None => None end).
Proof.
  intro d'; subst d'.
  unfold initializeReproductionTraits, assignRandomStrategy, bind, ret, emit, random.
  destruct (gender d) eqn:Eg; simpl;
  [destruct (rng w); simpl;
   match goal with |- context [initializeStrategyProperties ?e] =>
     destruct (initializeStrategyProperties_fields e) as (Hs & Hp & Ht & Hc & Hm & Hx & Hy & Hgf);
     generalize dependent (initializeStrategyProperties e); intros d1 Hs Hp Ht Hc Hm Hx Hy Hgf
   end; simpl in *|];
  repeat (rewrite ?Hp, ?Ht, ?Hc, ?Hm;
          match goal with |- context [match ?o with Some _ => _ | None => _ end] =>
            destruct o eqn:? end; simpl);
  repeat split; intros; try discriminate; simpl in *; auto; congruence.
Qed.

(** C5 as stated fails: a restored territorial male whose strategy is
    already set gets a new strategy (here guardian, for the roll 0.5) when
    the initialisation hook runs on him. *)
Lemma restored_male_strategy_redrawn :
  reproductionStrategy restored_male = Some Orange
  /\ reproductionStrategy
       (fst (initializeReproductionTraits REPRODUCTION_CONFIG restored_male (world_of [] [1#2])))
     = Some Blue.
Proof. split; reflexivity. Qed.

(** ** Death and the references held by other agents *)

Lemma nth_map_in {A B : Type} (f : A -> B) (l : list A) (j : nat) (da : A) (db : B) :
  (j < length l)%nat -> nth j (map f l) db = f (nth j l da).
Proof.
  intro H; rewrite (nth_indep (map f l) db (f da)) by (rewrite length_map; exact H).
  apply map_nth.
Qed.

(** C1 (as amended): when [handleDeath] processes agent [i], every other
    agent whose [combatTarget] was [i] gets [combatTarget] absent and
    [isInCombat = false]; the other agents' combat state is untouched, and
    no agent's [lastAttacker] or [guardedFemale] is cleared, even when it
    names [i]. The dead agent is flagged dead with health 0. *)
Theorem handleDeath_clears_combat_targets_only (i j : nat) (w : World) :
  j <> i -> (j < length (dwarfs w))%nat -> (i < length (dwarfs w))%nat ->
  let o := nth j (dwarfs w) default_dwarf in
  let o' := nth j (dwarfs (snd (handleDeath i w))) default_dwarf in
  let d' := nth i (dwarfs (snd (handleDeath i w))) default_dwarf in
  (combatTarget o = Some i -> combatTarget o' = None /\ isInCombat o' = false)
  /\ (combatTarget o <> Some i ->
      combatTarget o' = combatTarget o /\ isInCombat o' = isInCombat o)
  /\ lastAttacker o' = lastAttacker o
  /\ guardedFemale o' = guardedFemale o
  /\ isDead d' = true /\ health d' = Some 0.
Proof.
  intros Hji Hj Hi o o' d'. subst o o' d'.
  unfold handleDeath, bind, getD, modifyD, addLog, emit; simpl.
  rewrite !nth_update_nth_neq by congruence.
  rewrite !nth_update_nth_eq by (rewrite ?length_update_nth, length_map; exact Hi).
  rewrite (nth_map_in (clearTargeting i) _ j default_dwarf) by exact Hj.
  rewrite (nth_map_in (clearTargeting i) _ i default_dwarf) by exact Hi.
  unfold clearTargeting.
  destruct (combatTarget (nth j (dwarfs w) default_dwarf)) as [k|] eqn:Ek; simpl.
  - destruct (Nat.eqb k i) eqn:Eki; simpl.
    + apply Nat.eqb_eq in Eki; subst k.
      repeat split; try reflexivity; congruence.
    + apply Nat.eqb_neq in Eki.
      repeat split; try reflexivity; congruence.
  - repeat split; try reflexivity; congruence.
Qed.

Lemma handleDeath_clears_combat_targets_only_witness :
  lastAttacker (nth 0 (dwarfs (snd (handleDeath 1 aged_world))) default_dwarf) = Some 1%nat.
Proof.
  destruct (handleDeath_clears_combat_targets_only 1 0 aged_world
              ltac:(lia) ltac:(simpl; lia) ltac:(simpl; lia)) as (_ & _ & H & _).
  rewrite H; reflexivity.
Defined.

(** C1 as stated fails: in the tick in which agent 1 dies of old age,
    agent 0's [combatTarget] is cleared but its [lastAttacker] and
    [guardedFemale] still name the dead agent. *)
Lemma death_leaves_weak_references :
  let w' := snd (update qsqrt default_lc_config aged_world) in
  isDead (nth 1 (dwarfs w') default_dwarf) = true
  /\ combatTarget (nth 0 (dwarfs w') default_dwarf) = None
  /\ lastAttacker (nth 0 (dwarfs w') default_dwarf) = Some 1%nat
  /\ guardedFemale (nth 0 (dwarfs w') default_dwarf) = Some (Some 1%nat).
Proof. vm_compute. repeat split; reflexivity. Qed.

(** ** Target selection in combat *)

Lemma performAttack_links (cfg : LCConfig) (a t : nat) (w : World) :
  a <> t -> (a < length (dwarfs w))%nat -> (t < length (dwarfs w))%nat ->
  qlt 0 (attackCooldown (nth a (dwarfs w) default_dwarf)) = false ->
  let w' := snd (performAttack cfg a t w) in
  let A' := nth a (dwarfs w') default_dwarf in
  let T' := nth t (dwarfs w') default_dwarf in
  lastAttacker T' = Some a /\ combatTarget T' = Some a /\ combatTarget A' = Some t
  /\ isInCombat A' = true /\ isInCombat T' = true.
Proof.
  intros Hat Ha Ht Hc w' A' T'. subst w' A' T'.
  unfold performAttack, bind, getD, modifyD, random, skip, ret.
  cbv beta iota zeta. rewrite Hc. simpl.
  repeat match goal with
  | |- context [match rng ?w with _ => _ end] => destruct (rng w)
  | |- context [if ?b then _ else _] => destruct b
  end; simpl;
  repeat first [ rewrite nth_update_nth_neq by congruence
               | rewrite nth_update_nth_eq by (rewrite ?length_update_nth; assumption) ];
  simpl; auto.
Qed.

Lemma shouldEngageInCombat_keeps (cfg : LCConfig) (a t : nat) (w : World) :
  dwarfs (snd (shouldEngageInCombat cfg a t w)) = dwarfs w.
Proof.
  unfold shouldEngageInCombat, bind, getD, random, ret.
  cbv beta iota zeta.
  repeat match goal with
  | |- context [match rng ?w with _ => _ end] => destruct (rng w)
  | |- context [match ?o with Some _ => _ | None => _ end] => destruct o
  | |- context [if ?b then _ else _] => destruct b
  end; reflexivity.
Qed.

Lemma filterM_spec {A : Type} (p : A -> M bool) (P : A -> Prop) (l : list A) (w : World) :
  (forall j w, dwarfs (snd (p j w)) = dwarfs w) ->
  (forall j w, fst (p j w) = true -> P j) ->
  dwarfs (snd (filterM p l w)) = dwarfs w
  /\ (forall x, In x (fst (filterM p l w)) -> In x l /\ P x).
Proof.
  intros Hk Hp. revert w; induction l as [|j l IH]; intro w; simpl.
  - split; [reflexivity|tauto].
  - unfold bind, ret.
    destruct (p j w) as [b w1] eqn:E.
    destruct (filterM p l w1) as [rest w2] eqn:Ef.
    destruct (IH w1) as [IH1 IH2]. rewrite Ef in IH1, IH2. simpl in *.
    pose proof (Hk j w) as Hkj; rewrite E in Hkj; simpl in Hkj.
    split; [congruence|].
    intros x Hx. destruct b; simpl in Hx.
    + destruct Hx as [<-|Hx].
      * split; [auto|]. apply (Hp j w). rewrite E; reflexivity.
      * destruct (IH2 x Hx); auto.
    + destruct (IH2 x Hx); auto.
Qed.

Lemma eligibleTargets_keeps (cfg : LCConfig) (i : nat) (l : list nat) (w : World) :
  dwarfs (snd (eligibleTargets cfg i l w)) = dwarfs w
  /\ (forall x, In x (fst (eligibleTargets cfg i l w)) -> In x l /\ x <> i).
Proof.
  apply filterM_spec.
  - intros j w0. unfold bind, getD. cbv beta iota.
    destruct (_ && _); [apply shouldEngageInCombat_keeps|reflexivity].
  - intros j w0. unfold bind, getD, ret. cbv beta iota.
    destruct (_ && _) eqn:E; [|discriminate].
    intros _. apply andb_true_iff in E as [_ E].
    apply negb_true_iff, Nat.eqb_neq in E. exact E.
Qed.

Lemma getNearbyDwarfs_in (sqrt : Q -> Q) (c : nat) (r : Q) (w : World) (x : nat) :
  In x (fst (getNearbyDwarfs sqrt c r w)) -> (x < length (dwarfs w))%nat /\ x <> c.
Proof.
  unfold getNearbyDwarfs; simpl. intro H.
  apply filter_In in H as [H1 H2]. apply in_seq in H1.
  apply andb_true_iff in H2 as [H2 _]. apply negb_true_iff, Nat.eqb_neq in H2.
  split; [lia|exact H2].
Qed.

Lemma opt_nat_eqb_true (a b : option nat) : opt_nat_eqb a b = true <-> a = b.
Proof.
  destruct a as [m|], b as [n|]; simpl; split; intro H; try discriminate; auto.
  - apply Nat.eqb_eq in H; congruence.
  - injection H as ->; apply Nat.eqb_refl.
Qed.

Lemma handleCombatBehavior_step (sqrt : Q -> Q) (cfg : LCConfig) (i t : nat) (rest : list nat)
    (w w1 : World) :
  isAdult (nth i (dwarfs w) default_dwarf) = true ->
  qlt 0 (attackCooldown (nth i (dwarfs w) default_dwarf)) = false ->
  eligibleTargets cfg i (fst (getNearbyDwarfs sqrt i (lc_attackRange cfg * 2) w)) w
    = (t :: rest, w1) ->
  handleCombatBehavior sqrt cfg i w
  = (if qle (calculateDistance sqrt (nth i (dwarfs w1) default_dwarf) (nth t (dwarfs w1) default_dwarf))
            (lc_attackRange cfg)
     then performAttack cfg i t
     else if opt_nat_eqb (combatTarget (nth i (dwarfs w1) default_dwarf)) (Some t)
     then moveTowardsTarget sqrt i t else skip) w1.
Proof.
  intros Had Hc He.
  unfold handleCombatBehavior, bind at 1, getD at 1. cbv beta iota.
  rewrite Had, Hc. cbn [negb orb].
  unfold bind at 1.
  change (getNearbyDwarfs sqrt i (lc_attackRange cfg * 2) w)
    with (fst (getNearbyDwarfs sqrt i (lc_attackRange cfg * 2) w), w).
  cbv beta iota. unfold bind at 1. rewrite He. cbv beta iota.
  reflexivity.
Qed.

(** An adult agent off cooldown engages the first eligible target in
    population order among the agents within twice the attack range.
    Within the attack range an
    attack resolves at once: the target's [lastAttacker] is the agent and
    the two target each other, both in combat. Beyond it the agent moves
    toward the target only when that target is already its [combatTarget];
    otherwise no agent changes. *)
Theorem handleCombatBehavior_engages_first_eligible (sqrt : Q -> Q) (cfg : LCConfig)
    (i t : nat) (rest : list nat) (w w1 : World) :
  (i < length (dwarfs w))%nat ->
  isAdult (nth i (dwarfs w) default_dwarf) = true ->
  qlt 0 (attackCooldown (nth i (dwarfs w) default_dwarf)) = false ->
  eligibleTargets cfg i (fst (getNearbyDwarfs sqrt i (lc_attackRange cfg * 2) w)) w
    = (t :: rest, w1) ->
  let d := nth i (dwarfs w) default_dwarf in
  let T := nth t (dwarfs w) default_dwarf in
  let w' := snd (handleCombatBehavior sqrt cfg i w) in
  In t (fst (getNearbyDwarfs sqrt i (lc_attackRange cfg * 2) w)) /\ t <> i
  /\ (qle (calculateDistance sqrt d T) (lc_attackRange cfg) = true ->
      lastAttacker (nth t (dwarfs w') default_dwarf) = Some i
      /\ combatTarget (nth t (dwarfs w') default_dwarf) = Some i
      /\ combatTarget (nth i (dwarfs w') default_dwarf) = Some t
      /\ isInCombat (nth i (dwarfs w') default_dwarf) = true
      /\ isInCombat (nth t (dwarfs w') default_dwarf) = true)
  /\ (qle (calculateDistance sqrt d T) (lc_attackRange cfg) = false ->
      combatTarget d = Some t ->
      handleCombatBehavior sqrt cfg i w = moveTowardsTarget sqrt i t w1)
  /\ (qle (calculateDistance sqrt d T) (lc_attackRange cfg) = false ->
      combatTarget d <> Some t -> dwarfs w' = dwarfs w).
Proof.
  intros Hi Had Hc He d T w'.
  pose proof (handleCombatBehavior_step sqrt cfg i t rest w w1 Had Hc He) as Hstep.
  destruct (eligibleTargets_keeps cfg i (fst (getNearbyDwarfs sqrt i (lc_attackRange cfg * 2) w)) w)
    as [Hk Hin].
  rewrite He in Hk, Hin; simpl in Hk, Hin.
  destruct (Hin t (or_introl eq_refl)) as [Hnear Hti].
  destruct (getNearbyDwarfs_in sqrt i _ w t Hnear) as [Ht _].
  rewrite Hk in Hstep. subst w'. fold d T in Hstep.
  split; [exact Hnear|split; [exact Hti|]].
  destruct (qle (calculateDistance sqrt d T) (lc_attackRange cfg)) eqn:Eq.
  - split; [|split; intro H; discriminate].
    intros _. rewrite Hstep.
    apply performAttack_links; rewrite ?Hk; auto.
  - split; [intro H; discriminate|].
    split.
    + intros _ Hct. rewrite Hstep.
      rewrite (proj2 (opt_nat_eqb_true _ _) Hct). reflexivity.
    + intros _ Hct. rewrite Hstep.
      destruct (opt_nat_eqb (combatTarget d) (Some t)) eqn:Eo.
      * apply opt_nat_eqb_true in Eo; contradiction.
      * simpl. exact Hk.
Qed.

Lemma handleCombatBehavior_engages_first_eligible_witness :
  In 1%nat (fst (getNearbyDwarfs qsqrt 0 (lc_attackRange default_lc_config * 2) near_world))
  /\ lastAttacker (nth 1 (dwarfs (snd (handleCombatBehavior qsqrt default_lc_config 0 near_world)))
                        default_dwarf) = Some 0%nat.
Proof.
  destruct (handleCombatBehavior_engages_first_eligible qsqrt default_lc_config 0 1 [2%nat] near_world
              (snd (eligibleTargets default_lc_config 0
                      (fst (getNearbyDwarfs qsqrt 0 (lc_attackRange default_lc_config * 2) near_world))
                      near_world))
              ltac:(simpl; lia) eq_refl eq_refl eq_refl) as (H1 & _ & H3 & _).
  split; [exact H1|].
  exact (proj1 (H3 eq_refl)).
Defined.

(** C6: the agent attacks the first eligible target in population order,
    not the nearest. Agent 0 has two eligible rivals within the attack
    range: agent 1 at distance 18, listed first, and agent 2 at distance 5.
    It attacks agent 1, and agent 2 is left exactly as it was. *)
Theorem combat_attacks_first_not_nearest :
  let w := near_world in
  let w' := snd (handleCombatBehavior qsqrt default_lc_config 0 w) in
  let d := nth 0 (dwarfs w) default_dwarf in
  fst (eligibleTargets default_lc_config 0
         (fst (getNearbyDwarfs qsqrt 0 (lc_attackRange default_lc_config * 2) w)) w)
    = [1%nat; 2%nat]
  /\ calculateDistance qsqrt d (nth 1 (dwarfs w) default_dwarf) = 18
  /\ calculateDistance qsqrt d (nth 2 (dwarfs w) default_dwarf) = 5
  /\ combatTarget (nth 0 (dwarfs w') default_dwarf) = Some 1%nat
  /\ lastAttacker (nth 1 (dwarfs w') default_dwarf) = Some 0%nat
  /\ nth 2 (dwarfs w') default_dwarf = nth 2 (dwarfs w) default_dwarf.
Proof. vm_compute. repeat split; reflexivity. Qed.

(** ** Visual effects: the backward splice loops *)


Lemma remove_at_mid {A : Type} (p s : list A) (a : A) :
  remove_at (length p) (app p (a :: s)) = app p s.
Proof.
  unfold remove_at. rewrite firstn_app, firstn_all, Nat.sub_diag, firstn_O, app_nil_r.
  rewrite skipn_app. replace (S (length p) - length p)%nat with 1%nat by lia.
  rewrite skipn_all2 by lia. reflexivity.
Qed.

Lemma update_nth_mid {A : Type} (p s : list A) (a : A) (f : A -> A) :
  update_nth (length p) f (app p (a :: s)) = app p (f a :: s).
Proof. induction p as [|b p IH]; simpl; [reflexivity|rewrite IH; reflexivity]. Qed.

Lemma sweep_from_app {A : Type} (step : A -> A) (expired : A -> bool) (n : nat) :
  forall p s, length p = n ->
  sweep_from step expired n (app p s) = app (filter (fun a => negb (expired a)) (map step p)) s.
Proof.
  induction n as [|n IH]; intros p s Hp.
  - destruct p; [reflexivity|discriminate].
  - destruct (exists_last (l := p)) as [p' [a ->]]; [intros ->; discriminate|].
    rewrite length_app in Hp; simpl in Hp.
    simpl. rewrite <- app_assoc. simpl.
    assert (n = length p') by lia; subst n.
    rewrite nth_error_app2 by lia. rewrite Nat.sub_diag. simpl.
    rewrite map_app, filter_app. simpl.
    destruct (expired (step a)) eqn:E; simpl.
    + rewrite remove_at_mid, IH by lia. rewrite app_nil_r. reflexivity.
    + rewrite update_nth_mid, IH by lia. rewrite <- app_assoc. reflexivity.
Qed.

Lemma sweep_spec {A : Type} (step : A -> A) (expired : A -> bool) (l : list A) :
  sweep step expired l = filter (fun a => negb (expired a)) (map step l).
Proof.
  unfold sweep. rewrite <- (app_nil_r l) at 2. rewrite sweep_from_app by reflexivity.
  apply app_nil_r.
Qed.


Lemma filter_map_filter {A : Type} (step : A -> A) (expired : A -> bool)
    (Hmono : forall a, expired a = true -> expired (step a) = true) (l : list A) :
  filter (fun a => negb (expired a)) (map step (filter (fun a => negb (expired a)) l))
  = filter (fun a => negb (expired a)) (map step l).
Proof.
  induction l as [|a l IH]; simpl; [reflexivity|].
  destruct (expired a) eqn:E; simpl.
  - rewrite (Hmono a E); simpl; exact IH.
  - destruct (expired (step a)); simpl; rewrite IH; reflexivity.
Qed.

Lemma sweep_iter {A : Type} (step : A -> A) (expired : A -> bool)
    (Hmono : forall a, expired a = true -> expired (step a) = true) (n : nat) (l : list A) :
  Nat.iter (S n) (sweep step expired) l
  = filter (fun a => negb (expired a)) (map (Nat.iter (S n) step) l).
Proof.
  induction n as [|n IH].
  - simpl. apply sweep_spec.
  - change (Nat.iter (S (S n)) (sweep step expired) l)
      with (sweep step expired (Nat.iter (S n) (sweep step expired) l)).
    rewrite IH, sweep_spec, filter_map_filter by exact Hmono.
    rewrite map_map. reflexivity.
Qed.

Lemma Qle_bool_compat (a b c d : Q) : a == c -> b == d -> Qle_bool a b = Qle_bool c d.
Proof.
  intros H1 H2. destruct (Qle_bool c d) eqn:E.
  - apply Qle_bool_iff; apply Qle_bool_iff in E; rewrite H1, H2; exact E.
  - apply not_true_iff_false; intro F; apply Qle_bool_iff in F.
    rewrite H1, H2 in F; apply Qle_bool_iff in F; congruence.
Qed.

Lemma qle_compat (a b c d : Q) : a == c -> b == d -> qle a b = qle c d.
Proof. apply Qle_bool_compat. Qed.

Lemma qmax_compat (a b c d : Q) : a == c -> b == d -> qmax a b == qmax c d.
Proof. intros H1 H2; unfold qmax; rewrite (qle_compat b a d c) by assumption.
  destruct (qle d c); assumption. Qed.

Lemma inject_S (n : nat) : inject_Z (Z.of_nat (S n)) == inject_Z (Z.of_nat n) + 1.
Proof. rewrite Nat2Z.inj_succ, <- Z.add_1_r, inject_Z_plus. reflexivity. Qed.

Lemma age_skull_iter (n : nat) (s : Skull) :
  sk_age (Nat.iter n age_skull s) == sk_age s + inject_Z (Z.of_nat n)
  /\ sk_maxAge (Nat.iter n age_skull s) = sk_maxAge s
  /\ sk_x (Nat.iter n age_skull s) = sk_x s
  /\ sk_y (Nat.iter n age_skull s) = sk_y s
  /\ sk_name (Nat.iter n age_skull s) = sk_name s
  /\ (n <> 0%nat -> sk_opacity (Nat.iter n age_skull s)
                    == qmax 0 (1 - (sk_age s + inject_Z (Z.of_nat n)) / sk_maxAge s)).
Proof.
  induction n as [|n (IHa & IHm & IHx & IHy & IHn & _)].
  - simpl; repeat split; try reflexivity; [ring | intros []; reflexivity].
  - simpl Nat.iter. unfold age_skull at 1. simpl.
    assert (Ha : sk_age (Nat.iter n age_skull s) + 1 == sk_age s + inject_Z (Z.of_nat (S n))).
    { rewrite IHa, inject_S; ring. }
    repeat split; auto. intros _. rewrite IHm.
    apply qmax_compat; [reflexivity|]. rewrite Ha. reflexivity.
Qed.


Lemma qle_injZ (a b : Z) : qle (inject_Z a) (inject_Z b) = Z.leb a b.
Proof.
  unfold qle. destruct (Z.leb a b) eqn:E.
  - apply Qle_bool_iff. rewrite <- Zle_Qle. apply Z.leb_le in E. lia.
  - apply not_true_iff_false; intro F. apply Qle_bool_iff in F. rewrite <- Zle_Qle in F.
    apply Z.leb_gt in E. lia.
Qed.

(** A skull made by [createSkull] stays at the death place and fades
    linearly: after [k] runs of [updateSkulls] (1 <= k < 18000) it is still
    there with age [k] and opacity [1 - k/18000]; from the 18000th run on it
    is gone. *)
Theorem skull_fades_and_expires (d : Dwarf) (k : nat) :
  (1 <= k)%nat ->
  match Nat.iter k updateSkulls [createSkull d] with
  | [] => (18000 <= Z.of_nat k)%Z
  | [s] => (Z.of_nat k < 18000)%Z /\ sk_age s == inject_Z (Z.of_nat k)
           /\ sk_opacity s == 1 - inject_Z (Z.of_nat k) / 18000
           /\ sk_x s = x d /\ sk_y s = y d
  | _ => False
  end.
Proof.
  intros Hk. destruct k as [|n]; [lia|].
  unfold updateSkulls. rewrite sweep_iter.
  2:{ unfold skull_expired, age_skull; intros s Hs; simpl.
      apply Qle_bool_iff; apply Qle_bool_iff in Hs. lra. }
  destruct (age_skull_iter (S n) (createSkull d)) as (Ha & Hm & Hx & Hy & _ & Ho).
  change (map (Nat.iter (S n) age_skull) [createSkull d])
    with [Nat.iter (S n) age_skull (createSkull d)].
  revert Ha Hm Hx Hy Ho. generalize (Nat.iter (S n) age_skull (createSkull d)) as s.
  intros s Ha Hm Hx Hy Ho. cbn [createSkull sk_age sk_maxAge sk_x sk_y] in Ha, Hm, Hx, Hy, Ho.
  cbn [filter]. unfold skull_expired.
  assert (H1 : sk_maxAge s == inject_Z 18000) by (rewrite Hm; reflexivity).
  assert (H2 : sk_age s == inject_Z (Z.of_nat (S n))) by (rewrite Ha; ring).
  rewrite (qle_compat _ _ _ _ H1 H2).
  rewrite qle_injZ.
  destruct (Z.leb 18000 (Z.of_nat (S n))) eqn:E; simpl.
  - apply Z.leb_le in E; exact E.
  - apply Z.leb_gt in E. refine (conj E (conj H2 (conj _ (conj Hx Hy)))).
    + rewrite Ho by lia. unfold qmax.
      destruct (qle (1 - (0 + inject_Z (Z.of_nat (S n))) / 18000) 0) eqn:F.
      * apply Qle_bool_iff in F. rewrite Qplus_0_l in F. exfalso.
        assert (Hlt : inject_Z (Z.of_nat (S n)) < inject_Z 18000) by (rewrite <- Zlt_Qlt; lia).
        assert (inject_Z (Z.of_nat (S n)) / 18000 < 1).
        { apply Qlt_shift_div_r; [reflexivity|]. change (inject_Z 18000) with 18000 in Hlt. lra. }
        lra.
      * cbv beta iota. rewrite Qplus_0_l. reflexivity.
Qed.



Lemma filter_map_comm {A : Type} (f : A -> A) (p : A -> bool) (l : list A) :
  filter p (map f l) = map f (filter (fun a => p (f a)) l).
Proof. induction l as [|a l IH]; simpl; [reflexivity|]. destruct (p (f a)); simpl; rewrite IH; reflexivity. Qed.

Lemma filter_ext_bool {A : Type} (p q : A -> bool) (l : list A) :
  (forall a, p a = q a) -> filter p l = filter q l.
Proof. intros H; induction l as [|a l IH]; simpl; [reflexivity|]. rewrite H, IH; reflexivity. Qed.

Lemma qle_sub_0 (t k : Q) : qle (t - k) 0 = qle t k.
Proof.
  unfold qle. destruct (Qle_bool t k) eqn:E.
  - apply Qle_bool_iff in E; apply Qle_bool_iff; lra.
  - apply not_true_iff_false; intro F; apply Qle_bool_iff in F.
    assert (t <= k) by lra. apply Qle_bool_iff in H; congruence.
Qed.

Lemma tick_effect_iter (n : nat) (e : Effect) :
  ef_timer (Nat.iter n tick_effect e) == ef_timer e - inject_Z (Z.of_nat n)
  /\ ef_x (Nat.iter n tick_effect e) = ef_x e /\ ef_y (Nat.iter n tick_effect e) = ef_y e
  /\ ef_label (Nat.iter n tick_effect e) = ef_label e.
Proof.
  induction n as [|n (IHt & IHx & IHy & IHl)]; [simpl; repeat split; try reflexivity; ring|].
  simpl Nat.iter; unfold tick_effect at 1; cbn [ef_timer ef_x ef_y ef_label].
  refine (conj _ (conj IHx (conj IHy IHl))). rewrite IHt, inject_S; ring.
Qed.

Lemma updateEffects_iter (n : nat) (fx : list Effect * list Effect) :
  Nat.iter n updateEffects fx
  = (Nat.iter n (sweep tick_effect effect_expired) (fst fx),
     Nat.iter n (sweep tick_effect effect_expired) (snd fx)).
Proof. induction n as [|n IH]; [destruct fx; reflexivity|]. simpl; rewrite IH; reflexivity. Qed.

Lemma effect_sweep_iter (k : nat) (l : list Effect) :
  (1 <= k)%nat ->
  Nat.iter k (sweep tick_effect effect_expired) l
  = map (Nat.iter k tick_effect) (filter (fun e => qlt (inject_Z (Z.of_nat k)) (ef_timer e)) l).
Proof.
  intros Hk; destruct k as [|n]; [lia|].
  rewrite sweep_iter.
  2:{ unfold effect_expired, tick_effect; intros e He; simpl.
      apply Qle_bool_iff; apply Qle_bool_iff in He. lra. }
  rewrite filter_map_comm. f_equal. apply filter_ext_bool. intros e.
  unfold effect_expired. destruct (tick_effect_iter (S n) e) as (Ht & _).
  rewrite (qle_compat _ _ (ef_timer e - inject_Z (Z.of_nat (S n))) 0 Ht (Qeq_refl 0)).
  rewrite qle_sub_0. reflexivity.
Qed.

(** [k >= 1] runs of [updateEffects] keep, in order, exactly the combat
    and death effects whose timer exceeds [k], each with its timer lowered
    by [k]. *)
Theorem updateEffects_expire_by_timer (k : nat) (fx : list Effect * list Effect) :
  (1 <= k)%nat ->
  Nat.iter k updateEffects fx
  = (map (Nat.iter k tick_effect)
         (filter (fun e => qlt (inject_Z (Z.of_nat k)) (ef_timer e)) (fst fx)),
     map (Nat.iter k tick_effect)
         (filter (fun e => qlt (inject_Z (Z.of_nat k)) (ef_timer e)) (snd fx)))
  /\ forall e, ef_timer (Nat.iter k tick_effect e) == ef_timer e - inject_Z (Z.of_nat k).
Proof.
  intros Hk. split.
  - rewrite updateEffects_iter, !effect_sweep_iter by exact Hk. reflexivity.
  - intros e; apply tick_effect_iter.
Qed.

Lemma tick_damage_iter (n : nat) (d : DamageNumber) :
  dn_timer (Nat.iter n tick_damage d) == dn_timer d - inject_Z (Z.of_nat n)
  /\ dn_x (Nat.iter n tick_damage d) == dn_x d + inject_Z (Z.of_nat n) * dn_vx d
  /\ dn_y (Nat.iter n tick_damage d)
     == dn_y d + inject_Z (Z.of_nat n) * dn_vy d
        + inject_Z (Z.of_nat n) * (inject_Z (Z.of_nat n) - 1) / 20
  /\ dn_vy (Nat.iter n tick_damage d) == dn_vy d + inject_Z (Z.of_nat n) / 10
  /\ dn_vx (Nat.iter n tick_damage d) = dn_vx d
  /\ dn_damage (Nat.iter n tick_damage d) = dn_damage d
  /\ dn_isCritical (Nat.iter n tick_damage d) = dn_isCritical d.
Proof.
  induction n as [|n (IHt & IHx & IHy & IHv & IHvx & IHd & IHc)].
  - simpl; refine (conj _ (conj _ (conj _ (conj _ (conj eq_refl (conj eq_refl eq_refl))))));
      field.
  - simpl Nat.iter; set (z := Nat.iter n tick_damage d) in *; unfold tick_damage;
      cbn [dn_timer dn_x dn_y dn_vy dn_vx dn_damage dn_isCritical].
    refine (conj _ (conj _ (conj _ (conj _ (conj IHvx (conj IHd IHc)))))); rewrite inject_S.
    + rewrite IHt; ring.
    + rewrite IHx, IHvx; ring.
    + rewrite IHy, IHv; field.
    + rewrite IHv; field.
Qed.

Lemma updateDamageNumbers_iter (n : nat) (l : list DamageNumber) :
  Nat.iter n updateDamageNumbers (Some l) = Some (Nat.iter n (sweep tick_damage damage_expired) l).
Proof. induction n as [|n IH]; [reflexivity|]. simpl; rewrite IH; reflexivity. Qed.

(** [k >= 1] runs of [updateDamageNumbers] keep, in order, exactly the
    numbers whose timer exceeds [k]; each has moved by [k] horizontal steps
    and fallen along a parabola (the vertical speed grows by 0.1 per run). *)
Theorem damage_numbers_fall_and_expire (k : nat) (l : list DamageNumber) :
  (1 <= k)%nat ->
  Nat.iter k updateDamageNumbers (Some l)
  = Some (map (Nat.iter k tick_damage)
              (filter (fun n => qlt (inject_Z (Z.of_nat k)) (dn_timer n)) l))
  /\ forall n,
     dn_x (Nat.iter k tick_damage n) == dn_x n + inject_Z (Z.of_nat k) * dn_vx n
     /\ dn_y (Nat.iter k tick_damage n)
        == dn_y n + inject_Z (Z.of_nat k) * dn_vy n
           + inject_Z (Z.of_nat k) * (inject_Z (Z.of_nat k) - 1) / 20
     /\ dn_timer (Nat.iter k tick_damage n) == dn_timer n - inject_Z (Z.of_nat k).
Proof.
  intros Hk. split.
  - rewrite updateDamageNumbers_iter. f_equal.
    destruct k as [|m]; [lia|]. rewrite sweep_iter.
    2:{ unfold damage_expired, tick_damage; intros e He; simpl.
        apply Qle_bool_iff; apply Qle_bool_iff in He. lra. }
    rewrite filter_map_comm. f_equal. apply filter_ext_bool. intros e.
    unfold damage_expired. destruct (tick_damage_iter (S m) e) as (Ht & _).
    rewrite (qle_compat _ _ (dn_timer e - inject_Z (Z.of_nat (S m))) 0 Ht (Qeq_refl 0)).
    rewrite qle_sub_0. reflexivity.
  - intros n. destruct (tick_damage_iter k n) as (Ht & Hx & Hy & _).
    exact (conj Hx (conj Hy Ht)).
Qed.


(** ** Event bus: listener order and history *)

Lemma filter_none {A : Type} (p : A -> bool) (l : list A) :
  (forall a, In a l -> p a = false) -> filter p l = [].
Proof. induction l as [|a l IH]; intros H; simpl; [reflexivity|].
  rewrite (H a (or_introl eq_refl)); apply IH; intros b Hb; apply H; right; exact Hb. Qed.

Lemma Forall_filter_keep {A : Type} (P : A -> Prop) (f : A -> bool) (l : list A) :
  Forall P l -> Forall P (filter f l).
Proof. intros H; induction H as [|a l Ha Hl IH]; simpl; [constructor|].
  destruct (f a); [constructor; assumption|exact IH]. Qed.

Section BusExtra.
Import EventBus.
Variable Data : Type.

Lemma prio_sorted_cons (a : Listener) (ls : list Listener) :
  prio_sorted (a :: ls) <-> Forall (fun b => (priority b <= priority a)%Z) ls /\ prio_sorted ls.
Proof.
  revert a; induction ls as [|b ls IH]; intros a; simpl; [split; auto|].
  split.
  - intros [Hba Hs]. split; [|exact Hs]. constructor; [exact Hba|].
    apply IH in Hs as [Hf _]. eapply Forall_impl; [|exact Hf]. intros c Hc; simpl in Hc; lia.
  - intros [Hf Hs]. inversion Hf; subst. split; auto.
Qed.

Lemma insert_by_priority_split (l : Listener) (ls : list Listener) :
  prio_sorted ls ->
  insert_by_priority l ls
  = app (filter (fun l' => (priority l <=? priority l')%Z) ls)
        (l :: filter (fun l' => (priority l' <? priority l)%Z) ls).
Proof.
  induction ls as [|a ls IH]; intros Hs; simpl; [reflexivity|].
  apply prio_sorted_cons in Hs as [Hf Hs].
  destruct (priority a <? priority l)%Z eqn:E.
  - apply Z.ltb_lt in E.
    assert (H1 : (priority l <=? priority a)%Z = false) by (apply Z.leb_gt; lia). rewrite H1.
    assert (H2 : filter (fun l' => (priority l <=? priority l')%Z) ls = []).
    { apply filter_none; intros b Hb.
      rewrite Forall_forall in Hf; specialize (Hf b Hb). apply Z.leb_gt; lia. }
    assert (H3 : filter (fun l' => (priority l' <? priority l)%Z) ls = ls).
    { apply forallb_filter_id, forallb_forall; intros b Hb.
      rewrite Forall_forall in Hf; specialize (Hf b Hb). apply Z.ltb_lt; lia. }
    rewrite H2, H3; reflexivity.
  - apply Z.ltb_ge in E.
    assert (H1 : (priority l <=? priority a)%Z = true) by (apply Z.leb_le; lia). rewrite H1.
    rewrite IH by exact Hs. reflexivity.
Qed.

Lemma insert_by_priority_sorted (l : Listener) (ls : list Listener) :
  prio_sorted ls -> prio_sorted (insert_by_priority l ls).
Proof.
  induction ls as [|a ls IH]; intros Hs; simpl; [exact I|].
  destruct (priority a <? priority l)%Z eqn:E.
  - apply Z.ltb_lt in E. change (prio_sorted (l :: a :: ls)). simpl. split; [lia|exact Hs].
  - apply Z.ltb_ge in E. apply prio_sorted_cons in Hs as [Hf Hs].
    apply prio_sorted_cons. split; [|apply IH, Hs].
    rewrite insert_by_priority_split by exact Hs.
    apply Forall_app; split; [apply Forall_filter_keep; exact Hf|].
    constructor; [lia|apply Forall_filter_keep; exact Hf].
Qed.

Lemma sort_by_priority_sorted (ls : list Listener) : prio_sorted (sort_by_priority ls).
Proof.
  unfold sort_by_priority. assert (H : prio_sorted []) by exact I. revert H.
  generalize (@nil Listener). induction ls as [|a ls IH]; intros acc Hacc; simpl; [exact Hacc|].
  apply IH, insert_by_priority_sorted, Hacc.
Qed.

Lemma sort_by_priority_snoc (ls : list Listener) (l : Listener) :
  sort_by_priority (app ls [l]) = insert_by_priority l (sort_by_priority ls).
Proof. unfold sort_by_priority; rewrite fold_left_app; reflexivity. Qed.

Lemma prio_sorted_snoc (ls : list Listener) (l : Listener) :
  prio_sorted (app ls [l]) ->
  prio_sorted ls /\ Forall (fun b => (priority l <= priority b)%Z) ls.
Proof.
  induction ls as [|a ls IH]; intros H; simpl; [split; [exact I|constructor]|].
  apply prio_sorted_cons in H as [Hf Hs]. destruct (IH Hs) as [H1 H2].
  apply Forall_app in Hf as [Hf1 Hf2]. inversion Hf2; subst.
  split; [apply prio_sorted_cons; split; assumption|constructor; assumption].
Qed.

Lemma sort_by_priority_id (ls : list Listener) : prio_sorted ls -> sort_by_priority ls = ls.
Proof.
  induction ls as [|l ls IH] using rev_ind; intros H; [reflexivity|].
  destruct (prio_sorted_snoc ls l H) as [Hs Hf].
  rewrite sort_by_priority_snoc, IH, insert_by_priority_split by exact Hs.
  rewrite forallb_filter_id.
  2:{ apply forallb_forall; intros b Hb. rewrite Forall_forall in Hf. apply Z.leb_le, Hf, Hb. }
  rewrite filter_none; [reflexivity|].
  intros b Hb. rewrite Forall_forall in Hf. apply Z.ltb_ge, Hf, Hb.
Qed.

Lemma lookup_map_set {A : Type} (m : list (string * A)) (k : string) (v : A) :
  lookup (map_set m k v) k = Some v.
Proof.
  induction m as [|[k' v'] m IH]; simpl; [rewrite String.eqb_refl; reflexivity|].
  destruct (String.eqb k k') eqn:E; simpl; rewrite E; [reflexivity|exact IH].
Qed.

Lemma map_set_absent {A : Type} (m : list (string * A)) (k : string) (v : A) :
  lookup m k = None -> map_set m k v = app m [(k, v)].
Proof.
  induction m as [|[k' v'] m IH]; simpl; [reflexivity|].
  destruct (String.eqb k k'); [discriminate|intros H; rewrite IH by exact H; reflexivity].
Qed.

Lemma map_delete_snoc {A : Type} (m : list (string * A)) (k : string) (v : A) :
  lookup m k = None -> map_delete (app m [(k, v)]) k = m.
Proof.
  induction m as [|[k' v'] m IH]; simpl; [rewrite String.eqb_refl; reflexivity|].
  destruct (String.eqb k k'); [discriminate|intros H; rewrite IH by exact H; reflexivity].
Qed.

Lemma map_set_twice {A : Type} (m : list (string * A)) (k : string) (v v' : A) :
  map_set (map_set m k v) k v' = map_set m k v'.
Proof.
  induction m as [|[k0 v0] m IH]; simpl; [rewrite String.eqb_refl; reflexivity|].
  destruct (String.eqb k k0) eqn:E; simpl; rewrite E; [reflexivity|rewrite IH; reflexivity].
Qed.

Lemma map_set_same {A : Type} (m : list (string * A)) (k : string) (v : A) :
  lookup m k = Some v -> map_set m k v = m.
Proof.
  induction m as [|[k0 v0] m IH]; simpl; [discriminate|].
  destruct (String.eqb k k0) eqn:E.
  - intros H; injection H as ->. apply String.eqb_eq in E; subst; reflexivity.
  - intros H; rewrite IH by exact H; reflexivity.
Qed.

Lemma remove_first_insert (cb : nat) (l : Listener) (ls : list Listener) :
  ~ In cb (map callback ls) -> callback l = cb ->
  remove_first cb (insert_by_priority l ls) = ls.
Proof.
  intros Hn Hl. induction ls as [|a ls IH]; simpl.
  - rewrite Hl, Nat.eqb_refl; reflexivity.
  - simpl in Hn. destruct (priority a <? priority l)%Z; simpl.
    + rewrite Hl, Nat.eqb_refl; reflexivity.
    + destruct (Nat.eqb (callback a) cb) eqn:E.
      * apply Nat.eqb_eq in E; tauto.
      * rewrite IH by tauto; reflexivity.
Qed.

Lemma Forall_remove_first (P : Listener -> Prop) (cb : nat) (ls : list Listener) :
  Forall P ls -> Forall P (remove_first cb ls).
Proof.
  intros H; induction H as [|a ls Ha Hl IH]; simpl; [constructor|].
  destruct (Nat.eqb (callback a) cb); [exact Hl|constructor; assumption].
Qed.

Lemma remove_first_sorted (cb : nat) (ls : list Listener) :
  prio_sorted ls -> prio_sorted (remove_first cb ls).
Proof.
  induction ls as [|a ls IH]; intros H; simpl; [exact I|].
  apply prio_sorted_cons in H as [Hf Hs].
  destruct (Nat.eqb (callback a) cb); [exact Hs|].
  apply prio_sorted_cons; split; [apply Forall_remove_first, Hf|apply IH, Hs].
Qed.

Lemma Forall_map_set {A : Type} (P : A -> Prop) (m : list (string * A)) (k : string) (v : A) :
  Forall (fun e => P (snd e)) m -> P v -> Forall (fun e => P (snd e)) (map_set m k v).
Proof.
  intros H Hv; induction H as [|[k0 v0] m H0 Hm IH]; simpl; [constructor; [exact Hv|constructor]|].
  destruct (String.eqb k k0); constructor; auto.
Qed.

Lemma Forall_map_delete {A : Type} (P : A -> Prop) (m : list (string * A)) (k : string) :
  Forall (fun e => P (snd e)) m -> Forall (fun e => P (snd e)) (map_delete m k).
Proof.
  intros H; induction H as [|[k0 v0] m H0 Hm IH]; simpl; [constructor|].
  destruct (String.eqb k k0); [exact Hm|constructor; auto].
Qed.

Lemma lookup_Forall {A : Type} (P : A -> Prop) (m : list (string * A)) (k : string) (v : A) :
  Forall (fun e => P (snd e)) m -> lookup m k = Some v -> P v.
Proof.
  intros H; induction H as [|[k0 v0] m H0 Hm IH]; simpl; [discriminate|].
  destruct (String.eqb k k0); [intros E; injection E as <-; exact H0|exact IH].
Qed.

(** On a listener array kept sorted, [subscribe] places the new listener
    after every listener of greater or equal priority and before the lower
    ones: equal priorities are served in subscription order. *)
Theorem subscribe_orders_by_priority (b : Bus Data) (ty : string) (cb : nat) (once_ : bool)
    (prio : Z) :
  let old := match lookup (listeners Data b) ty with Some ls => ls | None => [] end in
  prio_sorted old ->
  lookup (listeners Data (subscribe Data ty cb once_ prio b)) ty
  = Some (app (filter (fun l => (prio <=? priority l)%Z) old)
              (mkListener cb once_ prio :: filter (fun l => (priority l <? prio)%Z) old)).
Proof.
  intros old Hs. unfold subscribe. simpl. rewrite lookup_map_set. f_equal.
  fold old. rewrite sort_by_priority_snoc, sort_by_priority_id by exact Hs.
  rewrite insert_by_priority_split by exact Hs. reflexivity.
Qed.

(** [subscribe] and [unsubscribe] keep every listener array sorted by
    non-increasing priority. *)
Theorem subscribe_unsubscribe_keep_sorted (b : Bus Data) (ty : string) (cb : nat)
    (once_ : bool) (prio : Z) :
  Forall (fun e => prio_sorted (snd e)) (listeners Data b) ->
  Forall (fun e => prio_sorted (snd e)) (listeners Data (subscribe Data ty cb once_ prio b))
  /\ Forall (fun e => prio_sorted (snd e)) (listeners Data (unsubscribe Data ty cb b)).
Proof.
  intros H. split.
  - unfold subscribe; simpl. apply Forall_map_set; [exact H|apply sort_by_priority_sorted].
  - unfold unsubscribe. destruct (lookup (listeners Data b) ty) as [ls|] eqn:E; [|exact H].
    pose proof (remove_first_sorted cb ls (lookup_Forall _ _ _ _ H E)) as Hr.
    destruct (remove_first cb ls) as [|l' ls'] eqn:Er; simpl.
    + apply Forall_map_delete, H.
    + apply Forall_map_set; assumption.
Qed.

(** Unsubscribing a callback right after subscribing it, when it was not
    yet subscribed to that type, restores the listener map exactly (the
    type is removed again if it had no entry). *)
Theorem unsubscribe_undoes_subscribe (b : Bus Data) (ty : string) (cb : nat) (once_ : bool)
    (prio : Z) :
  let old := match lookup (listeners Data b) ty with Some ls => ls | None => [] end in
  prio_sorted old ->
  ~ In cb (map callback old) ->
  lookup (listeners Data b) ty <> Some [] ->
  listeners Data (unsubscribe Data ty cb (subscribe Data ty cb once_ prio b)) = listeners Data b.
Proof.
  intros old Hs Hn Hne. unfold unsubscribe. simpl. rewrite lookup_map_set.
  rewrite sort_by_priority_snoc, sort_by_priority_id by exact Hs.
  rewrite remove_first_insert by (exact Hn || reflexivity).
  unfold old in *. destruct (lookup (listeners Data b) ty) as [ls|] eqn:E.
  - destruct ls as [|l ls]; [congruence|]. simpl.
    rewrite map_set_twice, map_set_same by exact E. reflexivity.
  - simpl. rewrite map_set_absent by exact E. rewrite map_delete_snoc by exact E. reflexivity.
Qed.
End BusExtra.


Section HistExtra.
Import EventBus.
Variable Data : Type.

(** [_addToHistory] never lets the history grow beyond [maxHistorySize]
    and, with room for at least one event, the new event is the last one. *)
Theorem addToHistory_bounded (e : string * Data) (b : Bus Data) :
  (length (eventHistory Data b) <= maxHistorySize Data b)%nat ->
  (length (eventHistory Data (addToHistory Data e b)) <= maxHistorySize Data b)%nat
  /\ ((1 <= maxHistorySize Data b)%nat ->
      exists pre, eventHistory Data (addToHistory Data e b) = app pre [e]).
Proof.
  intros H. unfold addToHistory; simpl.
  destruct (Nat.ltb (maxHistorySize Data b) (length (app (eventHistory Data b) [e]))) eqn:E.
  - apply Nat.ltb_lt in E. rewrite length_app in E; simpl in E.
    destruct (eventHistory Data b) as [|h0 hs] eqn:Eh; simpl in *.
    + split; [lia|intros; lia].
    + rewrite length_app; simpl. split; [lia|intros _; exists hs; reflexivity].
  - apply Nat.ltb_ge in E. split; [exact E|intros _; eexists; reflexivity].
Qed.

Lemma skipn_length_suffix {A : Type} (n : nat) (l : list A) :
  exists pre, l = app pre (skipn (length l - n) l).
Proof. exists (firstn (length l - n) l). symmetry; apply firstn_skipn. Qed.

(** [getEventHistory(type, n)] with a non-empty type and [n > 0] returns the
    [min(n, m)] latest of the [m] recorded events of that type, in order. *)
Theorem getEventHistory_latest_of_type (ty : string) (n : nat) (b : Bus Data) :
  ty <> ""%string ->
  let r := getEventHistory (Some ty) (Some (S n)) b in
  (length r = Nat.min (S n) (length (filter (fun e => String.eqb (fst e) ty) (eventHistory Data b))))%nat
  /\ Forall (fun e => fst e = ty) r
  /\ exists pre, filter (fun e => String.eqb (fst e) ty) (eventHistory Data b) = app pre r.
Proof.
  intros Hty r. unfold r, getEventHistory.
  destruct (String.eqb ty "") eqn:E; [apply String.eqb_eq in E; contradiction|].
  set (h := filter _ _). repeat split.
  - rewrite length_skipn. lia.
  - apply Forall_forall; intros e He.     assert (He' : In e h) by (rewrite <- (firstn_skipn (length h - S n) h); apply in_or_app; right; exact He).
    clear He; rename He' into He.
    unfold h in He; apply filter_In in He as [_ He]. apply String.eqb_eq, He.
  - apply skipn_length_suffix.
Qed.

(** After an event is recorded, [getEventHistory(type, 1)] returns it. *)
Theorem addToHistory_then_latest (ty : string) (d : Data) (b : Bus Data) :
  ty <> ""%string -> (1 <= maxHistorySize Data b)%nat ->
  getEventHistory (Some ty) (Some 1%nat) (addToHistory Data (ty, d) b) = [(ty, d)].
Proof.
  intros Hty Hm. unfold getEventHistory, addToHistory; simpl.
  destruct (String.eqb ty "") eqn:E; [apply String.eqb_eq in E; contradiction|].
  assert (Hsuf : exists pre, (if Nat.ltb (maxHistorySize Data b)
                                 (length (app (eventHistory Data b) [(ty, d)]))
                              then tl (app (eventHistory Data b) [(ty, d)])
                              else app (eventHistory Data b) [(ty, d)]) = app pre [(ty, d)]).
  { destruct (Nat.ltb _ _) eqn:El; [|eexists; reflexivity].
    apply Nat.ltb_lt in El. rewrite length_app in El; simpl in El.
    destruct (eventHistory Data b) as [|h0 hs]; simpl in *; [lia|exists hs; reflexivity]. }
  destruct Hsuf as [pre ->]. rewrite filter_app. simpl. rewrite String.eqb_refl.
  rewrite length_app; simpl. replace (length (filter _ pre) + 1 - 1)%nat
    with (length (filter (fun e => String.eqb (fst e) ty) pre)) by lia.
  rewrite skipn_app, skipn_all, Nat.sub_diag. reflexivity.
Qed.
End HistExtra.

Lemma skull_fades_and_expires_witness :
  match Nat.iter 2 updateSkulls [createSkull (agent "A" Male 3 4)] with
  | [] => (18000 <= Z.of_nat 2)%Z
  | [s] => (Z.of_nat 2 < 18000)%Z /\ sk_age s == inject_Z (Z.of_nat 2)
           /\ sk_opacity s == 1 - inject_Z (Z.of_nat 2) / 18000
           /\ sk_x s = x (agent "A" Male 3 4) /\ sk_y s = y (agent "A" Male 3 4)
  | _ => False
  end.
Proof. apply (skull_fades_and_expires (agent "A" Male 3 4) 2); lia. Defined.

Lemma updateEffects_expire_by_timer_witness :
  Nat.iter 2 updateEffects ([mkEffect 0 0 30 "melee"], [mkEffect 0 0 2 "A"])
  = (map (Nat.iter 2 tick_effect)
         (filter (fun e => qlt (inject_Z (Z.of_nat 2)) (ef_timer e)) [mkEffect 0 0 30 "melee"]),
     map (Nat.iter 2 tick_effect)
         (filter (fun e => qlt (inject_Z (Z.of_nat 2)) (ef_timer e)) [mkEffect 0 0 2 "A"]))
  /\ forall e, ef_timer (Nat.iter 2 tick_effect e) == ef_timer e - inject_Z (Z.of_nat 2).
Proof. apply (updateEffects_expire_by_timer 2); lia. Defined.

Lemma damage_numbers_fall_and_expire_witness :
  Nat.iter 3 updateDamageNumbers (Some [mkDamageNumber 7 0 0 60 false 1 (-2)])
  = Some (map (Nat.iter 3 tick_damage)
              (filter (fun n => qlt (inject_Z (Z.of_nat 3)) (dn_timer n))
                      [mkDamageNumber 7 0 0 60 false 1 (-2)]))
  /\ forall n,
     dn_x (Nat.iter 3 tick_damage n) == dn_x n + inject_Z (Z.of_nat 3) * dn_vx n
     /\ dn_y (Nat.iter 3 tick_damage n)
        == dn_y n + inject_Z (Z.of_nat 3) * dn_vy n
           + inject_Z (Z.of_nat 3) * (inject_Z (Z.of_nat 3) - 1) / 20
     /\ dn_timer (Nat.iter 3 tick_damage n) == dn_timer n - inject_Z (Z.of_nat 3).
Proof. apply (damage_numbers_fall_and_expire 3); lia. Defined.

Lemma subscribe_orders_by_priority_witness :
  EventBus.lookup (EventBus.listeners nat (EventBus.subscribe nat "birth" 3 false 0 sample_bus)) "birth"
  = Some (app (filter (fun l => (0 <=? EventBus.priority l)%Z)
                 [EventBus.mkListener 1 false 5; EventBus.mkListener 2 true 0])
              (EventBus.mkListener 3 false 0
                 :: filter (fun l => (EventBus.priority l <? 0)%Z)
                      [EventBus.mkListener 1 false 5; EventBus.mkListener 2 true 0])).
Proof. apply (subscribe_orders_by_priority nat sample_bus "birth" 3 false 0). simpl. lia. Defined.

Lemma subscribe_unsubscribe_keep_sorted_witness :
  Forall (fun e => prio_sorted (snd e))
    (EventBus.listeners nat (EventBus.subscribe nat "birth" 3 false 9 sample_bus))
  /\ Forall (fun e => prio_sorted (snd e))
    (EventBus.listeners nat (EventBus.unsubscribe nat "birth" 3 sample_bus)).
Proof.
  apply (subscribe_unsubscribe_keep_sorted nat sample_bus "birth" 3 false 9).
  repeat constructor; simpl; lia.
Defined.

Lemma unsubscribe_undoes_subscribe_witness :
  EventBus.listeners nat
    (EventBus.unsubscribe nat "birth" 3 (EventBus.subscribe nat "birth" 3 true 5 sample_bus))
  = EventBus.listeners nat sample_bus.
Proof.
  apply (unsubscribe_undoes_subscribe nat sample_bus "birth" 3 true 5).
  - simpl; lia.
  - simpl; lia.
  - discriminate.
Defined.

Lemma addToHistory_bounded_witness :
  (length (EventBus.eventHistory nat (EventBus.addToHistory nat ("birth", 1%nat) sample_bus))
     <= EventBus.maxHistorySize nat sample_bus)%nat
  /\ ((1 <= EventBus.maxHistorySize nat sample_bus)%nat ->
      exists pre, EventBus.eventHistory nat (EventBus.addToHistory nat ("birth", 1%nat) sample_bus)
                  = app pre [("birth", 1%nat)]).
Proof. apply (addToHistory_bounded nat ("birth", 1%nat) sample_bus); simpl; lia. Defined.

Lemma getEventHistory_latest_of_type_witness :
  (length (getEventHistory (Some "birth") (Some 2%nat) sample_bus)
   = Nat.min 2 (length (filter (fun e => String.eqb (fst e) "birth")
                          (EventBus.eventHistory nat sample_bus))))%nat
  /\ Forall (fun e => fst e = "birth") (getEventHistory (Some "birth") (Some 2%nat) sample_bus)
  /\ exists pre, filter (fun e => String.eqb (fst e) "birth") (EventBus.eventHistory nat sample_bus)
                 = app pre (getEventHistory (Some "birth") (Some 2%nat) sample_bus).
Proof. apply (getEventHistory_latest_of_type nat "birth" 1 sample_bus); discriminate. Defined.

Lemma addToHistory_then_latest_witness :
  getEventHistory (Some "birth") (Some 1%nat) (EventBus.addToHistory nat ("birth", 4%nat) sample_bus)
  = [("birth", 4%nat)].
Proof.
  apply (addToHistory_then_latest nat "birth" 4%nat sample_bus); [discriminate|simpl; lia].
Defined.

(** ** Combat, healing and aging steps *)

Lemma Qfloor_nonneg (q : Q) : 0 <= q -> (0 <= Qfloor q)%Z.
Proof. intros H. change 0%Z with (Qfloor 0). apply Qfloor_resp_le, H. Qed.

(** performAttack: when the attacker is off cooldown, it lowers the target's health by a whole non-negative number of points, adds the same amount to totalDamageDealt, counts one more combat and leaves totalDeaths unchanged. *)
Theorem performAttack_deals_whole_damage (cfg : LCConfig) (a t : nat) (w : World)
    (r1 r2 : Q) (rs : list Q) :
  a <> t -> (a < length (dwarfs w))%nat -> (t < length (dwarfs w))%nat ->
  qlt 0 (attackCooldown (nth a (dwarfs w) default_dwarf)) = false ->
  rng w = r1 :: r2 :: rs -> 0 <= r1 ->
  0 <= lc_baseDamage cfg -> 0 <= lc_damageVariance cfg -> 0 <= lc_criticalMultiplier cfg ->
  0 <= cs_attack (combatStats (nth a (dwarfs w) default_dwarf)) ->
  0 < cs_defense (combatStats (nth t (dwarfs w) default_dwarf)) ->
  let w' := snd (performAttack cfg a t w) in
  exists z : Z, (0 <= z)%Z
    /\ health (nth t (dwarfs w') default_dwarf)
       = option_map (fun h => h - inject_Z z) (health (nth t (dwarfs w) default_dwarf))
    /\ totalDamageDealt (lcstats w') = totalDamageDealt (lcstats w) + inject_Z z
    /\ totalCombats (lcstats w') = S (totalCombats (lcstats w))
    /\ totalDeaths (lcstats w') = totalDeaths (lcstats w).
Proof.
  intros Hat Ha Ht Hc Hr H1 Hb Hv Hm Hatk Hdef w'. subst w'.
  set (A := nth a (dwarfs w) default_dwarf) in *.
  set (T := nth t (dwarfs w) default_dwarf) in *.
  set (dmg := (lc_baseDamage cfg + r1 * lc_damageVariance cfg) * cs_attack (combatStats A)
              / cs_defense (combatStats T)).
  assert (Hd : 0 <= dmg).
  { unfold dmg. apply Qle_shift_div_l; [exact Hdef|]. rewrite Qmult_0_l.
    apply Qmult_le_0_compat; [|exact Hatk].
    assert (0 <= r1 * lc_damageVariance cfg) by (apply Qmult_le_0_compat; assumption). lra. }
  exists (Qfloor (if qlt r2 (lc_criticalChance cfg + cs_critChance (combatStats A))
                  then dmg * lc_criticalMultiplier cfg else dmg)).
  split.
  { apply Qfloor_nonneg.
    destruct (qlt r2 (lc_criticalChance cfg + cs_critChance (combatStats A)));
      [apply Qmult_le_0_compat|]; assumption. }
  unfold performAttack, bind, getD, modifyD, random, skip, ret.
  cbv beta iota zeta. fold A. rewrite Hc. simpl. rewrite Hr. simpl.
  repeat match goal with
  | |- context [match rng ?w with _ => _ end] => destruct (rng w)
  | |- context [if ?b then _ else _] => destruct b
  end; simpl;
  repeat first [ rewrite nth_update_nth_neq by congruence
               | rewrite nth_update_nth_eq by (rewrite ?length_update_nth; assumption) ];
  simpl; fold A; fold T; unfold jfloor; repeat split; reflexivity.
Qed.

(** handleHealthUpdate: health never drops and never exceeds maxHealth, maxHealth is kept, and the health bar is shown exactly when health is below 90% of maxHealth. *)
Theorem handleHealthUpdate_heals_within_max (cfg : LCConfig) (i : nat) (w : World) (h : Q) :
  (i < length (dwarfs w))%nat ->
  health (nth i (dwarfs w) default_dwarf) = Some h ->
  h <= maxHealth (nth i (dwarfs w) default_dwarf) ->
  0 <= lc_naturalHealing cfg ->
  let d' := nth i (dwarfs (snd (handleHealthUpdate cfg i w))) default_dwarf in
  exists h', health d' = Some h' /\ h <= h' /\ h' <= maxHealth d'
    /\ maxHealth d' = maxHealth (nth i (dwarfs w) default_dwarf)
    /\ healthBarVisible d' = qlt h' (maxHealth d' * (9#10)).
Proof.
  intros Hi Hh Hle Hn d'. subst d'.
  unfold handleHealthUpdate, bind, getD, modifyD, skip, ret. cbv beta iota zeta.
  set (d := nth i (dwarfs w) default_dwarf) in *.
  destruct (opt_lt (health d) (maxHealth d) && negb (isInCombat d)
            && opt_gt (health d) (maxHealth d * (3 # 10))); simpl.
  - rewrite !nth_update_nth_eq by (rewrite ?length_update_nth; assumption). simpl.
    fold d. rewrite Hh. simpl.
    exists (qmin (maxHealth d) (h + lc_naturalHealing cfg)). unfold qmin.
    destruct (qle (maxHealth d) (h + lc_naturalHealing cfg)) eqn:E.
    + repeat split; [exact Hle|apply Qle_refl].
    + apply qle_false in E. repeat split; lra.
  - rewrite nth_update_nth_eq by assumption. simpl. fold d. rewrite Hh. simpl.
    exists h. repeat split; [apply Qle_refl|exact Hle].
Qed.

(** handleAging: below 70% of the lifespan nothing changes; beyond it health can only drop, and efficiency never falls below 0.3 once it is at least 0.3. *)
Theorem handleAging_wears_down (cfg : LCConfig) (i : nat) (w : World) :
  (i < length (dwarfs w))%nat ->
  0 < maxLifespan (nth i (dwarfs w) default_dwarf) ->
  0 <= lc_agingDamage cfg ->
  let d := nth i (dwarfs w) default_dwarf in
  let w' := snd (handleAging cfg i w) in
  let d' := nth i (dwarfs w') default_dwarf in
  (age d / maxLifespan d < 7#10 -> w' = w)
  /\ (forall h, health d = Some h -> exists h', health d' = Some h' /\ h' <= h)
  /\ (3#10 <= efficiency d -> 3#10 <= efficiency d').
Proof.
  intros Hi Hm Hdmg d w' d'. subst w' d'.
  unfold handleAging, bind, getD, modifyD, skip, ret. cbv beta iota zeta. fold d.
  destruct (qle (7 # 10) (age d / maxLifespan d)) eqn:E.
  - apply qle_true_iff in E.
    set (f := (age d / maxLifespan d - (7 # 10)) / (3 # 10)).
    assert (Hf : 0 <= f) by (unfold f; apply Qle_shift_div_l; [reflexivity|lra]).
    cbn [dwarfs set_dwarfs]. rewrite nth_update_nth_eq by assumption. simpl. fold d. fold f.
    split; [intros H; lra|].
    assert (Hh : forall h, health d = Some h ->
              exists h', option_map (fun h0 => h0 - lc_agingDamage cfg * f) (health d) = Some h'
                         /\ h' <= h).
    { intros h Hh; rewrite Hh; simpl. exists (h - lc_agingDamage cfg * f). split; [reflexivity|].
      assert (0 <= lc_agingDamage cfg * f) by (apply Qmult_le_0_compat; assumption). lra. }
    destruct (negb (qeq (efficiency d) 0)); simpl.
    + rewrite nth_update_nth_eq by (rewrite length_update_nth; assumption). simpl.
      rewrite nth_update_nth_eq by assumption. simpl. fold d.
      split; [exact Hh|]. intros _. unfold qmax.
      destruct (qle _ (3 # 10)) eqn:E2; [apply Qle_refl|apply qle_false in E2; lra].
    + rewrite nth_update_nth_eq by assumption. simpl. fold d.
      split; [exact Hh|exact (fun H => H)].
  - apply qle_false in E. split; [reflexivity|].
    split; [intros h Hh; exists h; split; [exact Hh|apply Qle_refl]|exact (fun H => H)].
Qed.

(** The invariant is preserved by every step of [update]. *)
Section UpdateInvariant.

Variable P : World -> Prop.
Hypothesis P_rng : forall v w, P w -> P (set_rng v w).
Hypothesis P_events : forall v w, P w -> P (set_events v w).
Hypothesis P_skulls : forall v w, P w -> P (set_skulls v w).
Hypothesis P_pending : forall v w, P w -> P (set_pending v w).
Hypothesis P_modify : forall i f w, keeps_dead f -> P w -> P (set_dwarfs (update_nth i f (dwarfs w)) w).
Hypothesis P_clear : forall i w, P w -> P (set_dwarfs (map (clearTargeting i) (dwarfs w)) w).
Hypothesis P_combat_stats : forall n q w, P w ->
  P (set_lcstats (mkLCStats (totalDeaths (lcstats w)) (deathsByAge (lcstats w))
                    (deathsByCombat (lcstats w)) n q) w).
Hypothesis P_death_stats : forall w, P w ->
  P (set_lcstats (mkLCStats (S (totalDeaths (lcstats w))) (S (deathsByAge (lcstats w)))
                    (deathsByCombat (lcstats w)) (totalCombats (lcstats w))
                    (totalDamageDealt (lcstats w))) w)
  /\ P (set_lcstats (mkLCStats (S (totalDeaths (lcstats w))) (deathsByAge (lcstats w))
                    (S (deathsByCombat (lcstats w))) (totalCombats (lcstats w))
                    (totalDamageDealt (lcstats w))) w).

Lemma keeps_bind {A B : Type} (m : M A) (k : A -> M B) :
  Keeps P m -> (forall a, Keeps P (k a)) -> Keeps P (bind m k).
Proof. intros Hm Hk w Hw. unfold bind. destruct (m w) as [a w1] eqn:E.
  apply Hk. change w1 with (snd (a, w1)). rewrite <- E. apply Hm, Hw. Qed.

Lemma keeps_ret {A : Type} (a : A) : Keeps P (ret a).
Proof. intros w Hw; exact Hw. Qed.

Lemma keeps_getD (i : nat) : Keeps P (getD i).
Proof. intros w Hw; exact Hw. Qed.

Lemma keeps_random : Keeps P random.
Proof. intros w Hw; unfold random; destruct (rng w); simpl; auto. Qed.

Lemma keeps_emit (e : Event) : Keeps P (emit e).
Proof. intros w Hw; apply P_events, Hw. Qed.

Lemma keeps_modifyD (i : nat) (f : Dwarf -> Dwarf) : keeps_dead f -> Keeps P (modifyD i f).
Proof. intros Hf w Hw; apply P_modify; assumption. Qed.

Lemma keeps_filterM {A : Type} (p : A -> M bool) (l : list A) :
  (forall a, Keeps P (p a)) -> Keeps P (filterM p l).
Proof. intros Hp; induction l as [|a l IH]; simpl;
  [apply keeps_ret|apply keeps_bind; [apply Hp|intros b; apply keeps_bind; [exact IH|intros; apply keeps_ret]]].
Qed.

Lemma keeps_forEach {A : Type} (f : A -> M unit) (l : list A) :
  (forall a, Keeps P (f a)) -> Keeps P (forEach f l).
Proof. intros Hf; induction l as [|a l IH]; simpl;
  [apply keeps_ret|apply keeps_bind; [apply Hf|intros; exact IH]].
Qed.

Ltac keeps_dead_tac :=
  let d := fresh "d" in let Hd := fresh "Hd" in
  intros d Hd; simpl;
  repeat match goal with |- context [if ?b then _ else _] => destruct b end;
  simpl; auto.

Ltac keeps_step :=
  match goal with
  | |- Keeps _ (bind _ _) => apply keeps_bind; [|intros ?]
  | |- Keeps _ (ret _) => apply keeps_ret
  | |- Keeps _ skip => apply keeps_ret
  | |- Keeps _ (getD _) => apply keeps_getD
  | |- Keeps _ random => apply keeps_random
  | |- Keeps _ (emit _) => apply keeps_emit
  | |- Keeps _ (addLog _) => apply keeps_emit
  | |- Keeps _ (modifyD _ _) => apply keeps_modifyD; keeps_dead_tac
  | |- Keeps _ (filterM _ _) => apply keeps_filterM; intros ?
  | |- Keeps _ (forEach _ _) => apply keeps_forEach; intros ?
  | |- Keeps _ (if ?b then _ else _) => destruct b
  | |- Keeps _ (match ?x with _ => _ end) => destruct x
  end.

Lemma keeps_handleAging (cfg : LCConfig) (i : nat) : Keeps P (handleAging cfg i).
Proof. unfold handleAging; cbv zeta; repeat keeps_step. Qed.

Lemma keeps_handleHealthUpdate (cfg : LCConfig) (i : nat) : Keeps P (handleHealthUpdate cfg i).
Proof. unfold handleHealthUpdate; cbv zeta; repeat keeps_step. Qed.

Lemma keeps_shouldEngageInCombat (cfg : LCConfig) (a t : nat) : Keeps P (shouldEngageInCombat cfg a t).
Proof. unfold shouldEngageInCombat; cbv zeta; repeat keeps_step. Qed.

Lemma keeps_performAttack (cfg : LCConfig) (a t : nat) : Keeps P (performAttack cfg a t).
Proof.
  unfold performAttack; cbv zeta; repeat keeps_step.
  - intros w Hw; apply P_combat_stats, Hw.
  - intros w Hw; apply P_pending, Hw.
Qed.

Lemma keeps_moveTowardsTarget (sqrt : Q -> Q) (a t : nat) : Keeps P (moveTowardsTarget sqrt a t).
Proof. unfold moveTowardsTarget; cbv zeta; repeat keeps_step. Qed.

Lemma keeps_eligibleTargets (cfg : LCConfig) (i : nat) (l : list nat) :
  Keeps P (eligibleTargets cfg i l).
Proof. unfold eligibleTargets; repeat keeps_step; apply keeps_shouldEngageInCombat. Qed.

Lemma keeps_handleCombatBehavior (sqrt : Q -> Q) (cfg : LCConfig) (i : nat) :
  Keeps P (handleCombatBehavior sqrt cfg i).
Proof.
  unfold handleCombatBehavior; cbv zeta; repeat keeps_step.
  - intros w Hw; exact Hw.
  - apply keeps_eligibleTargets.
  - apply keeps_performAttack.
  - apply keeps_moveTowardsTarget.
Qed.

Lemma keeps_handleDeath (i : nat) : Keeps P (handleDeath i).
Proof.
  unfold handleDeath; cbv zeta; repeat keeps_step.
  - intros w Hw; apply P_skulls, Hw.
  - intros w Hw; simpl; destruct (opt_le0 (health a)); apply P_death_stats, Hw.
  - intros w Hw; apply P_clear, Hw.
Qed.

Lemma keeps_updateDwarf (sqrt : Q -> Q) (cfg : LCConfig) (i : nat) :
  Keeps P (updateDwarf sqrt cfg i).
Proof.
  unfold updateDwarf; repeat keeps_step;
  first [apply keeps_handleAging | apply keeps_handleHealthUpdate
        | apply keeps_handleCombatBehavior | apply keeps_handleDeath].
Qed.

Lemma keeps_update (sqrt : Q -> Q) (cfg : LCConfig) : Keeps P (update sqrt cfg).
Proof.
  unfold update; repeat keeps_step.
  - intros w Hw; exact Hw.
  - apply keeps_updateDwarf.
Qed.
End UpdateInvariant.

(** update: a tick never adds or removes agents; the dead stay in the population array. *)
Theorem update_keeps_population (sqrt : Q -> Q) (cfg : LCConfig) (w : World) :
  length (dwarfs (snd (update sqrt cfg w))) = length (dwarfs w).
Proof.
  apply (keeps_update (fun w' => length (dwarfs w') = length (dwarfs w))); auto.
  - intros i f w' _ H; simpl; rewrite length_update_nth; exact H.
  - intros i w' H; simpl; rewrite length_map; exact H.
Qed.

(** update: totalDeaths stays the sum of deathsByAge and deathsByCombat, and never decreases. *)
Theorem update_keeps_death_tally (sqrt : Q -> Q) (cfg : LCConfig) (w : World) :
  totalDeaths (lcstats w) = (deathsByAge (lcstats w) + deathsByCombat (lcstats w))%nat ->
  let s := lcstats (snd (update sqrt cfg w)) in
  totalDeaths s = (deathsByAge s + deathsByCombat s)%nat
  /\ (totalDeaths (lcstats w) <= totalDeaths s)%nat.
Proof.
  intros H s. subst s.
  apply (keeps_update (fun w' => totalDeaths (lcstats w') = (deathsByAge (lcstats w') + deathsByCombat (lcstats w'))%nat
                                 /\ (totalDeaths (lcstats w) <= totalDeaths (lcstats w'))%nat));
    auto; simpl; try (intros; lia).

Qed.

Lemma isDead_clearTargeting (i : nat) (d : Dwarf) : isDead (clearTargeting i d) = isDead d.
Proof. unfold clearTargeting; destruct (opt_nat_eqb (combatTarget d) (Some i)); reflexivity. Qed.

(** update: an agent marked dead stays dead after a tick. *)
Theorem update_never_revives (sqrt : Q -> Q) (cfg : LCConfig) (w : World) (j : nat) :
  isDead (nth j (dwarfs w) default_dwarf) = true ->
  isDead (nth j (dwarfs (snd (update sqrt cfg w))) default_dwarf) = true.
Proof.
  apply (keeps_update (fun w' => isDead (nth j (dwarfs w') default_dwarf) = true)); auto.
  - intros i f w' Hf H; simpl.
    destruct (Nat.eq_dec i j) as [<-|Hne].
    + destruct (Nat.lt_ge_cases i (length (dwarfs w'))) as [Hl|Hl].
      * rewrite nth_update_nth_eq by exact Hl. apply Hf, H.
      * rewrite nth_overflow in H by exact Hl. discriminate.
    + rewrite nth_update_nth_neq by exact Hne. exact H.
  - intros i w' H; simpl.
    replace (nth j (map (clearTargeting i) (dwarfs w')) default_dwarf)
      with (nth j (map (clearTargeting i) (dwarfs w')) (clearTargeting i default_dwarf))
      by reflexivity.
    rewrite map_nth, isDead_clearTargeting. exact H.
Qed.

Lemma performAttack_deals_whole_damage_witness :
  (0 <> 1)%nat /\
  let w' := snd (performAttack default_lc_config 0 1
                   (world_of [agent "A" Male 0 0; agent "B" Male 5 0] [1#2; 1#2])) in
  exists z : Z, (0 <= z)%Z
    /\ health (nth 1 (dwarfs w') default_dwarf) = option_map (fun h => h - inject_Z z) (Some 100)
    /\ totalDamageDealt (lcstats w') = 0 + inject_Z z
    /\ totalCombats (lcstats w') = 1%nat
    /\ totalDeaths (lcstats w') = 0%nat.
Proof.
  split; [discriminate|].
  apply (performAttack_deals_whole_damage default_lc_config 0 1
           (world_of [agent "A" Male 0 0; agent "B" Male 5 0] [1#2; 1#2]) (1#2) (1#2) []);
    first [discriminate | reflexivity | (simpl; lia) | (unfold Qle, Qlt; simpl; lia)].
Defined.

Lemma handleHealthUpdate_heals_within_max_witness :
  let w := world_of [set_health (Some 50) (agent "A" Male 0 0)] [] in
  health (nth 0 (dwarfs w) default_dwarf) = Some 50 /\
  let d' := nth 0 (dwarfs (snd (handleHealthUpdate default_lc_config 0 w))) default_dwarf in
  exists h', health d' = Some h' /\ 50 <= h' /\ h' <= maxHealth d'
    /\ maxHealth d' = 100
    /\ healthBarVisible d' = qlt h' (maxHealth d' * (9#10)).
Proof.
  split; [reflexivity|].
  apply (handleHealthUpdate_heals_within_max default_lc_config 0
           (world_of [set_health (Some 50) (agent "A" Male 0 0)] []) 50);
    first [reflexivity | (simpl; lia) | (unfold Qle; simpl; lia)].
Defined.

Lemma handleAging_wears_down_witness :
  let w := world_of [agent "A" Male 0 0] [] in
  0 < maxLifespan (nth 0 (dwarfs w) default_dwarf) /\
  let d := nth 0 (dwarfs w) default_dwarf in
  let w' := snd (handleAging default_lc_config 0 w) in
  let d' := nth 0 (dwarfs w') default_dwarf in
  (age d / maxLifespan d < 7#10 -> w' = w)
  /\ (forall h, health d = Some h -> exists h', health d' = Some h' /\ h' <= h)
  /\ (3#10 <= efficiency d -> 3#10 <= efficiency d').
Proof.
  split; [unfold Qlt; simpl; lia|].
  apply (handleAging_wears_down default_lc_config 0 (world_of [agent "A" Male 0 0] []));
    first [(simpl; lia) | (unfold Qle, Qlt; simpl; lia)].
Defined.

Lemma update_keeps_death_tally_witness :
  let w := world_of [agent "A" Male 0 0; agent "B" Female 3 4] [1#2; 1#2; 1#2] in
  totalDeaths (lcstats w) = (deathsByAge (lcstats w) + deathsByCombat (lcstats w))%nat /\
  let s := lcstats (snd (update qsqrt default_lc_config w)) in
  totalDeaths s = (deathsByAge s + deathsByCombat s)%nat
  /\ (totalDeaths (lcstats w) <= totalDeaths s)%nat.
Proof.
  split; [reflexivity|].
  apply (update_keeps_death_tally qsqrt default_lc_config
           (world_of [agent "A" Male 0 0; agent "B" Female 3 4] [1#2; 1#2; 1#2])).
  reflexivity.
Defined.

Lemma update_never_revives_witness :
  let w := world_of [set_isDead true (agent "A" Male 0 0); agent "B" Male 3 4] [1#2; 1#2] in
  isDead (nth 0 (dwarfs w) default_dwarf) = true /\
  isDead (nth 0 (dwarfs (snd (update qsqrt default_lc_config w))) default_dwarf) = true.
Proof.
  split; [reflexivity|].
  apply (update_never_revives qsqrt default_lc_config
           (world_of [set_isDead true (agent "A" Male 0 0); agent "B" Male 3 4] [1#2; 1#2]) 0).
  reflexivity.
Defined.

(** ** Initialisation, pregnancy clock, mate choice and population counts *)

(** initializeDwarf: with random draws in [0, 1], the lifespan lies between minLifespan and maxLifespan, maxHealth within 10 of the configured value, health starts full, the combat fields are reset, age and death status are kept, and exactly two random values are used. *)
Theorem initializeDwarf_ranges (cfg : LCConfig) (cls : option string) (i : nat) (w : World)
    (r1 r2 : Q) (rs : list Q) :
  (i < length (dwarfs w))%nat ->
  rng w = r1 :: r2 :: rs -> 0 <= r1 <= 1 -> 0 <= r2 <= 1 ->
  lc_minLifespan cfg <= lc_maxLifespan cfg ->
  let w' := snd (initializeDwarf cfg cls i w) in
  let d := nth i (dwarfs w) default_dwarf in
  let d' := nth i (dwarfs w') default_dwarf in
  lc_minLifespan cfg <= maxLifespan d' <= lc_maxLifespan cfg
  /\ lc_maxHealth cfg - 10 <= maxHealth d' <= lc_maxHealth cfg + 10
  /\ health d' = Some (maxHealth d')
  /\ attackCooldown d' = 0 /\ isInCombat d' = false /\ combatTarget d' = None
  /\ lastAttacker d' = None /\ combatEffectTimer d' = 0
  /\ combatStats d' = assignCombatStats cls /\ healthBarVisible d' = false
  /\ age d' = age d /\ isDead d' = isDead d
  /\ rng w' = rs /\ length (dwarfs w') = length (dwarfs w).
Proof.
  intros Hi Hr [H1a H1b] [H2a H2b] Hmm w' d d'. subst w' d'.
  unfold initializeDwarf, bind, random, modifyD, skip, ret. cbv beta iota zeta.
  rewrite Hr. cbn [dwarfs set_dwarfs rng set_rng snd].
  rewrite !nth_update_nth_eq by (rewrite ?length_update_nth; assumption).
  rewrite !length_update_nth. cbn. fold d.
  set (a := lc_minLifespan cfg) in *. set (b := lc_maxLifespan cfg) in *.
  assert (0 <= r1 * (b - a)) by (apply Qmult_le_0_compat; lra).
  assert (r1 * (b - a) <= b - a).
  { setoid_replace (b - a) with (1 * (b - a)) at 2 by ring.
    apply Qmult_le_compat_r; lra. }
  split; [lra|]. split; [lra|].
  repeat split; reflexivity.
Qed.

(** [strategies[Math.floor(r * strategies.length)]] lands in the list when [0 <= r < 1] and the list is not empty. *)
Lemma pick_in_list {A : Type} (l : list A) (r : Q) :
  l <> [] -> 0 <= r -> r < 1 -> exists a, pick l r = Some a /\ In a l.
Proof.
  intros Hl H0 H1. unfold pick.
  set (n := Z.of_nat (length l)).
  assert (Hn : (0 < n)%Z) by (destruct l; [congruence|unfold n; simpl; lia]).
  set (q := r * inject_Z n).
  assert (Hq0 : 0 <= q) by (unfold q; apply Qmult_le_0_compat; [exact H0|];
                            change 0 with (inject_Z 0); rewrite <- Zle_Qle; lia).
  assert (Hq1 : q < inject_Z n).
  { unfold q. setoid_replace (inject_Z n) with (1 * inject_Z n) at 2 by ring.
    apply Qmult_lt_compat_r; [change 0 with (inject_Z 0); rewrite <- Zlt_Qlt; lia|exact H1]. }
  assert (Hk0 : (0 <= Qfloor q)%Z) by (change 0%Z with (Qfloor 0); apply Qfloor_resp_le, Hq0).
  assert (Hk1 : (Qfloor q < n)%Z).
  { rewrite Zlt_Qlt. apply Qle_lt_trans with q; [apply Qfloor_le|exact Hq1]. }
  replace ((Qfloor q <? 0)%Z) with false by (symmetry; apply Z.ltb_ge; lia).
  destruct (nth_error l (Z.to_nat (Qfloor q))) as [a|] eqn:E.
  - exists a. split; [reflexivity|]. eapply nth_error_In, E.
  - apply nth_error_None in E. unfold n in Hk1. lia.
Qed.

Lemma initializeStrategyProperties_name (d : Dwarf) :
  name (initializeStrategyProperties d) = name d.
Proof.
  unfold initializeStrategyProperties.
  destruct (reproductionStrategy d) as [[| |]|]; try reflexivity;
    repeat match goal with |- context [match ?o with Some _ => _ | None => _ end] => destruct o end;
    reflexivity.
Qed.

Lemma initializeStrategyProperties_sets (d : Dwarf) :
  (reproductionStrategy d = Some Orange ->
     territoryX (initializeStrategyProperties d) <> None
     /\ territoryY (initializeStrategyProperties d) <> None)
  /\ (reproductionStrategy d = Some Blue ->
     guardedFemale (initializeStrategyProperties d) <> None).
Proof.
  unfold initializeStrategyProperties. split; intros H; rewrite H.
  - destruct (territoryX d) eqn:Ex; simpl; destruct (territoryY d) eqn:Ey; simpl;
      split; intro Hn; simpl in Hn; congruence.
  - destruct (guardedFemale d) eqn:Eg; simpl; intro Hn; congruence.
Qed.

(** assignRandomStrategy: for a male and a random value in [0, 1), the strategy is one of MALE_STRATEGIES; a territorial (orange) male gets a territory and a guardian (blue) male a guard field; one random value is used and one assignment event is emitted. *)
Theorem assignRandomStrategy_draws_from_config (c : ReproConfig) (d : Dwarf) (w : World)
    (r : Q) (rs : list Q) (l : list Strategy) :
  gender d = Male -> rng w = r :: rs -> 0 <= r -> r < 1 ->
  MALE_STRATEGIES c = Some l -> l <> [] ->
  let '(d', w') := assignRandomStrategy c d w in
  (exists s, In s l /\ reproductionStrategy d' = Some s)
  /\ (reproductionStrategy d' = Some Orange -> territoryX d' <> None /\ territoryY d' <> None)
  /\ (reproductionStrategy d' = Some Blue -> guardedFemale d' <> None)
  /\ rng w' = rs
  /\ events w' = app (events w) [EvStrategyAssigned (name d) (reproductionStrategy d')].
Proof.
  intros Hg Hr H0 H1 Hc Hl.
  destruct (pick_in_list l r Hl H0 H1) as (s & Hp & Hin).
  unfold assignRandomStrategy, bind, random, emit, ret. rewrite Hg. simpl.
  rewrite Hr, Hc, Hp. simpl.
  set (e := set_reproductionStrategy (Some s) d).
  destruct (initializeStrategyProperties_fields e) as (Hs & _).
  destruct (initializeStrategyProperties_sets e) as (Ho & Hb).
  rewrite Hs in *. rewrite initializeStrategyProperties_name. simpl in *.
  refine (conj (ex_intro _ s (conj Hin eq_refl)) (conj (fun H => Ho H) (conj (fun H => Hb H) (conj eq_refl eq_refl)))).
Qed.

(** getTimeUntilBirth and isReadyForBirth agree: for a pregnant female with a numeric timer, the time until birth is a non-negative number, and it is zero exactly when she is ready for birth. *)
Theorem pregnancy_clock_consistent (c : ReproConfig) (d : Dwarf) (t : Q) :
  truthy_b (isPregnant d) = true -> pregnancyTimer d = Some t ->
  exists v, getTimeUntilBirth c d = Some v /\ 0 <= v
    /\ (isReadyForBirth c d = true <-> v == 0).
Proof.
  intros Hp Ht. unfold getTimeUntilBirth, isReadyForBirth. rewrite Hp, Ht. simpl.
  unfold qmax. destruct (qle (PREGNANCY_DURATION c - t) 0) eqn:E.
  - apply qle_true_iff in E. exists 0. repeat split; try apply Qle_refl; try reflexivity.
    intros _. apply qle_true_iff. lra.
  - apply qle_false in E. exists (PREGNANCY_DURATION c - t).
    repeat split; [lra| |]; intros H.
    + apply qle_true_iff in H. lra.
    + lra.
Qed.

(** startPregnancy: refused (false, nothing changed) for a pregnant female; otherwise she becomes pregnant with the full duration to go, and no other agent changes. *)
Theorem startPregnancy_starts_clock (c : ReproConfig) (f : nat) (w : World) :
  (f < length (dwarfs w))%nat ->
  let F := nth f (dwarfs w) default_dwarf in
  let ok := fst (startPregnancy f w) in
  let w' := snd (startPregnancy f w) in
  let F' := nth f (dwarfs w') default_dwarf in
  (truthy_b (isPregnant F) = true -> ok = false /\ w' = w)
  /\ (truthy_b (isPregnant F) = false ->
      ok = true /\ isPregnant F' = Some true
      /\ (exists v, getTimeUntilBirth c F' = Some v /\ v == qmax 0 (PREGNANCY_DURATION c))
      /\ isReadyForBirth c F' = qle (PREGNANCY_DURATION c) 0
      /\ length (dwarfs w') = length (dwarfs w)
      /\ forall j, j <> f -> nth j (dwarfs w') default_dwarf = nth j (dwarfs w) default_dwarf).
Proof.
  intros Hf F ok w' F'. subst F ok w' F'.
  unfold startPregnancy, bind, getD, modifyD, ret. cbv beta iota zeta.
  destruct (truthy_b (isPregnant (nth f (dwarfs w) default_dwarf))) eqn:E; simpl.
  - split; [intros _; split; reflexivity|intros H; discriminate].
  - split; [intros H; discriminate|intros _].
    rewrite !nth_update_nth_eq by (rewrite ?length_update_nth; exact Hf). simpl.
    unfold getTimeUntilBirth, isReadyForBirth. simpl.
    rewrite !length_update_nth.
    refine (conj eq_refl (conj eq_refl (conj _ (conj eq_refl (conj eq_refl _))))).
    + eexists; split; [reflexivity|]. apply qmax_compat; [reflexivity|ring].
    + intros j Hj. rewrite !nth_update_nth_neq by congruence. reflexivity.
Qed.

(** updatePregnancy: before term, one tick lowers the time until birth by exactly one, without a birth and without drawing random values. *)
Theorem updatePregnancy_counts_down (c : ReproConfig) (nm : string) (g : Gender) (f : nat)
    (w : World) (t : Q) :
  (f < length (dwarfs w))%nat ->
  truthy_b (isPregnant (nth f (dwarfs w) default_dwarf)) = true ->
  pregnancyTimer (nth f (dwarfs w) default_dwarf) = Some t ->
  t + 1 < PREGNANCY_DURATION c ->
  let w' := snd (updatePregnancy c nm g f w) in
  let F := nth f (dwarfs w) default_dwarf in
  let F' := nth f (dwarfs w') default_dwarf in
  exists v v', getTimeUntilBirth c F = Some v /\ getTimeUntilBirth c F' = Some v'
    /\ v' == v - 1 /\ isReadyForBirth c F' = false
    /\ length (dwarfs w') = length (dwarfs w) /\ rng w' = rng w.
Proof.
  intros Hf Hp Ht Hlt w' F F'. subst w' F F'.
  unfold updatePregnancy, bind, getD, modifyD, ret, skip. cbv beta iota zeta.
  rewrite Hp. simpl.
  rewrite nth_update_nth_eq by exact Hf. simpl. rewrite Ht. simpl.
  assert (E : qle (PREGNANCY_DURATION c) (t + 1) = false).
  { destruct (qle (PREGNANCY_DURATION c) (t + 1)) eqn:E; [|reflexivity].
    apply qle_true_iff in E; lra. }
  rewrite E. simpl.
  rewrite nth_update_nth_eq by exact Hf. simpl.
  unfold getTimeUntilBirth, isReadyForBirth. simpl. rewrite Hp, Ht. simpl. rewrite E.
  exists (PREGNANCY_DURATION c - t), (PREGNANCY_DURATION c - (t + 1)).
  unfold qmax.
  assert (E1 : qle (PREGNANCY_DURATION c - t) 0 = false)
    by (destruct (qle (PREGNANCY_DURATION c - t) 0) eqn:E1; [apply qle_true_iff in E1; lra|reflexivity]).
  assert (E2 : qle (PREGNANCY_DURATION c - (t + 1)) 0 = false)
    by (destruct (qle (PREGNANCY_DURATION c - (t + 1)) 0) eqn:E2; [apply qle_true_iff in E2; lra|reflexivity]).
  rewrite E1, E2, length_update_nth.
  refine (conj eq_refl (conj eq_refl (conj _ (conj eq_refl (conj eq_refl eq_refl))))). ring.
Qed.

(** forceBirth: refused (false, nothing changed) unless the female is pregnant; otherwise a baby is added, and the mother is no longer pregnant, not ready for birth, and on the female cooldown. *)
Theorem forceBirth_ends_pregnancy (c : ReproConfig) (nm : string) (g : Gender) (f : nat) (w : World) :
  (f < length (dwarfs w))%nat ->
  let F := nth f (dwarfs w) default_dwarf in
  let ok := fst (forceBirth c nm g f w) in
  let w' := snd (forceBirth c nm g f w) in
  let F' := nth f (dwarfs w') default_dwarf in
  (truthy_b (isPregnant F) = false -> ok = false /\ w' = w)
  /\ (truthy_b (isPregnant F) = true ->
      ok = true /\ length (dwarfs w') = S (length (dwarfs w))
      /\ getTimeUntilBirth c F' = Some (-1) /\ isReadyForBirth c F' = false
      /\ reproductionCooldown F' = Some (FEMALE_REPRODUCTION_COOLDOWN c)).
Proof.
  intros Hf F ok w' F'. subst F ok w' F'.
  unfold forceBirth, giveBirth, bind, getD, modifyD, random, addDwarf, addLog, emit, ret, skip.
  cbv beta iota zeta.
  destruct (truthy_b (isPregnant (nth f (dwarfs w) default_dwarf))) eqn:Hp; simpl.
  - split; [intros H; discriminate|intros _].
    rewrite Hp; simpl.
    repeat (rewrite nth_update_nth_eq by (rewrite ?length_update_nth; exact Hf)); simpl.
    repeat match goal with |- context [match ?l with [] => _ | _ :: _ => _ end] =>
      destruct l; simpl end;
    match goal with |- context [initializeReproductionTraits ?c ?d ?w0] =>
      pose proof (initializeReproductionTraits_keeps c d w0) as (Hd & _);
      destruct (initializeReproductionTraits c d w0) as [b wb] eqn:Eb
    end; simpl in *; rewrite Hd; simpl;
    rewrite app_nth1 by (rewrite !length_update_nth; exact Hf);
    repeat (rewrite nth_update_nth_eq by (rewrite ?length_update_nth; exact Hf)); simpl;
    rewrite length_app, !length_update_nth; simpl;
    (refine (conj eq_refl (conj _ (conj eq_refl (conj eq_refl eq_refl)))); lia).
  - split; [intros _; split; reflexivity|intros H; discriminate].
Qed.

(** scoreMate is the final score of getDetailedScore plus the random variance term, and that final score is the base score plus the listed bonuses. *)
Theorem scoreMate_is_detailed_plus_variance (c : ReproConfig) (p : Personality) (s : option Strategy) (r : Q) :
  let bd := getDetailedScore c p s in
  scoreMate c p s r = bd_finalScore bd + r * randomVariance (FEMALE_SELECTION c)
  /\ bd_baseScore bd = baseScore (FEMALE_SELECTION c)
  /\ bd_finalScore bd == bd_baseScore bd + qsum_snd (bd_personalityBonuses bd).
Proof.
  intros bd; subst bd. unfold scoreMate, getDetailedScore.
  destruct (above (agreeableness p) _), (above (openness p) _), (below (neuroticism p) _),
    (has_strategy s Blue), (has_strategy s Orange), (has_strategy s Yellow);
    cbn -[Qplus Qmult]; (split; [reflexivity|split; [reflexivity|unfold qsum_snd; simpl; ring]]).
Qed.

(** When the bonuses are positive, the orange penalty negative and the orange bonus outweighs it, a male scores above the base score exactly when analyzePreferences lists his strategy as preferred, and below it exactly when it lists it as avoided and not preferred. *)
Theorem preferences_match_scores (c : ReproConfig) (p : Personality) (s : option Strategy) :
  let fc := FEMALE_SELECTION c in
  0 < agreeableness_blueBonus fc -> 0 < openness_yellowBonus fc ->
  agreeableness_orangePenalty fc < 0 ->
  0 < agreeableness_orangePenalty fc + neuroticism_orangeBonus fc ->
  let bd := getDetailedScore c p s in
  let pr := analyzePreferences c p in
  qlt (bd_baseScore bd) (bd_finalScore bd) = existsb (has_strategy s) (preferredStrategies pr)
  /\ qlt (bd_finalScore bd) (bd_baseScore bd)
     = existsb (has_strategy s) (avoidedStrategies pr)
       && negb (existsb (has_strategy s) (preferredStrategies pr)).
Proof.
  intros fc Hb Hy Ho Hon bd pr. subst fc bd pr.
  unfold getDetailedScore, analyzePreferences.
  destruct (above (agreeableness p) _), (above (openness p) _), (below (neuroticism p) _),
    s as [[| |]|]; cbn -[Qplus qlt];
  split;
  first [ reflexivity
        | apply qlt_true; lra
        | apply qlt_false; lra ].
Qed.

Lemma scoreMales_run (c : ReproConfig) (p : Personality) (males : list Dwarf) (w : World) :
  (length males <= length (rng w))%nat ->
  fst (scoreMales c p males w) = score_with c p males (rng w)
  /\ rng (snd (scoreMales c p males w)) = skipn (length males) (rng w)
  /\ dwarfs (snd (scoreMales c p males w)) = dwarfs w.
Proof.
  revert w. induction males as [|m ms IH]; intros w Hl.
  - simpl; unfold ret; simpl; destruct (rng w); (split; [reflexivity|split; reflexivity]).
  - simpl in Hl. destruct (rng w) as [|r rs] eqn:Er; [simpl in Hl; lia|].
    simpl in Hl. simpl. unfold bind, random, ret. rewrite Er.
    destruct (IH (set_rng rs w)) as (H1 & H2 & H3); [simpl; lia|].
    destruct (scoreMales c p ms (set_rng rs w)) as [l w1] eqn:E. simpl in *.
    unfold score_with. simpl. rewrite H1. split; [reflexivity|split; assumption].
Qed.

Lemma hd_insert_desc (e : Dwarf * Q) (l : list (Dwarf * Q)) :
  hd_error (insert_desc e l) = best_step (hd_error l) e.
Proof. destruct l as [|h t]; simpl; [reflexivity|]. destruct (qlt (snd h) (snd e)); reflexivity. Qed.

Lemma hd_sort_fold (l acc : list (Dwarf * Q)) :
  hd_error (fold_left (fun acc e => insert_desc e acc) l acc) = fold_left best_step l (hd_error acc).
Proof.
  revert acc. induction l as [|e l IH]; intros acc; simpl; [reflexivity|].
  rewrite IH, hd_insert_desc. reflexivity.
Qed.

Lemma best_step_first_max (l : list (Dwarf * Q)) :
  l <> [] ->
  exists pre e post, l = app pre (e :: post) /\ fold_left best_step l None = Some e
    /\ Forall (fun h => snd h < snd e) pre /\ Forall (fun h => snd h <= snd e) post.
Proof.
  induction l as [|x l IH] using rev_ind; intros Hne; [congruence|].
  rewrite fold_left_app. simpl.
  destruct l as [|y l'].
  - exists [], x, []. simpl. repeat split; constructor.
  - destruct IH as (pre & e & post & Hl & Hf & Hpre & Hpost); [discriminate|].
    rewrite Hf. simpl.
    destruct (qlt (snd e) (snd x)) eqn:E.
    + apply qlt_true_iff in E.
      exists (y :: l'), x, []. split; [reflexivity|]. split; [reflexivity|].
      split; [|constructor]. rewrite Hl. apply Forall_app. split.
      * eapply Forall_impl; [|exact Hpre]. intros h Hh; simpl in Hh; lra.
      * constructor; [exact E|]. eapply Forall_impl; [|exact Hpost]. intros h Hh; simpl in Hh; lra.
    + apply qlt_false_le in E.
      exists pre, e, (app post [x]). split; [rewrite app_comm_cons, Hl, <- app_assoc; reflexivity|].
      split; [reflexivity|]. split; [exact Hpre|]. apply Forall_app. split; [exact Hpost|].
      constructor; [exact E|constructor].
Qed.

(** selectPreferredMale returns null for no candidates, and otherwise the first male with the highest score: every male before him scores strictly less and every male after him at most as much; one random value is used per male. *)
Theorem selectPreferredMale_first_best (c : ReproConfig) (p : Personality) (males : list Dwarf) (w : World) :
  (length males <= length (rng w))%nat ->
  let scored := score_with c p males (rng w) in
  let '(sel, w') := selectPreferredMale c p males w in
  (males = [] -> sel = None)
  /\ (males <> [] -> exists pre m s post, scored = app pre ((m, s) :: post) /\ sel = Some m
        /\ Forall (fun h => snd h < s) pre /\ Forall (fun h => snd h <= s) post)
  /\ rng w' = skipn (length males) (rng w) /\ dwarfs w' = dwarfs w.
Proof.
  intros Hl scored. subst scored.
  unfold selectPreferredMale, bind, ret.
  destruct (scoreMales_run c p males w Hl) as (H1 & H2 & H3).
  destruct (scoreMales c p males w) as [l w1]. simpl in *. subst l.
  split; [|split; [|split; assumption]].
  - intros ->. reflexivity.
  - intros Hne.
    assert (Hne' : score_with c p males (rng w) <> []).
    { unfold score_with. destruct males as [|m ms]; [congruence|].
      destruct (rng w); simpl in Hl; [lia|discriminate]. }
    destruct (best_step_first_max _ Hne') as (pre & [m s] & post & Hs & Hf & Hpre & Hpost).
    exists pre, m, s, post. split; [exact Hs|]. split; [|split; assumption].
    pose proof (hd_sort_fold (score_with c p males (rng w)) []) as Hh. simpl in Hh.
    rewrite Hf in Hh. unfold sort_desc.
    destruct (fold_left _ _ []); simpl in Hh; [discriminate|]. injection Hh as ->. reflexivity.
Qed.

Lemma filter_length_split {A : Type} (p q : A -> bool) (l : list A) :
  (forall a, p a = true -> q a = true -> False) ->
  (length (filter p l) + length (filter q l) <= length l)%nat.
Proof.
  intros H. induction l as [|a l IH]; simpl; [lia|].
  destruct (p a) eqn:Ep, (q a) eqn:Eq; simpl; try lia.
  exfalso; exact (H a Ep Eq).
Qed.

Lemma filter_length_partition {A : Type} (p : A -> bool) (l : list A) :
  (length (filter p l) + length (filter (fun a => negb (p a)) l) = length l)%nat.
Proof. induction l as [|a l IH]; simpl; [reflexivity|]. destruct (p a); simpl; lia. Qed.

Lemma filter_filter_comm {A : Type} (p q : A -> bool) (l : list A) :
  filter p (filter q l) = filter (fun a => q a && p a) l.
Proof. induction l as [|a l IH]; simpl; [reflexivity|]. destruct (q a); simpl; [destruct (p a)|]; simpl; congruence. Qed.

(** getPopulationStats: adults and children add up to the total, adult males and females to the adults, pregnant and available females are at most the females, and the per-strategy counts at most the males. *)
Theorem population_stats_consistent (ds : list Dwarf) :
  let s := getPopulationStats ds in
  (ps_adults s + ps_children s = ps_total s)%nat
  /\ (ps_males s + ps_females s = ps_adults s)%nat
  /\ (ps_pregnant s + ps_availableFemales s <= ps_females s)%nat
  /\ (ps_orange s + ps_blue s + ps_yellow s <= ps_males s)%nat.
Proof.
  intros s; subst s. unfold getPopulationStats, getAdultMales, getAdultDwarfs, getAvailableFemales.
  cbn [ps_adults ps_children ps_total ps_males ps_females ps_pregnant ps_availableFemales
       ps_orange ps_blue ps_yellow].
  split; [|split; [|split]].
  - pose proof (filter_length_partition (fun d => isAdult d) ds) as H.
    cbv beta in H. lia.
  - set (ad := filter (fun d => isAdult d) ds).
    rewrite <- (filter_length_partition (fun d => gender_eqb (gender d) Male) ad).
    f_equal. apply f_equal, filter_ext. intros d. destruct (gender d); reflexivity.
  - set (fe := filter (fun d => gender_eqb (gender d) Female) (filter (fun d => isAdult d) ds)).
    assert (Hav : getAvailableFemales ds = filter (fun d => negb (truthy_b (isPregnant d)) && opt_le0 (reproductionCooldown d)) fe).
    { unfold fe, getAvailableFemales. rewrite !filter_filter_comm. apply filter_ext.
      intros d. destruct (isAdult d), (gender_eqb (gender d) Female); reflexivity. }
    unfold getAvailableFemales in Hav. rewrite Hav.
    apply filter_length_split. intros d H1 H2. rewrite H1 in H2. discriminate.
  - set (ma := filter (fun d => gender_eqb (gender d) Male) (filter (fun d => isAdult d) ds)).
    clearbody ma. induction ma as [|d l IH]; simpl; [lia|].
    destruct (reproductionStrategy d) as [[| |]|]; simpl; lia.
Qed.

Lemma count_update_nth {A : Type} (p : A -> bool) (i : nat) (g : A -> A) (l : list A) (d : A) :
  (i < length l)%nat ->
  (length (filter p (update_nth i g l)) + (if p (nth i l d) then 1 else 0)
   = length (filter p l) + (if p (g (nth i l d)) then 1 else 0))%nat.
Proof.
  revert i. induction l as [|a l IH]; intros i Hi; simpl in Hi; [lia|].
  destruct i as [|i]; simpl.
  - destruct (p a), (p (g a)); simpl; lia.
  - specialize (IH i ltac:(lia)). destruct (p a); simpl; lia.
Qed.

Lemma count_update_inv {A : Type} (p : A -> bool) (i : nat) (g : A -> A) (l : list A) :
  (forall a, p (g a) = p a) -> length (filter p (update_nth i g l)) = length (filter p l).
Proof.
  intros H. revert i. induction l as [|a l IH]; intros i; [destruct i; reflexivity|].
  destruct i as [|i]; simpl; [rewrite H; destruct (p a); reflexivity|].
  destruct (p a); simpl; rewrite IH; reflexivity.
Qed.

Lemma update_nth_compose {A : Type} (i : nat) (f g : A -> A) (l : list A) :
  update_nth i g (update_nth i f l) = update_nth i (fun a => g (f a)) l.
Proof.
  revert i. induction l as [|a l IH]; intros i; [destruct i; reflexivity|].
  destruct i as [|i]; simpl; [reflexivity|rewrite IH; reflexivity].
Qed.

(** A successful attemptMating between an adult male and an adult female moves her from the available females (if she was counted there) to the pregnant ones, and leaves every other population count unchanged. *)
Theorem attemptMating_moves_female_to_pregnant (c : ReproConfig) (m f : nat) (w : World) :
  m <> f -> (m < length (dwarfs w))%nat -> (f < length (dwarfs w))%nat ->
  gender (nth m (dwarfs w) default_dwarf) = Male ->
  gender (nth f (dwarfs w) default_dwarf) = Female ->
  isAdult (nth f (dwarfs w) default_dwarf) = true ->
  fst (attemptMating c m f w) = true ->
  let s := getPopulationStats (dwarfs w) in
  let s' := getPopulationStats (dwarfs (snd (attemptMating c m f w))) in
  ps_total s' = ps_total s /\ ps_adults s' = ps_adults s /\ ps_children s' = ps_children s
  /\ ps_males s' = ps_males s /\ ps_females s' = ps_females s
  /\ ps_orange s' = ps_orange s /\ ps_blue s' = ps_blue s /\ ps_yellow s' = ps_yellow s
  /\ ps_pregnant s' = S (ps_pregnant s)
  /\ (ps_availableFemales s'
      + (if female_available (nth f (dwarfs w) default_dwarf) then 1 else 0)
      = ps_availableFemales s)%nat.
Proof.
  intros Hmf Hm Hf Hgm Hgf Had Hok s s'. subst s s'.
  revert Hok.
  unfold attemptMating, bind, getD, modifyD, random, emit, addLog, ret. cbv beta iota zeta.
  set (F := nth f (dwarfs w) default_dwarf) in *.
  destruct (opt_gt0 (reproductionCooldown F) || truthy_b (isPregnant F)) eqn:Eb;
    [simpl; discriminate|].
  apply orb_false_iff in Eb. destruct Eb as [Ecd Epr].
  destruct (rng w) as [|r rs]; simpl;
  (destruct (qlt _ (MATING_SUCCESS_RATE c)); simpl; [|discriminate]); intros _;
  rewrite !update_nth_compose;
  set (G := fun a => set_reproductionCooldown (Some (FEMALE_REPRODUCTION_COOLDOWN c))
                       (set_pregnancyTimer (Some 0) (set_isPregnant (Some true) a)));
  set (Gm := set_reproductionCooldown (Some (MALE_REPRODUCTION_COOLDOWN c)));
  unfold getPopulationStats, getAdultMales, getAdultDwarfs, getAvailableFemales;
  cbn [ps_adults ps_children ps_total ps_males ps_females ps_pregnant ps_availableFemales
       ps_orange ps_blue ps_yellow];
  rewrite !filter_filter_comm;
  rewrite !length_update_nth;
  rewrite !(count_update_inv _ m Gm) by (intros; reflexivity);
  pose proof (count_update_nth
    (fun a => isAdult a && gender_eqb (gender a) Female && truthy_b (isPregnant a))
    f G (dwarfs w) default_dwarf Hf) as Hp;
  pose proof (count_update_nth female_available m Gm (update_nth f G (dwarfs w)) default_dwarf
    ltac:(rewrite length_update_nth; exact Hm)) as Ha1;
  pose proof (count_update_nth female_available f G (dwarfs w) default_dwarf Hf) as Ha2;
  rewrite (nth_update_nth_neq f m) in Ha1 by congruence;
  fold F in Hp, Ha2;
  unfold female_available in Ha1, Ha2 |- *; cbn [G Gm isAdult gender isPregnant reproductionCooldown
    set_reproductionCooldown set_pregnancyTimer set_isPregnant truthy_b negb] in Hp, Ha1, Ha2;
  rewrite Hgm in Ha1; rewrite Had, Hgf, Epr in Hp; simpl in Hp, Ha1, Ha2;
  rewrite ?andb_false_r in Ha1, Ha2; simpl in Ha1, Ha2;
  repeat split;
  first [ reflexivity
        | rewrite (count_update_inv _ f G) by (intros; reflexivity); reflexivity
        | lia ].
Qed.

Ltac concrete_hyp :=
  first [ reflexivity | discriminate | (simpl; lia) | (unfold Qle, Qlt; simpl; lia)
        | (vm_compute; reflexivity) ].

Lemma initializeDwarf_ranges_witness :
  let cfg := default_lc_config in let cls := Some "mage"%string in let i := 0%nat in
  let w := world_of [agent "A" Male 0 0] [1#2; 1#4] in
  ((i < length (dwarfs w))%nat /\ rng w = (1#2) :: (1#4) :: [] /\ 0 <= 1#2 <= 1 /\ 0 <= 1#4 <= 1
   /\ lc_minLifespan cfg <= lc_maxLifespan cfg) /\
  let w' := snd (initializeDwarf cfg cls i w) in
  let d := nth i (dwarfs w) default_dwarf in
  let d' := nth i (dwarfs w') default_dwarf in
  lc_minLifespan cfg <= maxLifespan d' <= lc_maxLifespan cfg
  /\ lc_maxHealth cfg - 10 <= maxHealth d' <= lc_maxHealth cfg + 10
  /\ health d' = Some (maxHealth d')
  /\ attackCooldown d' = 0 /\ isInCombat d' = false /\ combatTarget d' = None
  /\ lastAttacker d' = None /\ combatEffectTimer d' = 0
  /\ combatStats d' = assignCombatStats cls /\ healthBarVisible d' = false
  /\ age d' = age d /\ isDead d' = isDead d
  /\ rng w' = [] /\ length (dwarfs w') = length (dwarfs w).
Proof.
  cbv zeta. split; [repeat split; concrete_hyp|].
  apply (initializeDwarf_ranges default_lc_config (Some "mage"%string) 0
           (world_of [agent "A" Male 0 0] [1#2; 1#4]) (1#2) (1#4) []); concrete_hyp.
Defined.

Lemma assignRandomStrategy_draws_from_config_witness :
  let c := REPRODUCTION_CONFIG in let d := agent "M" Male 0 0 in
  let w := world_of [] [1#2] in let l := [Orange; Blue; Yellow] in
  (gender d = Male /\ rng w = (1#2) :: [] /\ 0 <= 1#2 /\ 1#2 < 1
   /\ MALE_STRATEGIES c = Some l /\ l <> []) /\
  let '(d', w') := assignRandomStrategy c d w in
  (exists s, In s l /\ reproductionStrategy d' = Some s)
  /\ (reproductionStrategy d' = Some Orange -> territoryX d' <> None /\ territoryY d' <> None)
  /\ (reproductionStrategy d' = Some Blue -> guardedFemale d' <> None)
  /\ rng w' = []
  /\ events w' = app (events w) [EvStrategyAssigned (name d) (reproductionStrategy d')].
Proof.
  cbv zeta. split; [repeat split; concrete_hyp|].
  apply (assignRandomStrategy_draws_from_config REPRODUCTION_CONFIG (agent "M" Male 0 0)
           (world_of [] [1#2]) (1#2) [] [Orange; Blue; Yellow]); concrete_hyp.
Defined.

Lemma pregnancy_clock_consistent_witness :
  let c := REPRODUCTION_CONFIG in let d := set_isPregnant (Some true) (agent "F" Female 0 0) in
  (truthy_b (isPregnant d) = true /\ pregnancyTimer d = Some 0) /\
  exists v, getTimeUntilBirth c d = Some v /\ 0 <= v
    /\ (isReadyForBirth c d = true <-> v == 0).
Proof.
  cbv zeta. split; [split; concrete_hyp|].
  apply (pregnancy_clock_consistent REPRODUCTION_CONFIG
           (set_isPregnant (Some true) (agent "F" Female 0 0)) 0); concrete_hyp.
Defined.

Lemma startPregnancy_starts_clock_witness :
  let c := REPRODUCTION_CONFIG in let f := 0%nat in
  let w := world_of [agent "F" Female 0 0] [] in
  (f < length (dwarfs w))%nat /\
  let F := nth f (dwarfs w) default_dwarf in
  let ok := fst (startPregnancy f w) in
  let w' := snd (startPregnancy f w) in
  let F' := nth f (dwarfs w') default_dwarf in
  (truthy_b (isPregnant F) = true -> ok = false /\ w' = w)
  /\ (truthy_b (isPregnant F) = false ->
      ok = true /\ isPregnant F' = Some true
      /\ (exists v, getTimeUntilBirth c F' = Some v /\ v == qmax 0 (PREGNANCY_DURATION c))
      /\ isReadyForBirth c F' = qle (PREGNANCY_DURATION c) 0
      /\ length (dwarfs w') = length (dwarfs w)
      /\ forall j, j <> f -> nth j (dwarfs w') default_dwarf = nth j (dwarfs w) default_dwarf).
Proof.
  cbv zeta. split; [concrete_hyp|].
  apply (startPregnancy_starts_clock REPRODUCTION_CONFIG 0 (world_of [agent "F" Female 0 0] []));
    concrete_hyp.
Defined.

Lemma updatePregnancy_counts_down_witness :
  let c := REPRODUCTION_CONFIG in let f := 0%nat in
  let w := world_of [set_isPregnant (Some true) (agent "F" Female 0 0)] [] in
  ((f < length (dwarfs w))%nat
   /\ truthy_b (isPregnant (nth f (dwarfs w) default_dwarf)) = true
   /\ pregnancyTimer (nth f (dwarfs w) default_dwarf) = Some 0
   /\ 0 + 1 < PREGNANCY_DURATION c) /\
  let w' := snd (updatePregnancy c "B" Female f w) in
  let F := nth f (dwarfs w) default_dwarf in
  let F' := nth f (dwarfs w') default_dwarf in
  exists v v', getTimeUntilBirth c F = Some v /\ getTimeUntilBirth c F' = Some v'
    /\ v' == v - 1 /\ isReadyForBirth c F' = false
    /\ length (dwarfs w') = length (dwarfs w) /\ rng w' = rng w.
Proof.
  cbv zeta. split; [repeat split; concrete_hyp|].
  apply (updatePregnancy_counts_down REPRODUCTION_CONFIG "B" Female 0
           (world_of [set_isPregnant (Some true) (agent "F" Female 0 0)] []) 0); concrete_hyp.
Defined.

Lemma forceBirth_ends_pregnancy_witness :
  let c := REPRODUCTION_CONFIG in let f := 0%nat in
  let w := world_of [set_isPregnant (Some true) (agent "F" Female 0 0)] [1#2; 1#2] in
  (f < length (dwarfs w))%nat /\
  let F := nth f (dwarfs w) default_dwarf in
  let ok := fst (forceBirth c "B" Female f w) in
  let w' := snd (forceBirth c "B" Female f w) in
  let F' := nth f (dwarfs w') default_dwarf in
  (truthy_b (isPregnant F) = false -> ok = false /\ w' = w)
  /\ (truthy_b (isPregnant F) = true ->
      ok = true /\ length (dwarfs w') = S (length (dwarfs w))
      /\ getTimeUntilBirth c F' = Some (-1) /\ isReadyForBirth c F' = false
      /\ reproductionCooldown F' = Some (FEMALE_REPRODUCTION_COOLDOWN c)).
Proof.
  cbv zeta. split; [concrete_hyp|].
  apply (forceBirth_ends_pregnancy REPRODUCTION_CONFIG "B" Female 0
           (world_of [set_isPregnant (Some true) (agent "F" Female 0 0)] [1#2; 1#2])); concrete_hyp.
Defined.

Lemma preferences_match_scores_witness :
  let c := REPRODUCTION_CONFIG in let p := mkPersonality 70 80 30 in let s := Some Orange in
  let fc := FEMALE_SELECTION c in
  (0 < agreeableness_blueBonus fc /\ 0 < openness_yellowBonus fc
   /\ agreeableness_orangePenalty fc < 0
   /\ 0 < agreeableness_orangePenalty fc + neuroticism_orangeBonus fc) /\
  let bd := getDetailedScore c p s in
  let pr := analyzePreferences c p in
  qlt (bd_baseScore bd) (bd_finalScore bd) = existsb (has_strategy s) (preferredStrategies pr)
  /\ qlt (bd_finalScore bd) (bd_baseScore bd)
     = existsb (has_strategy s) (avoidedStrategies pr)
       && negb (existsb (has_strategy s) (preferredStrategies pr)).
Proof.
  cbv zeta. split; [repeat split; concrete_hyp|].
  apply (preferences_match_scores REPRODUCTION_CONFIG (mkPersonality 70 80 30) (Some Orange));
    concrete_hyp.
Defined.

Lemma selectPreferredMale_first_best_witness :
  let c := REPRODUCTION_CONFIG in let p := mkPersonality 70 80 30 in
  let males := [agent "M1" Male 0 0; agent "M2" Male 5 0] in
  let w := world_of [] [1#2; 1#4] in
  (length males <= length (rng w))%nat /\
  let scored := score_with c p males (rng w) in
  let '(sel, w') := selectPreferredMale c p males w in
  (males = [] -> sel = None)
  /\ (males <> [] -> exists pre m s post, scored = app pre ((m, s) :: post) /\ sel = Some m
        /\ Forall (fun h => snd h < s) pre /\ Forall (fun h => snd h <= s) post)
  /\ rng w' = skipn (length males) (rng w) /\ dwarfs w' = dwarfs w.
Proof.
  cbv zeta. split; [concrete_hyp|].
  apply (selectPreferredMale_first_best REPRODUCTION_CONFIG (mkPersonality 70 80 30)
           [agent "M1" Male 0 0; agent "M2" Male 5 0] (world_of [] [1#2; 1#4])); concrete_hyp.
Defined.

Lemma attemptMating_moves_female_to_pregnant_witness :
  let c := REPRODUCTION_CONFIG in let m := 0%nat in let f := 1%nat in
  let w := world_of [agent "M" Male 0 0; agent "F" Female 10 0] [1#2] in
  (m <> f /\ (m < length (dwarfs w))%nat /\ (f < length (dwarfs w))%nat
   /\ gender (nth m (dwarfs w) default_dwarf) = Male
   /\ gender (nth f (dwarfs w) default_dwarf) = Female
   /\ isAdult (nth f (dwarfs w) default_dwarf) = true
   /\ fst (attemptMating c m f w) = true) /\
  let s := getPopulationStats (dwarfs w) in
  let s' := getPopulationStats (dwarfs (snd (attemptMating c m f w))) in
  ps_total s' = ps_total s /\ ps_adults s' = ps_adults s /\ ps_children s' = ps_children s
  /\ ps_males s' = ps_males s /\ ps_females s' = ps_females s
  /\ ps_orange s' = ps_orange s /\ ps_blue s' = ps_blue s /\ ps_yellow s' = ps_yellow s
  /\ ps_pregnant s' = S (ps_pregnant s)
  /\ (ps_availableFemales s'
      + (if female_available (nth f (dwarfs w) default_dwarf) then 1 else 0)
      = ps_availableFemales s)%nat.
Proof.
  cbv zeta. split; [repeat split; concrete_hyp|].
  apply (attemptMating_moves_female_to_pregnant REPRODUCTION_CONFIG 0 1
           (world_of [agent "M" Male 0 0; agent "F" Female 10 0] [1#2])); concrete_hyp.
Defined.

Lemma validateConfig_accepted_shape_witness :
  validateConfig (of_config REPRODUCTION_CONFIG) = None
  /\ exists l, JSConfig.MALE_STRATEGIES (of_config REPRODUCTION_CONFIG) = Some l
               /\ length l = 3%nat /\ forall s, In s l.
Proof.
  assert (H : validateConfig (of_config REPRODUCTION_CONFIG) = None) by reflexivity.
  split; [exact H|].
  exact (proj1 (proj2 (validateConfig_accepted_shape (of_config REPRODUCTION_CONFIG) H))).
Defined.
